(** * telegramAI: context composition, dispatch and memory consolidation

    A shallow embedding of the core of [src/index.js] (the Telegram bot
    "Гермиона"): the prompt composer [buildContents], the retry and fallback
    dispatch ([generateResponseWithRetry], [generateGeminiResponse],
    [generateResponseWithBackup]), the memory consolidator
    ([groupMessagesByDay], [generateSummary]), the model-selection and
    delete-last-N handlers, and the part of the message handlers that turns a
    model result into the two appended history turns.

    Conventions of the embedding.
    - A JavaScript string is the list of its UTF-16 code units ([JsString]).
      String literals of the source are written [js "..."].
    - A plain JavaScript object used as a map is an association list in
      own-property (insertion) order ([Obj]).
    - What the host provides (the clock, the locale formatter, the HTML
      sanitizer, the model providers) is collected in the record [Env];
      effects are threaded through the record [World].
    - A call that can throw returns a [Completion]. *)

From Stdlib Require Import List String Ascii Bool NArith ZArith QArith Lia.
From Stdlib Require Import Permutation.
Import ListNotations.

Set Implicit Arguments.
Close Scope Q_scope.
Local Open Scope list_scope.

(* ================================================================== *)
(** * JavaScript strings *)
(* ================================================================== *)

Module Js.

(** A string value: the sequence of its UTF-16 code units. *)
Definition JsString := list N.

(** [js s] reads a literal given in UTF-8 (as the source file is) and yields
    its UTF-16 code units. *)
Fixpoint js (s : string) : JsString :=
  match s with
  | EmptyString => []
  | String c s1 =>
      let b := N_of_ascii c in
      if (b <? 128)%N then b :: js s1
      else if (b <? 224)%N then
        match s1 with
        | String c2 s2 => ((b - 192) * 64 + (N_of_ascii c2 - 128))%N :: js s2
        | EmptyString => [65533%N]
        end
      else if (b <? 240)%N then
        match s1 with
        | String c2 (String c3 s3) =>
            ((b - 224) * 4096 + (N_of_ascii c2 - 128) * 64
             + (N_of_ascii c3 - 128))%N :: js s3
        | _ => [65533%N]
        end
      else
        match s1 with
        | String c2 (String c3 (String c4 s4)) =>
            let cp := ((b - 240) * 262144 + (N_of_ascii c2 - 128) * 4096
                       + (N_of_ascii c3 - 128) * 64
                       + (N_of_ascii c4 - 128))%N in
            let v := (cp - 65536)%N in
            (55296 + v / 1024)%N :: (56320 + v mod 1024)%N :: js s4
        | _ => [65533%N]
        end
  end.

Arguments js : simpl never.

(** The line feed of a template literal. *)
Definition nl : JsString := [10%N].

Definition str_eq_dec : forall a b : JsString, {a = b} + {a <> b} :=
  list_eq_dec N.eq_dec.

(** [a === b] on strings. *)
Definition str_eqb (a b : JsString) : bool :=
  if str_eq_dec a b then true else false.

(** ECMAScript WhiteSpace and LineTerminator code points, which
    [String.prototype.trim] strips and [parseInt] skips. *)
Definition isWhiteSpace (c : N) : bool :=
  ((9 <=? c) && (c <=? 13) || (c =? 32) || (c =? 160) || (c =? 5760)
   || (8192 <=? c) && (c <=? 8202) || (c =? 8232) || (c =? 8233)
   || (c =? 8239) || (c =? 8287) || (c =? 12288) || (c =? 65279))%N.

Fixpoint trimStart (s : JsString) : JsString :=
  match s with
  | [] => []
  | c :: s' => if isWhiteSpace c then trimStart s' else s
  end.

Definition trimEnd (s : JsString) : JsString := rev (trimStart (rev s)).

(** [s.trim()] *)
Definition trim (s : JsString) : JsString := trimEnd (trimStart s).

(** [s.split(sep)] for a one-character separator: never empty, the pieces
    between the occurrences of [sep] from left to right. *)
Fixpoint split (sep : N) (s : JsString) : list JsString :=
  match s with
  | [] => [[]]
  | c :: s' =>
      if (c =? sep)%N then [] :: split sep s'
      else match split sep s' with
           | p :: ps => (c :: p) :: ps
           | [] => [[c]]
           end
  end.

Fixpoint startsWith (p s : JsString) : bool :=
  match p, s with
  | [], _ => true
  | _ :: _, [] => false
  | a :: p', b :: s' => (a =? b)%N && startsWith p' s'
  end.

(** [s.includes(p)] *)
Fixpoint includes (p s : JsString) : bool :=
  startsWith p s ||
  match s with
  | [] => false
  | _ :: s' => includes p s'
  end.

(** [parts.join(sep)] *)
Fixpoint join (sep : JsString) (parts : list JsString) : JsString :=
  match parts with
  | [] => []
  | [p] => p
  | p :: ps => p ++ sep ++ join sep ps
  end.

(** ** Numbers read from strings

    Only decimal integers are represented: [None] stands for [NaN].  The
    values are exact integers; the source only compares them with calendar
    fields or with an array length, where a double and the exact integer
    agree. *)

Definition isDigit (c : N) : bool := ((48 <=? c) && (c <=? 57))%N.

Definition digitVal (c : N) : Z := Z.of_N c - 48.

(** The longest prefix of decimal digits of [s], folded into [acc]; the
    boolean tells whether a digit was read. *)
Fixpoint readDigits (s : JsString) (acc : Z) (seen : bool) : Z * bool :=
  match s with
  | c :: s' =>
      if isDigit c then readDigits s' (acc * 10 + digitVal c) true
      else (acc, seen)
  | [] => (acc, seen)
  end.

(** The value of a run of digits read after [a]. *)
Definition readAll (ds : JsString) (a : Z) : Z :=
  fold_left (fun acc c => (acc * 10 + digitVal c)%Z) ds a.

(** [parseInt(s, 10)]: leading white space is skipped, one sign is
    accepted, then the longest run of digits is read; whatever follows is
    ignored; no digit at all gives [NaN]. *)
Definition parseInt10 (s : JsString) : option Z :=
  let s1 := trimStart s in
  let '(neg, s2) :=
    match s1 with
    | 45%N :: r => (true, r)
    | 43%N :: r => (false, r)
    | _ => (false, s1)
    end in
  match readDigits s2 0 false with
  | (v, true) => Some (if neg then - v else v)%Z
  | (_, false) => None
  end.

(** [Number(s)] on the strings a date part is made of: the white space
    around is dropped, the empty string is [0], an optionally signed run of
    decimal digits is its value.  The other numeric literals of ECMAScript
    (fractions, exponents, radix prefixes, [Infinity]) do not occur between
    the dots of a formatted date and are read as [NaN] here. *)
Definition Number (s : JsString) : option Z :=
  let s1 := trim s in
  match s1 with
  | [] => Some 0%Z
  | _ =>
      let '(neg, s2) :=
        match s1 with
        | 45%N :: r => (true, r)
        | 43%N :: r => (false, r)
        | _ => (false, s1)
        end in
      match s2 with
      | [] => None
      | _ =>
          if forallb isDigit s2
          then Some (let v := fst (readDigits s2 0 false) in
                     if neg then - v else v)%Z
          else None
      end
  end.

(** Decimal digits of a natural number, most significant first. *)
Fixpoint digitsFuel (fuel : nat) (n : N) (acc : JsString) : JsString :=
  match fuel with
  | O => acc
  | S f =>
      let acc' := (48 + n mod 10)%N :: acc in
      if (n / 10 =? 0)%N then acc' else digitsFuel f (n / 10)%N acc'
  end.

Definition digits (n : N) : JsString := digitsFuel (S (N.to_nat (N.log2 n))) n [].

(** Two digits at least, as the [2-digit] day and month of a date. *)
Definition pad2 (n : N) : JsString :=
  if (n <? 10)%N then 48%N :: digits n else digits n.

End Js.
Export Js.

(* ================================================================== *)
(** * Plain objects used as maps *)
(* ================================================================== *)

(** [memories] and the result of [groupMessagesByDay] are plain objects
    keyed by a day.  A day key is the part of a formatted timestamp before
    its first comma, so it always contains separators: it is neither a
    canonical array index nor the name of a property inherited from
    [Object.prototype].  For such keys a property read sees own properties
    only and [Object.entries] lists them in insertion order, which is what
    the association list records. *)
Module Obj.

Section Ops.
Variable V : Type.

Definition t := list (JsString * V).

(** [o[k]], [None] when the property is absent ([undefined]). *)
Fixpoint get (o : t) (k : JsString) : option V :=
  match o with
  | [] => None
  | (k', v) :: o' => if str_eq_dec k k' then Some v else get o' k
  end.

(** [o[k] = v]: an existing property keeps its place, a new one is added
    last. *)
Fixpoint set (o : t) (k : JsString) (v : V) : t :=
  match o with
  | [] => [(k, v)]
  | (k', v') :: o' =>
      if str_eq_dec k k' then (k', v) :: o' else (k', v') :: set o' k v
  end.

(** [Object.keys(o)] *)
Definition keys (o : t) : list JsString := map fst o.

(** [Object.entries(o)] *)
Definition entries (o : t) : list (JsString * V) := o.

(** How many own properties are named [k]. *)
Definition count (o : t) (k : JsString) : nat :=
  List.length (filter (fun kv => str_eqb (fst kv) k) o).
End Ops.

End Obj.

(* ================================================================== *)
(** * Data model *)
(* ================================================================== *)

(** An entry of [session.history]. *)
Record Turn := mkTurn {
  role : JsString;
  content : JsString;
  date : JsString
}.

(** A value of [session.memories]; [mdate] is its [date] field. *)
Record Memory := mkMemory {
  text : JsString;
  mdate : JsString
}.

(** [globalContext[userId]].  The middleware creates a session with every
    field set and [loadContext] fills the fields a stored session lacks, so
    a session always has a history, a [memories] object and two model
    names. *)
Record Session := mkSession {
  history : list Turn;
  memories : Obj.t Memory;
  messageCountSinceSummary : Z;
  maxOutputTokens : Z;
  temperature : Q;
  mainModel : JsString;
  backupModel : JsString;
  awaitingMessageDeletionCount : bool
}.

(** What the middleware creates on first contact. *)
Definition newSession : Session :=
  {| history := [];
     memories := [];
     messageCountSinceSummary := 0;
     maxOutputTokens := 700;
     temperature := 15 # 10;
     mainModel := js "gemini-exp-1206";
     backupModel := js "gemini-1.5-pro-002";
     awaitingMessageDeletionCount := false |}.

(** A [Date] object: the local calendar fields and the instant. *)
Record Date := mkDate {
  getFullYear : Z;
  getMonth : Z;     (* 0 .. 11 *)
  getDate : Z;      (* 1 .. 31 *)
  getTime : Z       (* milliseconds since the epoch *)
}.

(** [d.toLocaleDateString('ru-RU')]: day.month.year, day and month on two
    digits. *)
Definition toLocaleDateString_ruRU (d : Date) : JsString :=
  pad2 (Z.to_N (getDate d)) ++ js "." ++ pad2 (Z.to_N (getMonth d + 1))
  ++ js "." ++ digits (Z.to_N (getFullYear d)).

(** An element of the [contents] array handed to a model. *)
Inductive Part :=
| Text (t : JsString)
| FileData (mimeType fileUri : JsString).

Definition Contents := list Part.

(** An exception value: [error.status], the block reason under
    [error.response.promptFeedback], and [error.message]. *)
Record Error := mkError {
  status : option Z;
  blockReason : option JsString;
  message : JsString
}.

(** [new Error(msg)] *)
Definition newError (msg : JsString) : Error :=
  {| status := None; blockReason := None; message := msg |}.

(** The [TypeError] of a property read on [undefined]. *)
Definition typeError : Error :=
  newError (js "Cannot read properties of undefined").

(** How an evaluation ends. *)
Inductive Completion (A : Type) :=
| Returned (a : A)
| Thrown (e : Error).
Arguments Returned {A} a.
Arguments Thrown {A} e.

(** [result.response]: its [text()] either yields the generated text or
    throws. *)
Record Response := mkResponse {
  responseText : Completion JsString
}.

(** What [generateContent] resolves to; [usedBackupModel] is absent (falsy)
    until the fallback sets it. *)
Record GenResult := mkGenResult {
  response : option Response;
  usedBackupModel : bool
}.

(** A model object.  [m n contents] is the completion of the call
    [m.generateContent(contents)] when the object has served [n] calls
    before. *)
Definition Model := nat -> Contents -> Completion GenResult.

(** What the host and the providers supply. *)
Record Env := mkEnv {
  (** the clock at its [k]-th reading by [new Date()]; a stretch of
      synchronous code reads it once *)
  clock : nat -> Date;
  (** [d.toLocaleString()] in the locale of the host *)
  toLocaleString : Date -> JsString;
  (** [sanitizeHtml(s, options)] with the tags and attributes the bot
      allows *)
  sanitizeHtml : JsString -> JsString;
  (** [sanitizeHtml(s, { allowedTags: [], allowedAttributes: {} })] *)
  stripTags : JsString -> JsString;
  createGeminiModel : JsString -> Z -> Q -> Model;
  createDeepseekModel : Z -> Q -> Model;
  (** the global [summarizationModel] *)
  summarizationModel : Model;
  (** what [await sendLongMessage(ctx, text)] throws when the platform
      rejects one of its replies, at the [k]-th reading of the clock;
      [None] when every reply is accepted *)
  sendLongMessageError : nat -> JsString -> option Error
}.

(** The same host and providers with another platform. *)
Definition withPlatform (env : Env)
    (platform : nat -> JsString -> option Error) : Env :=
  {| clock := clock env;
     toLocaleString := toLocaleString env;
     sanitizeHtml := sanitizeHtml env;
     stripTags := stripTags env;
     createGeminiModel := createGeminiModel env;
     createDeepseekModel := createDeepseekModel env;
     summarizationModel := summarizationModel env;
     sendLongMessageError := platform |}.

(* ================================================================== *)
(** * Context composer *)
(* ================================================================== *)

(** [array.slice(-n)]: the last [n] elements, all of them when there are
    fewer. *)
Definition sliceLast (A : Type) (n : nat) (l : list A) : list A :=
  skipn (List.length l - n) l.

(** [a[i]] of a destructuring pattern, then [===] with a number:
    an absent element is [undefined], which equals no number. *)
Definition numEq (x : option (option Z)) (n : Z) : bool :=
  match x with
  | Some (Some v) => (v =? n)%Z
  | _ => false
  end.

(** [isMessageFromToday(messageDateString)], with [today] the value of
    [new Date()] inside it. *)
Definition isMessageFromToday (today : Date) (messageDateString : JsString) : bool :=
  let datePart := hd [] (split 44 messageDateString) in
  let nums := map Number (split 46 datePart) in
  let day := nth_error nums 0 in
  let month := nth_error nums 1 in
  let year := nth_error nums 2 in
  numEq day (getDate today)
  && numEq month (getMonth today + 1)
  && numEq year (getFullYear today).

(** The [(date)] suffix of a speaker label; an empty date is falsy. *)
Definition dateStr (d : JsString) : JsString :=
  match d with
  | [] => []
  | _ => js "(" ++ d ++ js ")"
  end.

Definition memoryPart (e : JsString * Memory) : Part :=
  Text (js "Воспоминания за " ++ fst e ++ js ":" ++ nl ++ text (snd e) ++ nl).

Definition turnPart (m : Turn) : Part :=
  Text (role m ++ dateStr (date m) ++ js ": " ++ content m ++ nl).

Definition newTurnPart (userName messageDate userMessage : JsString) : Part :=
  Text (userName ++ dateStr messageDate ++ js ": " ++ userMessage ++ nl).

Definition cuePart : Part := Text (js "Гермиона:").

(** [contents.push(x)] *)
Definition push (A : Type) (l : list A) (x : A) : list A := l ++ [x].

(** [buildContents(history, memories, userName, userMessage, messageDate)].
    The function is synchronous: every [new Date()] it evaluates (one per
    history element, inside [isMessageFromToday]) is the same instant [now].
    Its unused local [today] is left out. *)
Definition buildContents (now : Date) (history : list Turn)
    (memories : Obj.t Memory) (userName userMessage messageDate : JsString)
    : Contents :=
  let contents := [] in
  let contents :=
    fold_left (fun acc e => push acc (memoryPart e)) (Obj.entries memories) contents in
  let todayHistory := filter (fun msg => isMessageFromToday now (date msg)) history in
  let recentHistory := sliceLast 20 todayHistory in
  let contents := fold_left (fun acc m => push acc (turnPart m)) recentHistory contents in
  let contents := push contents (newTurnPart userName messageDate userMessage) in
  let contents := push contents cuePart in
  contents.

(* ================================================================== *)
(** * Dispatch engine *)
(* ================================================================== *)

(** What one run of a dispatch function did: how it ended, how many
    [generateContent] calls it made, and the [setTimeout] delays
    (milliseconds) it waited, in order.  A [Returned None] is the
    [undefined] of a function that falls off its loop. *)
Record Run := mkRun {
  completion : Completion (option GenResult);
  calls : nat;
  waits : list Z
}.

(** [error.status === 503 || error.status === 429] *)
Definition isTransient (e : Error) : bool :=
  match status e with
  | Some s => (s =? 503)%Z || (s =? 429)%Z
  | None => false
  end.

(** The [for (let attempt = 1; attempt <= retries; attempt++)] loop of
    [generateResponseWithRetry]: [remaining] iterations are left
    ([retries + 1 - attempt]), the model object has served [served] calls. *)
Fixpoint retryLoop (model : Model) (contents : Contents) (retries : nat)
    (remaining attempt : nat) (delay : Z) (served : nat) : Run :=
  match remaining with
  | O => {| completion := Returned None; calls := 0; waits := [] |}
  | S remaining' =>
      match model served contents with
      | Returned r =>
          {| completion := Returned (Some r); calls := 1; waits := [] |}
      | Thrown error =>
          if isTransient error && (attempt <? retries)%nat then
            let rest := retryLoop model contents retries remaining'
                          (S attempt) (delay + 1000) (S served) in
            {| completion := completion rest;
               calls := S (calls rest);
               waits := delay :: waits rest |}
          else
            {| completion := Thrown error; calls := 1; waits := [] |}
      end
  end.

(** [generateResponseWithRetry(model, contents, retries = 1,
    initialDelay = 1000)] on a model object that has served [served] calls. *)
Definition generateResponseWithRetry (model : Model) (contents : Contents)
    (retries : nat) (initialDelay : Z) (served : nat) : Run :=
  retryLoop model contents retries retries 1 initialDelay served.

Definition msgUnavailable : JsString :=
  js "Модель временно недоступна. Попробуй позже.".
Definition msgTooMany : JsString :=
  js "Слишком много запросов. Попробуй позже.".
Definition msgProhibited : JsString :=
  js "Ответ заблокирован из-за запрещённого содержания.".

(** The [catch] of [generateGeminiResponse]: what is thrown in place of
    [error]. *)
Definition rethrow (error : Error) : Error :=
  if match status error with Some s => (s =? 503)%Z | None => false end
  then newError msgUnavailable
  else if match status error with Some s => (s =? 429)%Z | None => false end
  then newError msgTooMany
  else if match blockReason error with
          | Some b => str_eqb b (js "PROHIBITED_CONTENT")
          | None => false
          end
  then newError msgProhibited
  else error.

(** [generateGeminiResponse(model, contents)] on a model object that has
    served [served] calls. *)
Definition generateGeminiResponse (model : Model) (contents : Contents)
    (served : nat) : Run :=
  let run := generateResponseWithRetry model contents 3 1000 served in
  match completion run with
  | Returned result => run
  | Thrown error =>
      {| completion := Thrown (rethrow error);
         calls := calls run; waits := waits run |}
  end.

(** [s || dflt] on strings: the empty string is falsy. *)
Definition orStr (s dflt : JsString) : JsString :=
  match s with
  | [] => dflt
  | _ => s
  end.

(** The model object built for a provider name. *)
Definition createModel (env : Env) (name : JsString) (maxTokens : Z)
    (temp : Q) : Model :=
  if str_eqb name (js "deepseek-chat")
  then createDeepseekModel env maxTokens temp
  else createGeminiModel env name maxTokens temp.

(** [x || 700] and [x || 1.5]: zero is falsy. *)
Definition orTokens (x : Z) : Z := if (x =? 0)%Z then 700%Z else x.
Definition orTemperature (x : Q) : Q := if Qeq_bool x 0 then (15 # 10)%Q else x.

(** The two model objects [generateResponseWithBackup] creates. *)
Definition mainOf (env : Env) (session : Session) : Model :=
  createModel env (orStr (mainModel session) (js "gemini-exp-1206"))
    (orTokens (maxOutputTokens session)) (orTemperature (temperature session)).

Definition backupOf (env : Env) (session : Session) : Model :=
  createModel env (orStr (backupModel session) (js "gemini-1.5-pro-002"))
    (orTokens (maxOutputTokens session)) (orTemperature (temperature session)).

(** What one run of the fallback did: how it ended and the calls made on
    each of the two model objects. *)
Record BackupRun := mkBackupRun {
  outcome : Completion (option GenResult);
  mainCalls : nat;
  backupCalls : nat
}.

(** [generateResponseWithBackup(session, contents)].  Both model objects
    are created by the call, so each has served no call yet.  Writing
    [usedBackupModel] on an [undefined] result throws inside the inner
    [try], whose [catch] rethrows the error of the main model. *)
Definition generateResponseWithBackup (env : Env) (session : Session)
    (contents : Contents) : BackupRun :=
  let main := mainOf env session in
  let backup := backupOf env session in
  let mainRun := generateGeminiResponse main contents 0 in
  match completion mainRun with
  | Returned result =>
      {| outcome := Returned result;
         mainCalls := calls mainRun; backupCalls := 0 |}
  | Thrown error =>
      let backupRun := generateGeminiResponse backup contents 0 in
      {| outcome :=
           match completion backupRun with
           | Returned (Some result) =>
               Returned (Some {| response := response result;
                                 usedBackupModel := true |})
           | Returned None => Thrown error
           | Thrown backupError => Thrown error
           end;
         mainCalls := calls mainRun;
         backupCalls := calls backupRun |}
  end.

(* ================================================================== *)
(** * Effects *)
(* ================================================================== *)

(** The part of the world the consolidator and the handlers act on: how
    many times [new Date()] has been evaluated, and the [contents] of every
    call served by the global [summarizationModel], oldest first. *)
Record World := mkWorld {
  ticks : nat;
  summaryCalls : list Contents
}.

Definition world0 : World := {| ticks := 0; summaryCalls := [] |}.

(** A computation over a state [S] that may throw.  The state reached when
    it throws is kept: what was written before the exception stays
    written. *)
Definition M (S A : Type) : Type := S -> Completion A * S.

Definition ret (S A : Type) (a : A) : M S A := fun s => (Returned a, s).

Definition throw (S A : Type) (e : Error) : M S A := fun s => (Thrown e, s).

Definition bind (S A B : Type) (m : M S A) (k : A -> M S B) : M S B :=
  fun s =>
    match m s with
    | (Returned a, s') => k a s'
    | (Thrown e, s') => (Thrown e, s')
    end.

Definition gets (S A : Type) (f : S -> A) : M S A := fun s => (Returned (f s), s).

Definition modify (S : Type) (f : S -> S) : M S unit := fun s => (Returned tt, f s).

(** A pure completion as a computation. *)
Definition lift (S A : Type) (c : Completion A) : M S A := fun s => (c, s).

Declare Scope m_scope.
Delimit Scope m_scope with m.
Notation "x <- m ;; k" := (bind m (fun x => k))
  (at level 61, m at next level, right associativity) : m_scope.
Notation "m ;;; k" := (bind m (fun _ => k))
  (at level 61, right associativity) : m_scope.

(** [for (const x of l) body(x)] *)
Fixpoint forEach (S A : Type) (body : A -> M S unit) (l : list A) : M S unit :=
  match l with
  | [] => ret tt
  | x :: l' => bind (body x) (fun _ => forEach body l')
  end.

(** [new Date()] *)
Definition newDate (env : Env) (w : World) : Date * World :=
  (clock env (ticks w), {| ticks := S (ticks w); summaryCalls := summaryCalls w |}).

(* ================================================================== *)
(** * Memory consolidator *)
(* ================================================================== *)

(** [msg.date.split(',')[0]] *)
Definition dayOf (msg : Turn) : JsString := hd [] (split 44 (date msg)).

(** [msg.date.split(',')[0] === d]: the message is dated on day [d]. *)
Definition onDay (d : JsString) (msg : Turn) : bool := str_eqb (dayOf msg) d.

(** The world once one more call of the summarization model is logged. *)
Definition logged (w : World) (contents : Contents) : World :=
  {| ticks := ticks w; summaryCalls := summaryCalls w ++ [contents] |}.

(** The body of the [forEach] of [groupMessagesByDay]: the group of the
    day is created empty when it is missing, then [msg] is pushed on it. *)
Definition groupStep (groupedMessages : Obj.t (list Turn)) (msg : Turn)
    : Obj.t (list Turn) :=
  let date := dayOf msg in
  let groupedMessages :=
    match Obj.get groupedMessages date with
    | None => Obj.set groupedMessages date []
    | Some _ => groupedMessages
    end in
  match Obj.get groupedMessages date with
  | Some group => Obj.set groupedMessages date (push group msg)
  | None => groupedMessages
  end.

(** [groupMessagesByDay(messages)] *)
Definition groupMessagesByDay (messages : list Turn) : Obj.t (list Turn) :=
  fold_left groupStep messages [].

(** The state of the [try] block of [generateSummary]: the [memories]
    object, which is [session.memories] itself and is written in place, and
    the world. *)
Record SumState := mkSumState {
  mem : Obj.t Memory;
  world : World
}.

(** The inner [for] loop over [Object.entries(memories)]. *)
Definition previousMemoriesText (memories : Obj.t Memory) (date : JsString)
    : JsString :=
  fold_left
    (fun acc e =>
       if str_eqb (fst e) date then acc
       else acc ++ js "Воспоминания за " ++ fst e ++ js ":" ++ nl
                ++ text (snd e) ++ nl)
    (Obj.entries memories) [].

(** [!memories[date] || memories[date].text.trim().length === 0
    || date === today] *)
Definition needsSummary (memories : Obj.t Memory) (date today : JsString)
    : bool :=
  match Obj.get memories date with
  | None => true
  | Some m =>
      (List.length (trim (text m)) =? 0)%nat || str_eqb date today
  end.

Definition historyLine (msg : Turn) : JsString :=
  role msg ++ js " (" ++ date msg ++ js "): " ++ content msg.

Definition summaryPrompt (date : JsString) : JsString :=
  js "Ты Гермиона Грейнджер и твоя задача, посмотрев на эту переписку за "
  ++ date ++ js ", ... (твой актуальный запрос на суммаризацию)".

Definition summaryContents (memories : Obj.t Memory) (date : JsString)
    (messages : list Turn) : Contents :=
  let previous := previousMemoriesText memories date in
  let historyText := join nl (map historyLine messages) in
  [ Text (js "Предыдущие воспоминания:" ++ nl ++ previous);
    Text (summaryPrompt date ++ nl ++ historyText) ].

(** [await generateResponseWithRetry(summarizationModel, contents)], with
    the default single attempt; every call it makes is logged. *)
Definition callSummarizationModel (env : Env) (contents : Contents)
    : M SumState (option GenResult) :=
  fun st =>
    let w := world st in
    let run := generateResponseWithRetry (summarizationModel env) contents
                 1 1000 (List.length (summaryCalls w)) in
    (completion run,
     {| mem := mem st;
        world := {| ticks := ticks w;
                    summaryCalls := summaryCalls w ++ repeat contents (calls run) |} |}).

(** [result.response] checked, then [result.response.text()]. *)
Definition responseOf (date : JsString) (result : option GenResult)
    : Completion JsString :=
  match result with
  | None => Thrown typeError
  | Some r =>
      match response r with
      | None =>
          Thrown (newError (js "Не удалось сгенерировать суммаризацию за " ++ date))
      | Some resp => responseText resp
      end
  end.

(** [memories[date] = { text: summary, date: new Date().toLocaleString() }] *)
Definition storeMemory (env : Env) (date summary : JsString) : M SumState unit :=
  fun st =>
    let '(now, w) := newDate env (world st) in
    (Returned tt,
     {| mem := Obj.set (mem st) date
                 {| text := summary; mdate := toLocaleString env now |};
        world := w |}).

Local Open Scope m_scope.

(** The body of the loop over the day groups. *)
Definition summarizeDay (env : Env) (today : JsString)
    (group : JsString * list Turn) : M SumState unit :=
  let '(date, messages) := group in
  memories <- gets mem ;;
  if needsSummary memories date today then
    result <- callSummarizationModel env (summaryContents memories date messages) ;;
    summary <- lift (responseOf date result) ;;
    storeMemory env date (sanitizeHtml env summary)
  else ret tt.

Local Close Scope m_scope.

(** Which of its three console lines [generateSummary] printed. *)
Inductive SummaryLog :=
| LogEmptyHistory            (* 'История сообщений пуста.' *)
| LogSuccess                 (* 'Суммаризация успешно сгенерирована.' *)
| LogError (e : Error).      (* the [catch] *)

Definition setHistoryMemories (session : Session) (h : list Turn)
    (m : Obj.t Memory) : Session :=
  {| history := h;
     memories := m;
     messageCountSinceSummary := messageCountSinceSummary session;
     maxOutputTokens := maxOutputTokens session;
     temperature := temperature session;
     mainModel := mainModel session;
     backupModel := backupModel session;
     awaitingMessageDeletionCount := awaitingMessageDeletionCount session |}.

(** [generateSummary(session)].  It never throws: its [try] covers the
    whole body.  When the loop throws, [session.history] has not been
    assigned, and [session.memories] holds what the loop had written, as
    [memories] is that very object.  The write of the context file at the
    end of the [try] is not part of the model. *)
Definition generateSummary (env : Env) (session : Session) (w : World)
    : Session * SummaryLog * World :=
  let history := history session in
  match history with
  | [] => (session, LogEmptyHistory, w)
  | _ =>
      let groupedMessages := groupMessagesByDay history in
      let '(now, w1) := newDate env w in
      let today := toLocaleDateString_ruRU now in
      let memories := memories session in
      match forEach (summarizeDay env today) (Obj.entries groupedMessages)
              {| mem := memories; world := w1 |} with
      | (Returned _, st) =>
          (setHistoryMemories session
             match Obj.get groupedMessages today with
             | Some group => group
             | None => []
             end
             (mem st),
           LogSuccess, world st)
      | (Thrown error, st) =>
          (setHistoryMemories session history (mem st), LogError error, world st)
      end
  end.

Arguments responseOf : simpl never.
Arguments summaryContents : simpl never.

(* ================================================================== *)
(** * Handlers *)
(* ================================================================== *)

(** What a handler does towards the chat platform and the context file:
    the calls it makes, in order.  [ReplyNumber before number after] is a
    reply whose text is a template with a Number in it: [number] is
    written as JavaScript writes the Number nearest to it, which is its
    decimal digits up to 2^53 and a rounded or an exponent form beyond. *)
Inductive Out :=
| Answer (t : JsString)        (* [ctx.answerCallbackQuery({ text })] *)
| EditText (t : JsString)      (* [ctx.editMessageText(text)] *)
| Reply (t : JsString)         (* [ctx.reply(text)] *)
| ReplyNumber (before : JsString) (number : Z) (after : JsString)
                               (* [ctx.reply(`before${number}after`)] *)
| SendLong (t : JsString)      (* [sendLongMessage(ctx, text)] *)
| SaveContext.                 (* [saveContext(globalContext)] *)

(** ** Choice of the main and of the backup model *)

Definition msgSameModel : JsString :=
  js "Нельзя выбрать одинаковую модель как основную и резервную.".

Definition setMainModel (session : Session) (m : JsString) : Session :=
  {| history := history session;
     memories := memories session;
     messageCountSinceSummary := messageCountSinceSummary session;
     maxOutputTokens := maxOutputTokens session;
     temperature := temperature session;
     mainModel := m;
     backupModel := backupModel session;
     awaitingMessageDeletionCount := awaitingMessageDeletionCount session |}.

Definition setBackupModel (session : Session) (m : JsString) : Session :=
  {| history := history session;
     memories := memories session;
     messageCountSinceSummary := messageCountSinceSummary session;
     maxOutputTokens := maxOutputTokens session;
     temperature := temperature session;
     mainModel := mainModel session;
     backupModel := m;
     awaitingMessageDeletionCount := awaitingMessageDeletionCount session |}.

(** The body shared, up to the constant [newMainModel], by the three
    [set_main_model_*] callbacks. *)
Definition set_main_model (newMainModel : JsString) (session : Session)
    : Session * list Out :=
  let currentBackup := backupModel session in
  if str_eqb newMainModel currentBackup then
    (session, [Answer msgSameModel])
  else
    (setMainModel session newMainModel,
     [ SaveContext;
       Answer (js "Основная модель: " ++ newMainModel);
       EditText (js "Основная модель установлена: <b>" ++ newMainModel ++ js "</b>") ]).

(** The body shared, up to the constant [newBackupModel], by the three
    [set_backup_model_*] callbacks. *)
Definition set_backup_model (newBackupModel : JsString) (session : Session)
    : Session * list Out :=
  let currentMain := mainModel session in
  if str_eqb newBackupModel currentMain then
    (session, [Answer msgSameModel])
  else
    (setBackupModel session newBackupModel,
     [ SaveContext;
       Answer (js "Резервная модель: " ++ newBackupModel);
       EditText (js "Резервная модель установлена: <b>" ++ newBackupModel ++ js "</b>") ]).

Definition set_main_model_geminiexp := set_main_model (js "gemini-exp-1206").
Definition set_main_model_geminipro := set_main_model (js "gemini-1.5-pro-002").
Definition set_main_model_deepseek := set_main_model (js "deepseek-chat").
Definition set_backup_model_geminiexp := set_backup_model (js "gemini-exp-1206").
Definition set_backup_model_geminipro := set_backup_model (js "gemini-1.5-pro-002").
Definition set_backup_model_deepseek := set_backup_model (js "deepseek-chat").

(** The six callbacks by the button data that selects them. *)
Inductive ModelCallback :=
| SetMain (newMainModel : JsString)
| SetBackup (newBackupModel : JsString).

Definition modelCallbacks : list ModelCallback :=
  [ SetMain (js "gemini-exp-1206"); SetMain (js "gemini-1.5-pro-002");
    SetMain (js "deepseek-chat");
    SetBackup (js "gemini-exp-1206"); SetBackup (js "gemini-1.5-pro-002");
    SetBackup (js "deepseek-chat") ].

Definition runModelCallback (cb : ModelCallback) (session : Session)
    : Session * list Out :=
  match cb with
  | SetMain m => set_main_model m session
  | SetBackup m => set_backup_model m session
  end.

(** ** Deletion of the last messages *)

(** [array.splice(start)] with the delete count left out: everything from
    the start position on is removed; a negative [start] counts from the
    end and is clamped at the first element.  The result is the array as
    it is left. *)
Definition splice (A : Type) (l : list A) (start : Z) : list A :=
  let len := Z.of_nat (List.length l) in
  let actualStart :=
    if (start <? 0)%Z then Z.max (len + start) 0 else Z.min start len in
  firstn (Z.to_nat actualStart) l.

Definition setHistory (session : Session) (h : list Turn) : Session :=
  setHistoryMemories session h (memories session).

Definition setAwaiting (session : Session) (b : bool) : Session :=
  {| history := history session;
     memories := memories session;
     messageCountSinceSummary := messageCountSinceSummary session;
     maxOutputTokens := maxOutputTokens session;
     temperature := temperature session;
     mainModel := mainModel session;
     backupModel := backupModel session;
     awaitingMessageDeletionCount := b |}.

(** The [awaitingMessageDeletionCount] branch of the private
    [message:text] handler; [text] is [ctx.message.text].  [number] is the
    integer [parseInt] reads; the Number it returns is the nearest one,
    which has the same sign and, like it, exceeds the length of any array
    as soon as they differ, so that [number <= 0] and [splice(-number)]
    come out the same. *)
Definition deleteLastMessages (text : JsString) (session : Session)
    : Session * list Out :=
  let input := trim text in
  let number := parseInt10 input in
  let '(session1, out) :=
    match number with
    | None => (session, [Reply (js "Введи корректное положительное число.")])
    | Some n =>
        if (n <=? 0)%Z then
          (session, [Reply (js "Введи корректное положительное число.")])
        else
          match history session with
          | [] => (session, [Reply (js "У тебя нет истории сообщений.")])
          | _ =>
              (setHistory session (splice (history session) (- n)),
               [ SaveContext;
                 ReplyNumber (js "Я удалила последние ") n
                   (js " сообщений из истории.") ])
          end
    end in
  (setAwaiting session1 false, out).

(** ** From a model result to the two history turns *)

Definition backupBanner : JsString := js "<i>резервная модель:</i>" ++ nl ++ nl.

Definition apologyText : JsString :=
  js "Извини, но я не смогла сформулировать ответ.".
Definition apologyPhoto : JsString :=
  js "Извини, но я не смогла обработать это изображение.".
Definition apologyAudio : JsString :=
  js "Извини, но я не смогла обработать это аудиосообщение.".

(** [if (!botReply || botReply.trim() === '') botReply = apology] *)
Definition orApology (apology botReply : JsString) : JsString :=
  match botReply with
  | [] => apology
  | _ => if str_eqb (trim botReply) [] then apology else botReply
  end.

(** From the completion of the dispatch to the sanitized [botReply]: the
    [response] check, [text()], the banner of the backup model where the
    handler has one, the sanitizer.  Whatever is thrown on the way reaches
    the [catch] of the handler. *)
Definition sanitizedReplyOf (env : Env) (banner : bool)
    (dispatched : Completion (option GenResult)) : Completion JsString :=
  match dispatched with
  | Thrown e => Thrown e
  | Returned None => Thrown typeError
  | Returned (Some result) =>
      match response result with
      | None => Thrown (newError (js "Не удалось сгенерировать ответ"))
      | Some resp =>
          match responseText resp with
          | Thrown e => Thrown e
          | Returned t =>
              let botReply :=
                if banner && usedBackupModel result then backupBanner ++ t else t in
              Returned (sanitizeHtml env botReply)
          end
      end
  end.

(** The final [botReply]: the sanitized one, or the apology in its place. *)
Definition botReplyOf (env : Env) (banner : bool) (apology : JsString)
    (dispatched : Completion (option GenResult)) : Completion JsString :=
  match sanitizedReplyOf env banner dispatched with
  | Returned botReply => Returned (orApology apology botReply)
  | Thrown e => Thrown e
  end.

Definition assistantName : JsString := js "Гермиона".

(** The two [session.history.push] and the counter. *)
Definition appendTurns (session : Session) (userTurn botTurn : Turn) : Session :=
  {| history := push (push (history session) userTurn) botTurn;
     memories := memories session;
     messageCountSinceSummary := messageCountSinceSummary session + 2;
     maxOutputTokens := maxOutputTokens session;
     temperature := temperature session;
     mainModel := mainModel session;
     backupModel := backupModel session;
     awaitingMessageDeletionCount := awaitingMessageDeletionCount session |}.

Definition setCount (session : Session) (n : Z) : Session :=
  {| history := history session;
     memories := memories session;
     messageCountSinceSummary := n;
     maxOutputTokens := maxOutputTokens session;
     temperature := temperature session;
     mainModel := mainModel session;
     backupModel := backupModel session;
     awaitingMessageDeletionCount := awaitingMessageDeletionCount session |}.

(** [if (session.messageCountSinceSummary >= 30) { await
    generateSummary(session); session.messageCountSinceSummary = 0 }] *)
Definition maybeSummarize (env : Env) (session : Session) (w : World)
    : Session * World :=
  if (30 <=? messageCountSinceSummary session)%Z then
    let '(session', _, w') := generateSummary env session w in
    (setCount session' 0, w')
  else (session, w).

(** The message of the [catch] of a handler. *)
Definition errorMessage (dflt : JsString) (error : Error) : JsString :=
  if includes (js "PROHIBITED_CONTENT") (message error)
  then js "Извини, твой запрос содержит запрещённый контент."
  else if includes (js "недоступна") (message error)
  then js "Извини, сервис временно недоступен."
  else if includes (js "Слишком много запросов") (message error)
  then js "Извини, слишком много запросов. Попробуй позже."
  else dflt.

(** What a message handler appended: the two turns and the session as the
    two pushes leave it, before a consolidation may rewrite it. *)
Record Exchange := mkExchange {
  userTurn : Turn;
  botTurn : Turn;
  appended : Session
}.

(** The steps every message handler ends with once [botReply] is known:
    the two pushes (the assistant turn is dated by a fresh [new Date()]),
    the counter and the consolidation it may start, and the reply.
    [sendLongMessage] is awaited inside the [try] of the handler: when the
    platform rejects it, the [catch] replies with its error message
    ([dflt] is the default one of the handler), and the session stays as
    the steps before have left it. *)
Definition finish (env : Env) (session : Session)
    (userName userContent messageDate botReply dflt : JsString)
    (w : World)
    : option Exchange * Session * list Out * World :=
  let u := {| role := userName; content := userContent; date := messageDate |} in
  let '(now, w1) := newDate env w in
  let b := {| role := assistantName; content := botReply;
              date := toLocaleString env now |} in
  let s1 := appendTurns session u b in
  let '(s2, w2) := maybeSummarize env s1 w1 in
  (Some {| userTurn := u; botTurn := b; appended := s1 |}, s2,
   match sendLongMessageError env (ticks w2) botReply with
   | None => [SendLong botReply]
   | Some error => [SendLong botReply; Reply (errorMessage dflt error)]
   end,
   w2).

(** The private [message:text] handler outside the deletion branch.
    [userName] is [getUserName(ctx)], [userMessage] is [ctx.message.text],
    [sent] is [new Date(ctx.message.date * 1000)]. *)
Definition replyToText (env : Env) (userName userMessage : JsString)
    (sent : Date) (session : Session) (w : World)
    : option Exchange * Session * list Out * World :=
  let messageDate := toLocaleString env sent in
  let '(now, w0) := newDate env w in
  let contents :=
    buildContents now (history session) (memories session)
      userName userMessage messageDate in
  let run := generateResponseWithBackup env session contents in
  match botReplyOf env true apologyText (outcome run) with
  | Returned botReply =>
      finish env session userName userMessage messageDate botReply
        (js "Произошла ошибка. Попробуй чуть позже.") w0
  | Thrown error =>
      (None, session,
       [Reply (errorMessage (js "Произошла ошибка. Попробуй чуть позже.") error)],
       w0)
  end.

(** The private [message:text] handler. *)
Definition onMessageText (env : Env) (userName text : JsString) (sent : Date)
    (session : Session) (w : World)
    : option Exchange * Session * list Out * World :=
  if awaitingMessageDeletionCount session then
    let '(s, out) := deleteLastMessages text session in (None, s, out, w)
  else replyToText env userName text sent session w.

Definition quote : JsString := [34%N].

(** The [message:photo] handler from the choice of [prompt] on, that is
    once the image is uploaded as [fileUri]; before that the handler only
    returns or throws, without a write to the session. *)
Definition replyToPhoto (env : Env) (userName caption mimeType fileUri : JsString)
    (sent : Date) (session : Session) (w : World)
    : option Exchange * Session * list Out * World :=
  let userModel :=
    createGeminiModel env (js "gemini-1.5-pro-002")
      (orTokens (maxOutputTokens session)) (orTemperature (temperature session)) in
  let prompt :=
    match trim caption with
    | [] => js "Опиши содержимое этого изображения."
    | c => stripTags env c
    end in
  let messageDate := toLocaleString env sent in
  let '(now, w0) := newDate env w in
  let contents :=
    buildContents now (history session) (memories session)
      userName prompt messageDate in
  let contents := push contents (FileData mimeType fileUri) in
  let run := generateGeminiResponse userModel contents 0 in
  match botReplyOf env false apologyPhoto (completion run) with
  | Returned botReply =>
      let userContent :=
        match caption with
        | [] => js "Отправил(а) изображение"
        | _ => js "Отправил(а) изображение с комментарием: "
                ++ quote ++ caption ++ quote
        end in
      finish env session userName userContent messageDate botReply
        (js "Произошла ошибка. Попробуй позже.") w0
  | Thrown error =>
      (None, session,
       [Reply (errorMessage (js "Произошла ошибка. Попробуй позже.") error)], w0)
  end.

(** The [message:voice] / [message:audio] handler once the audio is
    uploaded as [fileUri]. *)
Definition replyToAudio (env : Env) (userName mimeType fileUri : JsString)
    (sent : Date) (session : Session) (w : World)
    : option Exchange * Session * list Out * World :=
  let userModel :=
    createGeminiModel env (js "gemini-1.5-pro-002")
      (orTokens (maxOutputTokens session)) (orTemperature (temperature session)) in
  let messageDate := toLocaleString env sent in
  let '(now, w0) := newDate env w in
  let contents :=
    buildContents now (history session) (memories session)
      userName (js "Отправил(а) аудиосообщение.") messageDate in
  let contents := push contents (FileData mimeType fileUri) in
  let run := generateGeminiResponse userModel contents 0 in
  match botReplyOf env false apologyAudio (completion run) with
  | Returned botReply =>
      finish env session userName (js "Отправил(а) аудиосообщение.")
        messageDate botReply
        (js "Произошла ошибка при обработке твоего аудио. Попробуй позже.") w0
  | Thrown error =>
      (None, session,
       [Reply (errorMessage
                 (js "Произошла ошибка при обработке твоего аудио. Попробуй позже.")
                 error)], w0)
  end.

(** The group [message] handler once the bot is known to be addressed in
    an allowed group; [userMessage] is the text with the mention of the bot
    taken out.  From there on its steps are those of the private text
    handler, with the same apology and the same default error message. *)
Definition replyToGroup (env : Env) (userName userMessage : JsString)
    (sent : Date) (session : Session) (w : World)
    : option Exchange * Session * list Out * World :=
  let messageDate := toLocaleString env sent in
  let '(now, w0) := newDate env w in
  let contents :=
    buildContents now (history session) (memories session)
      userName userMessage messageDate in
  let run := generateResponseWithBackup env session contents in
  match botReplyOf env true apologyText (outcome run) with
  | Returned botReply =>
      finish env session userName userMessage messageDate botReply
        (js "Произошла ошибка. Попробуй чуть позже.") w0
  | Thrown error =>
      (None, session,
       [Reply (errorMessage (js "Произошла ошибка. Попробуй чуть позже.") error)],
       w0)
  end.

(** The kinds of message that reach a model, with what the handler has in
    hand when it builds the contents. *)
Inductive Incoming :=
| TextMessage (text : JsString)
| PhotoMessage (caption mimeType fileUri : JsString)
| AudioMessage (mimeType fileUri : JsString)
| GroupMessage (userMessage : JsString).

(** The routing of [bot.on]: one handler per kind of message. *)
Definition handleMessage (env : Env) (userName : JsString) (msg : Incoming)
    (sent : Date) (session : Session) (w : World)
    : option Exchange * Session * list Out * World :=
  match msg with
  | TextMessage text => replyToText env userName text sent session w
  | PhotoMessage caption mimeType fileUri =>
      replyToPhoto env userName caption mimeType fileUri sent session w
  | AudioMessage mimeType fileUri =>
      replyToAudio env userName mimeType fileUri sent session w
  | GroupMessage userMessage =>
      replyToGroup env userName userMessage sent session w
  end.

(** The apology each handler falls back on. *)
Definition apologyOf (msg : Incoming) : JsString :=
  match msg with
  | TextMessage _ => apologyText
  | PhotoMessage _ _ _ => apologyPhoto
  | AudioMessage _ _ => apologyAudio
  | GroupMessage _ => apologyText
  end.

(** The banner of the backup model is written by the two handlers that
    dispatch with a fallback. *)
Definition hasBanner (msg : Incoming) : bool :=
  match msg with
  | TextMessage _ => true
  | GroupMessage _ => true
  | _ => false
  end.

(** The default error message of each handler. *)
Definition defaultOf (msg : Incoming) : JsString :=
  match msg with
  | TextMessage _ => js "Произошла ошибка. Попробуй чуть позже."
  | PhotoMessage _ _ _ => js "Произошла ошибка. Попробуй позже."
  | AudioMessage _ _ =>
      js "Произошла ошибка при обработке твоего аудио. Попробуй позже."
  | GroupMessage _ => js "Произошла ошибка. Попробуй чуть позже."
  end.

(** The [content] of the user turn each handler pushes. *)
Definition userContentOf (msg : Incoming) : JsString :=
  match msg with
  | TextMessage text => text
  | PhotoMessage caption _ _ =>
      match caption with
      | [] => js "Отправил(а) изображение"
      | _ => js "Отправил(а) изображение с комментарием: "
              ++ quote ++ caption ++ quote
      end
  | AudioMessage _ _ => js "Отправил(а) аудиосообщение."
  | GroupMessage userMessage => userMessage
  end.

(** The first half of each handler: the contents it composes and the
    completion of the dispatch it awaits, [result] or what is thrown in
    its place. *)
Definition dispatchOf (env : Env) (userName : JsString) (msg : Incoming)
    (sent : Date) (session : Session) (w : World)
    : Completion (option GenResult) :=
  let messageDate := toLocaleString env sent in
  let now := fst (newDate env w) in
  let compose prompt :=
    buildContents now (history session) (memories session)
      userName prompt messageDate in
  let userModel :=
    createGeminiModel env (js "gemini-1.5-pro-002")
      (orTokens (maxOutputTokens session)) (orTemperature (temperature session)) in
  match msg with
  | TextMessage userMessage =>
      outcome (generateResponseWithBackup env session (compose userMessage))
  | PhotoMessage caption mimeType fileUri =>
      let prompt :=
        match trim caption with
        | [] => js "Опиши содержимое этого изображения."
        | c => stripTags env c
        end in
      completion
        (generateGeminiResponse userModel
           (push (compose prompt) (FileData mimeType fileUri)) 0)
  | AudioMessage mimeType fileUri =>
      completion
        (generateGeminiResponse userModel
           (push (compose (js "Отправил(а) аудиосообщение."))
              (FileData mimeType fileUri)) 0)
  | GroupMessage userMessage =>
      outcome (generateResponseWithBackup env session (compose userMessage))
  end.

(** A string that is empty or made of white space only. *)
Definition isBlank (s : JsString) : bool := forallb isWhiteSpace s.

(* ================================================================== *)
(** * The other handlers and helpers *)
(* ================================================================== *)

(** ** Speaker label *)

(** [ctx.from]: the three names, each of which may be absent. *)
Record From := mkFrom {
  username : option JsString;
  first_name : option JsString;
  last_name : option JsString
}.

(** Truthiness of a string that may be absent: absent and empty are
    falsy. *)
Definition truthy (s : option JsString) : bool :=
  match s with
  | Some (_ :: _) => true
  | _ => false
  end.

(** The string of a truthy value (the empty string otherwise). *)
Definition strOf (s : option JsString) : JsString :=
  match s with
  | Some t => t
  | None => []
  end.

(** [getUserName(ctx)] *)
Definition getUserName (from : From) : JsString :=
  if truthy (username from) then js "@" ++ strOf (username from)
  else if truthy (first_name from) || truthy (last_name from) then
    join (js " ")
      (map strOf (filter truthy [first_name from; last_name from]))
  else js "Неизвестный пользователь".

(** ** Long messages *)

(** [s.replace(/\n{2,}/g, '\n')]: every run of two line feeds or more
    becomes one line feed. *)
Fixpoint collapseNewlines (s : JsString) : JsString :=
  match s with
  | [] => []
  | c :: rest =>
      match rest with
      | c' :: _ =>
          if (c =? 10)%N && (c' =? 10)%N then collapseNewlines rest
          else c :: collapseNewlines rest
      | [] => [c]
      end
  end.

(** Two line feeds in a row. *)
Definition twoFeeds : JsString := [10%N; 10%N].

(** [s.match(/.{1,n}/gs)]: the text cut from the left in pieces of [n]
    code units, the last one shorter when the length is no multiple of
    [n]; [fuel] bounds the number of pieces. *)
Fixpoint chunksFuel (fuel n : nat) (s : JsString) : list JsString :=
  match fuel with
  | O => []
  | S f =>
      match s with
      | [] => []
      | _ => firstn n s :: chunksFuel f n (skipn n s)
      end
  end.

Definition chunks (n : nat) (s : JsString) : list JsString :=
  chunksFuel (List.length s) n s.

Definition MAX_LENGTH : nat := 4000.

(** The text [sendLongMessage] works on: sanitized, runs of line feeds
    collapsed. *)
Definition longMessageText (env : Env) (text : JsString) : JsString :=
  collapseNewlines (sanitizeHtml env text).

(** [sendLongMessage(ctx, text, options)]: the replies it sends, in
    order, as long as the platform takes them. *)
Definition sendLongMessage (env : Env) (text : JsString) : list JsString :=
  let sanitizedText := longMessageText env text in
  if (List.length sanitizedText <=? MAX_LENGTH)%nat then [sanitizedText]
  else chunks MAX_LENGTH sanitizedText.

(** ** Deletion of today's messages, clearing *)

(** The [delete_today_messages] callback. *)
Definition delete_today_messages (env : Env) (session : Session) (w : World)
    : Session * list Out * World :=
  match history session with
  | [] => (session, [Answer (js "У тебя нет истории сообщений.")], w)
  | _ =>
      let '(now, w1) := newDate env w in
      let today := toLocaleDateString_ruRU now in
      (setHistory session
         (filter (fun msg => negb (str_eqb (dayOf msg) today)) (history session)),
       [ SaveContext;
         Answer (js "Сообщения за сегодня удалены.");
         SendLong (js "Я удалила все сообщения за сегодня.") ],
       w1)
  end.

(** The [confirm_clear_memories] callback. *)
Definition confirm_clear_memories (session : Session) : Session * list Out :=
  (setCount (setHistoryMemories session [] []) 0,
   [ SaveContext;
     Answer (js "Все воспоминания и история удалены.");
     SendLong (js "Я очистила все воспоминания и историю нашего общения. Мы можем начать заново!") ]).

(** The [delete_specific_number] callback. *)
Definition delete_specific_number (session : Session) : Session * list Out :=
  (setAwaiting session true,
   [ Answer [];
     EditText (js "Введи количество последних сообщений, которое ты хочешь удалить:") ]).

(** ** Memories shown to the user *)

(** The listing built by [about_user] and [refresh_memories] after its
    heading. *)
Definition memoriesListing (heading : JsString) (memories : Obj.t Memory)
    : JsString :=
  fold_left
    (fun memoriesText e =>
       memoriesText ++ js "<b>Воспоминания за " ++ fst e ++ js ":</b>" ++ nl
       ++ text (snd e) ++ nl)
    (Obj.entries memories) heading.

(** The [about_user] callback. *)
Definition about_user (session : Session) : list Out :=
  match memories session with
  | [] => [Answer (js "У меня нет воспоминаний о тебе.")]
  | _ =>
      [ Answer [];
        SendLong (memoriesListing (js "Вот что я помню о тебе:" ++ nl)
                    (memories session)) ]
  end.

(** The [refresh_memories] callback.  [generateSummary] never throws, so
    the inner [catch] of the callback is never entered. *)
Definition refresh_memories (env : Env) (session : Session) (w : World)
    : Session * SummaryLog * list Out * World :=
  match history session with
  | [] =>
      (session, LogEmptyHistory,
       [Answer (js "У тебя нет истории для обобщения.")], w)
  | _ =>
      let '(session', log, w') := generateSummary env session w in
      (session', log,
       [ Answer (js "Начинаю обновление воспоминаний...");
         Reply (js "Обновляю воспоминания. Это может занять некоторое время...");
         EditText (js "Твои воспоминания успешно обновлены.");
         match memories session' with
         | [] => Reply (js "К сожалению, не удалось сгенерировать воспоминания.")
         | _ =>
             SendLong (memoriesListing
                         (js "Вот твои обновленные воспоминания:" ++ nl)
                         (memories session'))
         end ],
       w')
  end.

(** ** Media types *)

(** The MIME type the [message:photo] handler gives to a file by its
    extension ([path.extname(...).toLowerCase()]). *)
Definition photoMimeType (fileExtension : JsString) : JsString :=
  if str_eqb fileExtension (js ".png") then js "image/png"
  else if str_eqb fileExtension (js ".webp") then js "image/webp"
  else if str_eqb fileExtension (js ".heic") then js "image/heic"
  else if str_eqb fileExtension (js ".heif") then js "image/heif"
  else js "image/jpeg".

Definition supportedImageTypes : list JsString :=
  [ js "image/jpeg"; js "image/png"; js "image/webp"; js "image/heic";
    js "image/heif" ].

Definition supportedAudioTypes : list JsString :=
  [ js "audio/ogg"; js "audio/mpeg"; js "audio/wav"; js "audio/mp3";
    js "audio/aac"; js "audio/flac" ].

(** [list.includes(x)] on strings. *)
Definition includesStr (l : list JsString) (x : JsString) : bool :=
  existsb (str_eqb x) l.

(** [ctx.message.voice] or [ctx.message.audio], with the [file_id] and,
    for an audio, the [mime_type] it may carry. *)
Inductive AudioIn :=
| Voice (file_id : JsString)
| Audio (file_id : JsString) (mime_type : option JsString).

(** What the voice/audio handler decides before any download: the file
    and its MIME type, or the reply that ends it. *)
Definition audioFile (a : AudioIn) : (JsString * JsString) + Out :=
  let '(fileId, mimeType) :=
    match a with
    | Voice file_id => (file_id, js "audio/ogg")
    | Audio file_id mime_type =>
        (file_id, if truthy mime_type then strOf mime_type else js "audio/mpeg")
    end in
  match fileId with
  | [] => inr (Reply (js "Не удалось получить аудиосообщение."))
  | _ =>
      if includesStr supportedAudioTypes mimeType then inl (fileId, mimeType)
      else inr (Reply (js "Извини, этот тип аудиофайла не поддерживается."))
  end.

(** ** Stored sessions *)

Definition setSettings (session : Session) (tokens : Z) (temp : Q)
    (main backup : JsString) : Session :=
  {| history := history session;
     memories := memories session;
     messageCountSinceSummary := messageCountSinceSummary session;
     maxOutputTokens := tokens;
     temperature := temp;
     mainModel := main;
     backupModel := backup;
     awaitingMessageDeletionCount := awaitingMessageDeletionCount session |}.

(** What [loadContext] does to one stored session; a field that is
    missing in the file reads as falsy, which is [0] for a number and the
    empty string for a name here.  The same four defaults are applied once
    more by [initializeContext]. *)
Definition loadDefaults (session : Session) : Session :=
  setSettings session
    (orTokens (maxOutputTokens session))
    (orTemperature (temperature session))
    (orStr (mainModel session) (js "gemini-exp-1206"))
    (orStr (backupModel session) (js "gemini-1.5-pro-002")).

(** ** The request of the DeepSeek adapter *)

(** The [userContent] that [createDeepseekModel(...).generateContent]
    sends: the texts of the parts, each followed by a line feed, trimmed;
    a part without text, or with an empty one, adds nothing. *)
Definition deepseekUserContent (contents : Contents) : JsString :=
  trim
    (fold_left
       (fun userContent item =>
          match item with
          | Text (c :: t) => userContent ++ (c :: t) ++ nl
          | _ => userContent
          end)
       contents []).

(* ================================================================== *)
(** * Sample data *)
(* ================================================================== *)

Definition jan2 : Date :=
  {| getFullYear := 2024; getMonth := 0; getDate := 2; getTime := 1704207845000 |}.
Definition jan3 : Date :=
  {| getFullYear := 2024; getMonth := 0; getDate := 3; getTime := 1704294245000 |}.

Definition jan2_evening : Date :=
  {| getFullYear := 2024; getMonth := 0; getDate := 2; getTime := 1704229200000 |}.

Definition turn (r c d : string) : Turn :=
  {| role := js r; content := js c; date := js d |}.

(** One exchange on 1 January and one on 2 January 2024, dated as the
    [ru-RU] formatter writes them. *)
Definition historyTwoDays : list Turn :=
  [ turn "@ann" "Привет" "01.01.2024, 10:00:00";
    turn "Гермиона" "Здравствуй" "01.01.2024, 10:00:05";
    turn "@ann" "Как дела?" "02.01.2024, 09:30:00";
    turn "Гермиона" "Хорошо" "02.01.2024, 09:30:04" ].

Definition memoriesOneDay : Obj.t Memory :=
  [ (js "31.12.2023", {| text := js "Говорили о книгах."; mdate := js "01.01.2024, 00:10:00" |}) ].

(** Errors of a provider: temporarily unavailable, rate limited, a
    malformed request, a blocked prompt. *)
Definition unavailable : Error :=
  {| status := Some 503%Z; blockReason := None; message := js "Service Unavailable" |}.
Definition rateLimited : Error :=
  {| status := Some 429%Z; blockReason := None; message := js "Too Many Requests" |}.
Definition badRequest : Error :=
  {| status := Some 400%Z; blockReason := None; message := js "Bad Request" |}.
Definition blocked : Error :=
  {| status := None; blockReason := Some (js "PROHIBITED_CONTENT"); message := js "blocked" |}.

(** A result whose [response.text()] is [t]. *)
Definition answer (t : string) : GenResult :=
  {| response := Some {| responseText := Returned (js t) |};
     usedBackupModel := false |}.

(** Unavailable on its first call, rate limited on its second, then it
    answers. *)
Definition flakyModel : Model :=
  fun served _ =>
    match served with
    | 0 => Thrown unavailable
    | 1 => Thrown rateLimited
    | _ => Returned (answer "Hello")
    end.

Definition rejectingModel : Model := fun _ _ => Thrown badRequest.

Definition downModel : Model := fun _ _ => Thrown unavailable.

Definition limitedModel : Model := fun _ _ => Thrown rateLimited.

Definition steadyModel (t : string) : Model := fun _ _ => Returned (answer t).

(** The host of the examples: a clock that stays on 2 January 2024, the
    [ru-RU] formatter as the locale of the host (the time of day left
    out), sanitizers that leave plain text as it is, a platform that
    takes every reply. *)
Definition formatRu (d : Date) : JsString :=
  toLocaleDateString_ruRU d ++ js ", 12:00:00".

Definition envWith (gemini : JsString -> Model) (summarizer : Model) : Env :=
  {| clock := fun _ => jan2;
     toLocaleString := formatRu;
     sanitizeHtml := fun s => s;
     stripTags := fun s => s;
     createGeminiModel := fun name _ _ => gemini name;
     createDeepseekModel := fun _ _ => steadyModel "From deepseek";
     summarizationModel := summarizer;
     sendLongMessageError := fun _ _ => None |}.

(** [gemini-exp-1206] rejects every request; the other Gemini model
    answers. *)
Definition envBackupAnswers : Env :=
  envWith (fun name =>
             if str_eqb name (js "gemini-exp-1206") then rejectingModel
             else steadyModel "From backup")
          (steadyModel "Summary").

(** [gemini-exp-1206] rejects every request; the other Gemini model is
    rate limited. *)
Definition envBothFail : Env :=
  envWith (fun name =>
             if str_eqb name (js "gemini-exp-1206") then rejectingModel
             else limitedModel)
          (steadyModel "Summary").

(** A session with the two-day history, waiting for a deletion count. *)
Definition sessionTwoDays : Session :=
  setHistoryMemories newSession historyTwoDays memoriesOneDay.

Definition awaitingSession : Session := setAwaiting sessionTwoDays true.


(** Every model answers; the summarization model always writes the same
    summary. *)
Definition envSteady : Env :=
  envWith (fun _ => steadyModel "Hi") (steadyModel "Summary").

(** The summarization model rejects its first call and answers the next
    ones. *)
Definition envFirstFails : Env :=
  envWith (fun _ => steadyModel "Hi")
          (fun served _ =>
             match served with
             | 0 => Thrown badRequest
             | _ => Returned (answer "Summary")
             end).

(** The summarization model words its first summary differently from the
    next ones. *)
Definition envRewording : Env :=
  envWith (fun _ => steadyModel "Hi")
          (fun served _ =>
             match served with
             | 0 => Returned (answer "Ann asked how things are.")
             | _ => Returned (answer "A short chat with Ann.")
             end).

(** The two-day history without any memory yet. *)
Definition sessionNoMemories : Session :=
  setHistoryMemories newSession historyTwoDays [].

(** Only the exchange of 2 January, without any memory yet. *)
Definition sessionTodayOnly : Session :=
  setHistoryMemories newSession (skipn 2 historyTwoDays) [].

(** The session and the world a first consolidation of the two-day history
    leaves in that host. *)
Definition afterFirstRun : Session :=
  fst (fst (generateSummary envRewording sessionNoMemories world0)).

Definition worldAfterFirstRun : World :=
  snd (generateSummary envRewording sessionNoMemories world0).

(** The exchange of 1 January with its memory written already. *)
Definition sessionSummarized : Session :=
  setHistoryMemories newSession (firstn 2 historyTwoDays)
    [ (js "01.01.2024",
       {| text := js "Ann said hello."; mdate := js "02.01.2024, 00:05:00" |}) ].

(** The platform rejects every reply it is sent by [sendLongMessage]. *)
Definition parseError : Error :=
  newError (js "Call to 'sendMessage' failed! (400: Bad Request: can't parse entities)").

Definition envSendFails : Env :=
  withPlatform envSteady (fun _ _ => Some parseError).

Example js_cyrillic : js "Гермиона:" = [1043; 1077; 1088; 1084; 1080; 1086; 1085; 1072; 58]%N.
Proof. reflexivity. Qed.

Example split_date : split 44 (js "02.01.2024, 15:04:05") = [js "02.01.2024"; js " 15:04:05"].
Proof. reflexivity. Qed.

Example split_no_sep : split 44 (js "2024/1/2 15:04") = [js "2024/1/2 15:04"].
Proof. reflexivity. Qed.

Example parseInt_examples :
  parseInt10 (js "3") = Some 3%Z /\ parseInt10 (js "12abc") = Some 12%Z /\
  parseInt10 (js "-4") = Some (-4)%Z /\ parseInt10 (js "abc") = None /\
  parseInt10 (js "") = None.
Proof. repeat split; reflexivity. Qed.

Example Number_examples :
  Number (js "02") = Some 2%Z /\ Number (js " 2024") = Some 2024%Z /\
  Number (js "") = Some 0%Z /\ Number (js "1/2/2024") = None.
Proof. repeat split; reflexivity. Qed.

Example digits_examples :
  digits 2024 = js "2024" /\ digits 0 = js "0" /\ pad2 7 = js "07" /\ pad2 31 = js "31".
Proof. repeat split; reflexivity. Qed.

Example ruRU_jan2 : toLocaleDateString_ruRU jan2 = js "02.01.2024".
Proof. reflexivity. Qed.

Example today_jan2 :
  isMessageFromToday jan2 (js "02.01.2024, 15:04:05") = true /\
  isMessageFromToday jan3 (js "02.01.2024, 15:04:05") = false /\
  isMessageFromToday jan2 (js "1/2/2024, 3:04:05 PM") = false.
Proof. repeat split; reflexivity. Qed.

Example buildContents_hello :
  buildContents jan2 [] [] (js "@ann") (js "Hello") (js "02.01.2024, 15:04:05")
  = [Text (js "@ann(02.01.2024, 15:04:05): Hello" ++ nl); Text (js "Гермиона:")].
Proof. reflexivity. Qed.

(** The walk through of the specification: "Hello" on a new session gives
    two fragments, then a history of two turns and a counter of two. *)
Example hello_end_to_end :
  let '(_, session', out, _) :=
    handleMessage envSteady (js "@ann") (TextMessage (js "Hello")) jan2
      newSession world0 in
  history session'
  = [ turn "@ann" "Hello" "02.01.2024, 12:00:00";
      turn "Гермиона" "Hi" "02.01.2024, 12:00:00" ]
  /\ messageCountSinceSummary session' = 2%Z
  /\ out = [SendLong (js "Hi")].
Proof. vm_compute. repeat split; reflexivity. Qed.

Example backup_banner :
  let '(_, _, out, _) :=
    handleMessage envBackupAnswers (js "@ann") (TextMessage (js "Hello")) jan2
      newSession world0 in
  out = [SendLong (backupBanner ++ js "From backup")].
Proof. vm_compute. reflexivity. Qed.

Example both_fail_reply :
  let '(ex, session', out, _) :=
    handleMessage envBothFail (js "@ann") (TextMessage (js "Hello")) jan2
      newSession world0 in
  ex = None /\ session' = newSession
  /\ out = [Reply (js "Произошла ошибка. Попробуй чуть позже.")].
Proof. vm_compute. repeat split; reflexivity. Qed.

Example group_two_days :
  groupMessagesByDay historyTwoDays
  = [ (js "01.01.2024", firstn 2 historyTwoDays);
      (js "02.01.2024", skipn 2 historyTwoDays) ].
Proof. vm_compute. reflexivity. Qed.

Example summary_two_days :
  let '(session', log, w') := generateSummary envSteady sessionTwoDays world0 in
  log = LogSuccess
  /\ history session' = skipn 2 historyTwoDays
  /\ Obj.keys (memories session')
     = [js "31.12.2023"; js "01.01.2024"; js "02.01.2024"]
  /\ List.length (summaryCalls w') = 2.
Proof. vm_compute. repeat split; reflexivity. Qed.

Example trim_examples :
  trim (js "  a b ") = js "a b" /\ trim (js "   ") = [] /\ trim [160%N; 10%N] = [].
Proof. repeat split; reflexivity. Qed.
(* ================================================================== *)
(** * Properties of the context composer *)
(* ================================================================== *)

Section Composer.

Lemma fold_push (A B : Type) (f : A -> B) (l : list A) (acc : list B) :
  fold_left (fun acc x => push acc (f x)) l acc = acc ++ map f l.
Proof.
  revert acc; induction l as [|x l IH]; intro acc; simpl.
  - now rewrite app_nil_r.
  - rewrite IH. unfold push. now rewrite <- app_assoc.
Qed.

Lemma sliceLast_length (A : Type) (n : nat) (l : list A) :
  List.length (sliceLast n l) = Nat.min n (List.length l).
Proof. unfold sliceLast. rewrite length_skipn. lia. Qed.

(** [slice(-n)] keeps a suffix: what it drops comes first. *)
Lemma sliceLast_suffix (A : Type) (n : nat) (l : list A) :
  l = firstn (List.length l - n) l ++ sliceLast n l.
Proof. unfold sliceLast. now rewrite firstn_skipn. Qed.

Lemma sliceLast_all (A : Type) (n : nat) (l : list A) :
  List.length l <= n -> sliceLast n l = l.
Proof.
  intro H. unfold sliceLast.
  replace (List.length l - n) with 0 by lia. reflexivity.
Qed.

(** The composer as one concatenation. *)
Lemma buildContents_eq now history memories userName userMessage messageDate :
  buildContents now history memories userName userMessage messageDate
  = map memoryPart (Obj.entries memories)
    ++ map turnPart
         (sliceLast 20
            (filter (fun msg => isMessageFromToday now (date msg)) history))
    ++ [newTurnPart userName messageDate userMessage; cuePart].
Proof.
  unfold buildContents. rewrite !fold_push. unfold push. simpl.
  now rewrite <- !app_assoc.
Qed.

(** [isMessageFromToday] reads three fields of the clock only. *)
Lemma isMessageFromToday_fields now1 now2 s :
  getDate now1 = getDate now2 ->
  getMonth now1 = getMonth now2 ->
  getFullYear now1 = getFullYear now2 ->
  isMessageFromToday now1 s = isMessageFromToday now2 s.
Proof.
  intros Hd Hm Hy. unfold isMessageFromToday. now rewrite Hd, Hm, Hy.
Qed.

End Composer.

(** C4. For every history, memories, speaker label, new text and timestamp,
    the fragments of [buildContents] are: one per memory entry in the order
    of the mapping, then the turns kept from today's history, then the new
    turn, then the cue "Гермиона:".  The turns kept are a suffix of today's
    turns (in their order) of length min(20, number of today's turns), and
    the whole sequence has |memories| + min(20, |today's turns|) + 2
    fragments. *)
Theorem buildContents_fragments :
  forall now history memories userName userMessage messageDate,
    let todays := filter (fun msg => isMessageFromToday now (date msg)) history in
    exists dropped kept,
      todays = dropped ++ kept
      /\ List.length kept = Nat.min 20 (List.length todays)
      /\ buildContents now history memories userName userMessage messageDate
         = map memoryPart (Obj.entries memories)
           ++ map turnPart kept
           ++ [newTurnPart userName messageDate userMessage; cuePart]
      /\ List.length
           (buildContents now history memories userName userMessage messageDate)
         = List.length (Obj.entries memories)
           + Nat.min 20 (List.length todays) + 2.
Proof.
  intros now history memories userName userMessage messageDate todays.
  exists (firstn (List.length todays - 20) todays), (sliceLast 20 todays).
  split; [apply sliceLast_suffix|].
  split; [apply sliceLast_length|].
  split; [apply buildContents_eq|].
  rewrite buildContents_eq, !length_app, !length_map, sliceLast_length.
  simpl. fold todays. lia.
Qed.

(** C5, as the code has it. The fragments depend on the five arguments and
    on the calendar day of the clock, and on nothing else: two invocations
    with the same arguments on clock readings that agree on day, month and
    year yield the same sequence. *)
Theorem buildContents_same_day :
  forall now1 now2 history memories userName userMessage messageDate,
    getDate now1 = getDate now2 ->
    getMonth now1 = getMonth now2 ->
    getFullYear now1 = getFullYear now2 ->
    buildContents now1 history memories userName userMessage messageDate
    = buildContents now2 history memories userName userMessage messageDate.
Proof.
  intros now1 now2 history memories userName userMessage messageDate Hd Hm Hy.
  rewrite !buildContents_eq. do 4 f_equal.
  apply filter_ext. intro msg. now apply isMessageFromToday_fields.
Qed.

(** Two readings of the clock on 2 January 2024, hours apart. *)
Lemma buildContents_same_day_witness :
  buildContents jan2 historyTwoDays memoriesOneDay (js "@ann") (js "Hello")
    (js "02.01.2024, 15:04:05")
  = buildContents jan2_evening historyTwoDays memoriesOneDay (js "@ann")
      (js "Hello") (js "02.01.2024, 15:04:05").
Proof.
  apply (buildContents_same_day jan2 jan2_evening); reflexivity.
Defined.

(** C5, as the claim states it, fails: the same five arguments give two
    different sequences on 2 and on 3 January 2024. *)
Lemma buildContents_depends_on_clock :
  buildContents jan2 historyTwoDays memoriesOneDay (js "@ann") (js "Hello")
    (js "02.01.2024, 15:04:05")
  <> buildContents jan3 historyTwoDays memoriesOneDay (js "@ann") (js "Hello")
       (js "02.01.2024, 15:04:05").
Proof. vm_compute. discriminate. Qed.

(* ================================================================== *)
(** * Properties of the dispatch engine *)
(* ================================================================== *)

Section Retry.

Variable model : Model.
Variable contents : Contents.

Lemma isTransient_status (e : Error) :
  status e = Some 503%Z \/ status e = Some 429%Z -> isTransient e = true.
Proof. unfold isTransient. intros [-> | ->]; reflexivity. Qed.

Lemma not_transient_status (e : Error) :
  status e <> Some 503%Z -> status e <> Some 429%Z -> isTransient e = false.
Proof.
  unfold isTransient. intros H1 H2. destruct (status e) as [s|]; [|reflexivity].
  destruct (Z.eqb_spec s 503); [subst; congruence|].
  destruct (Z.eqb_spec s 429); [subst; congruence|]. reflexivity.
Qed.

(** One turn of the loop on a successful call. *)
Lemma retryLoop_success retries remaining attempt delay served r :
  model served contents = Returned r ->
  retryLoop model contents retries (S remaining) attempt delay served
  = {| completion := Returned (Some r); calls := 1; waits := [] |}.
Proof. intro H. simpl. now rewrite H. Qed.

(** One turn of the loop on a transient error with attempts left. *)
Lemma retryLoop_transient retries remaining attempt delay served e :
  model served contents = Thrown e ->
  isTransient e = true ->
  attempt < retries ->
  retryLoop model contents retries (S remaining) attempt delay served
  = let rest := retryLoop model contents retries remaining (S attempt)
                  (delay + 1000) (S served) in
    {| completion := completion rest; calls := S (calls rest);
       waits := delay :: waits rest |}.
Proof.
  intros H Ht Hlt. simpl. rewrite H, Ht.
  destruct (Nat.ltb_spec attempt retries); [reflexivity | lia].
Qed.

(** One turn of the loop on an error that is not retried. *)
Lemma retryLoop_fatal retries remaining attempt delay served e :
  model served contents = Thrown e ->
  isTransient e = false ->
  retryLoop model contents retries (S remaining) attempt delay served
  = {| completion := Thrown e; calls := 1; waits := [] |}.
Proof. intros H Ht. simpl. now rewrite H, Ht. Qed.

(** The last attempt of the budget is not retried either. *)
Lemma retryLoop_last retries remaining delay served e :
  model served contents = Thrown e ->
  retryLoop model contents retries (S remaining) retries delay served
  = {| completion := Thrown e; calls := 1; waits := [] |}.
Proof.
  intro H. simpl. rewrite H, Nat.ltb_irrefl, andb_false_r. reflexivity.
Qed.

(** With a budget of at least one attempt the function never falls off
    its loop. *)
Lemma retryLoop_defined retries :
  forall remaining attempt delay served,
    attempt + remaining = retries ->
    completion (retryLoop model contents retries (S remaining) attempt delay served)
    <> Returned None.
Proof.
  induction remaining as [|k IH]; intros attempt delay served Hinv; simpl.
  - destruct (model served contents) as [r|e]; simpl; [discriminate|].
    replace attempt with retries by lia.
    rewrite Nat.ltb_irrefl, andb_false_r. simpl. discriminate.
  - destruct (model served contents) as [r|e]; simpl; [discriminate|].
    destruct (isTransient e && (attempt <? retries)) eqn:E; simpl;
      [|discriminate].
    apply (IH (S attempt) (delay + 1000)%Z (S served)). lia.
Qed.

(** When every call fails, the loop throws what one of its calls threw. *)
Lemma retryLoop_all_fail retries :
  (forall n, exists e, model n contents = Thrown e) ->
  forall remaining attempt delay served,
    attempt + remaining = retries ->
    exists k raw,
      served <= k < served + S remaining
      /\ model k contents = Thrown raw
      /\ completion
           (retryLoop model contents retries (S remaining) attempt delay served)
         = Thrown raw.
Proof.
  intro Hfail.
  induction remaining as [|m IH]; intros attempt delay served Hinv.
  - destruct (Hfail served) as [e He].
    exists served, e. split; [lia|]. split; [assumption|].
    replace attempt with retries by lia.
    now rewrite retryLoop_last with (e := e).
  - destruct (Hfail served) as [e He].
    destruct (isTransient e) eqn:Ht.
    + rewrite retryLoop_transient with (e := e) by first [assumption | lia]. simpl.
      destruct (IH (S attempt) (delay + 1000)%Z (S served)) as (k & raw & Hk & Hm & Hc);
        [lia|].
      exists k, raw. split; [lia|]. split; assumption.
    + exists served, e. split; [lia|]. split; [assumption|].
      now rewrite retryLoop_fatal with (e := e).
Qed.

End Retry.

(** C3. With a budget of three attempts, a call whose first two attempts
    fail with status 503 or 429 and whose third attempt succeeds returns
    the value of the third attempt, after three calls and the waits
    [initialDelay] and [initialDelay + 1000].  Whatever the budget and the
    attempt reached, an attempt that fails with another error ends the
    function with that error at once: that call is its last. *)
Theorem retry_policy :
  forall (model : Model) (contents : Contents),
    (forall initialDelay served e1 e2 r,
        model served contents = Thrown e1 ->
        status e1 = Some 503%Z \/ status e1 = Some 429%Z ->
        model (S served) contents = Thrown e2 ->
        status e2 = Some 503%Z \/ status e2 = Some 429%Z ->
        model (S (S served)) contents = Returned r ->
        generateResponseWithRetry model contents 3 initialDelay served
        = {| completion := Returned (Some r);
             calls := 3;
             waits := [initialDelay; (initialDelay + 1000)%Z] |})
    /\
    (forall retries remaining attempt delay served e,
        model served contents = Thrown e ->
        status e <> Some 503%Z ->
        status e <> Some 429%Z ->
        retryLoop model contents retries (S remaining) attempt delay served
        = {| completion := Thrown e; calls := 1; waits := [] |})
    /\
    (forall retries initialDelay served e,
        model served contents = Thrown e ->
        status e <> Some 503%Z ->
        status e <> Some 429%Z ->
        0 < retries ->
        generateResponseWithRetry model contents retries initialDelay served
        = {| completion := Thrown e; calls := 1; waits := [] |}).
Proof.
  intros model contents. split; [|split].
  - intros initialDelay served e1 e2 r H1 T1 H2 T2 H3.
    unfold generateResponseWithRetry.
    rewrite retryLoop_transient with (e := e1)
      by first [assumption | now apply isTransient_status | lia].
    rewrite retryLoop_transient with (e := e2)
      by first [assumption | now apply isTransient_status | lia].
    rewrite retryLoop_success with (r := r) by assumption. reflexivity.
  - intros retries remaining attempt delay served e H N1 N2.
    apply retryLoop_fatal; [assumption | now apply not_transient_status].
  - intros retries initialDelay served e H N1 N2 Hpos.
    unfold generateResponseWithRetry.
    destruct retries as [|k]; [lia|].
    apply retryLoop_fatal; [assumption | now apply not_transient_status].
Qed.

(** A provider that is unavailable, then rate limited, then answers; and
    one that rejects the request. *)
Lemma retry_policy_witness :
  generateResponseWithRetry flakyModel [Text (js "Hi")] 3 1000 0
  = {| completion := Returned (Some (answer "Hello")); calls := 3;
       waits := [1000; 2000]%Z |}
  /\ generateResponseWithRetry rejectingModel [Text (js "Hi")] 3 1000 0
     = {| completion := Thrown badRequest; calls := 1; waits := [] |}
  /\ retryLoop rejectingModel [Text (js "Hi")] 3 2 2 2000 1
     = {| completion := Thrown badRequest; calls := 1; waits := [] |}.
Proof.
  destruct (retry_policy flakyModel [Text (js "Hi")]) as (Ha & _ & _).
  destruct (retry_policy rejectingModel [Text (js "Hi")]) as (_ & Hb & Hc).
  split; [|split].
  - apply (Ha 1000%Z 0 unavailable rateLimited (answer "Hello"));
      first [reflexivity | now left | now right].
  - apply (Hc 3 1000%Z 0 badRequest); first [reflexivity | discriminate | lia].
  - apply (Hb 3 1 2 2000%Z 1 badRequest); first [reflexivity | discriminate].
Defined.

Section Fallback.

Variable contents : Contents.

(** [generateGeminiResponse] on a model object whose first call answers. *)
Lemma generateGeminiResponse_first (model : Model) served r :
  model served contents = Returned r ->
  generateGeminiResponse model contents served
  = {| completion := Returned (Some r); calls := 1; waits := [] |}.
Proof.
  intro H. unfold generateGeminiResponse, generateResponseWithRetry.
  rewrite retryLoop_success with (r := r) by assumption. reflexivity.
Qed.

(** [generateGeminiResponse] on a model object whose calls all fail: it
    throws the error of one of its three calls as its [catch] rewrites
    it. *)
Lemma generateGeminiResponse_all_fail (model : Model) served :
  (forall n, exists e, model n contents = Thrown e) ->
  exists k raw,
    served <= k < served + 3
    /\ model k contents = Thrown raw
    /\ completion (generateGeminiResponse model contents served)
       = Thrown (rethrow raw).
Proof.
  intro Hfail.
  destruct (@retryLoop_all_fail model contents 3 Hfail 2 1 1000%Z served eq_refl)
    as (k & raw & Hk & Hm & Hc).
  exists k, raw. split; [lia|]. split; [assumption|].
  unfold generateGeminiResponse, generateResponseWithRetry.
  now rewrite Hc.
Qed.

(** The [catch] of [generateGeminiResponse] leaves alone an error that is
    neither 503, nor 429, nor a prohibited-content block. *)
Lemma rethrow_other (e : Error) :
  status e <> Some 503%Z -> status e <> Some 429%Z ->
  blockReason e <> Some (js "PROHIBITED_CONTENT") ->
  rethrow e = e.
Proof.
  intros H1 H2 H3. unfold rethrow.
  destruct (status e) as [s|].
  - destruct (Z.eqb_spec s 503); [subst; congruence|].
    destruct (Z.eqb_spec s 429); [subst; congruence|].
    destruct (blockReason e) as [b|]; [|reflexivity].
    unfold str_eqb. destruct (str_eq_dec b (js "PROHIBITED_CONTENT"));
      [subst; congruence | reflexivity].
  - destruct (blockReason e) as [b|]; [|reflexivity].
    unfold str_eqb. destruct (str_eq_dec b (js "PROHIBITED_CONTENT"));
      [subst; congruence | reflexivity].
Qed.

End Fallback.

(** C2. For every contents, when every call to the main model fails:
    if the backup model answers, [generateResponseWithBackup] returns the
    answer of the backup with [usedBackupModel] set; if every call to the
    backup fails too, it throws the error of the main model, namely what
    [generateGeminiResponse] throws for the main model (the error of one of
    its three calls, passed through the [catch] of that function), whatever
    the backup threw. *)
Theorem backup_dispatch :
  forall (env : Env) (session : Session) (contents : Contents),
    (forall n, exists e, mainOf env session n contents = Thrown e) ->
    (forall r,
        backupOf env session 0 contents = Returned r ->
        outcome (generateResponseWithBackup env session contents)
        = Returned (Some {| response := response r; usedBackupModel := true |}))
    /\
    ((forall n, exists e, backupOf env session n contents = Thrown e) ->
     exists k raw,
       k < 3
       /\ mainOf env session k contents = Thrown raw
       /\ completion (generateGeminiResponse (mainOf env session) contents 0)
          = Thrown (rethrow raw)
       /\ outcome (generateResponseWithBackup env session contents)
          = Thrown (rethrow raw)).
Proof.
  intros env session contents Hmain.
  destruct (@generateGeminiResponse_all_fail contents _ 0 Hmain) as (k & raw & Hk & Hm & Hc).
  split.
  - intros r Hb. unfold generateResponseWithBackup.
    fold (mainOf env session). fold (backupOf env session).
    rewrite Hc. simpl.
    rewrite generateGeminiResponse_first with (r := r) by assumption.
    reflexivity.
  - intro Hbackup.
    destruct (@generateGeminiResponse_all_fail contents _ 0 Hbackup) as (k' & raw' & _ & _ & Hc').
    exists k, raw. split; [lia|]. split; [assumption|]. split; [assumption|].
    unfold generateResponseWithBackup.
    fold (mainOf env session). fold (backupOf env session).
    rewrite Hc. simpl. now rewrite Hc'.
Qed.

(** The main model rejects every request; the backup answers in the first
    session and is rate limited in the second. *)
Lemma backup_dispatch_witness :
  outcome (generateResponseWithBackup envBackupAnswers newSession [Text (js "Hi")])
  = Returned (Some {| response := response (answer "From backup");
                      usedBackupModel := true |})
  /\ outcome (generateResponseWithBackup envBothFail newSession [Text (js "Hi")])
     = Thrown badRequest.
Proof.
  split.
  - apply (backup_dispatch envBackupAnswers newSession [Text (js "Hi")]).
    + intro n. exists badRequest. reflexivity.
    + reflexivity.
  - destruct (backup_dispatch envBothFail newSession [Text (js "Hi")])
      as (_ & H).
    + intro n. exists badRequest. reflexivity.
    + destruct H as (k & raw & Hk & Hraw & _ & Hout).
      * intro n. exists rateLimited. reflexivity.
      * rewrite Hout. vm_compute in Hraw. injection Hraw as <-. reflexivity.
Defined.

(** The interactive path: [generateGeminiResponse] gives the third answer
    after two transient failures, and stops at the first call on any other
    error, which it rethrows through its [catch]. *)
Lemma generateGeminiResponse_policy (model : Model) (contents : Contents) :
  (forall served e1 e2 r,
      model served contents = Thrown e1 ->
      status e1 = Some 503%Z \/ status e1 = Some 429%Z ->
      model (S served) contents = Thrown e2 ->
      status e2 = Some 503%Z \/ status e2 = Some 429%Z ->
      model (S (S served)) contents = Returned r ->
      generateGeminiResponse model contents served
      = {| completion := Returned (Some r); calls := 3;
           waits := [1000; 2000]%Z |})
  /\
  (forall served e,
      model served contents = Thrown e ->
      status e <> Some 503%Z ->
      status e <> Some 429%Z ->
      generateGeminiResponse model contents served
      = {| completion := Thrown (rethrow e); calls := 1; waits := [] |}).
Proof.
  split.
  - intros served e1 e2 r H1 T1 H2 T2 H3.
    unfold generateGeminiResponse, generateResponseWithRetry.
    rewrite retryLoop_transient with (e := e1)
      by first [assumption | now apply isTransient_status | lia].
    rewrite retryLoop_transient with (e := e2)
      by first [assumption | now apply isTransient_status | lia].
    rewrite retryLoop_success with (r := r) by assumption. reflexivity.
  - intros served e H N1 N2.
    unfold generateGeminiResponse, generateResponseWithRetry.
    rewrite retryLoop_fatal with (e := e)
      by first [assumption | now apply not_transient_status].
    reflexivity.
Qed.

(** A budget that runs out on transient errors ends with the last one. *)
Example retries_exhausted :
  generateResponseWithRetry downModel [Text (js "Hi")] 3 1000 0
  = {| completion := Thrown unavailable; calls := 3; waits := [1000; 2000]%Z |}
  /\ completion (generateGeminiResponse downModel [Text (js "Hi")] 0)
     = Thrown (newError msgUnavailable).
Proof. split; reflexivity. Qed.

(* ================================================================== *)
(** * Properties of the handlers *)
(* ================================================================== *)

(** C8. For every session, a model callback that would make the main model
    equal to the current backup model, or the backup model equal to the
    current main model, only answers with the refusal: the session it
    leaves is the session it found, so [mainModel] and [backupModel] hold
    the values they held. *)
Theorem same_model_rejected :
  forall (cb : ModelCallback) (session : Session),
    match cb with
    | SetMain newMainModel => newMainModel = backupModel session
    | SetBackup newBackupModel => newBackupModel = mainModel session
    end ->
    runModelCallback cb session = (session, [Answer msgSameModel])
    /\ mainModel (fst (runModelCallback cb session)) = mainModel session
    /\ backupModel (fst (runModelCallback cb session)) = backupModel session.
Proof.
  intros [m | m] session H; simpl in *; subst m.
  - unfold set_main_model, str_eqb.
    destruct (str_eq_dec (backupModel session) (backupModel session));
      [now repeat split | congruence].
  - unfold set_backup_model, str_eqb.
    destruct (str_eq_dec (mainModel session) (mainModel session));
      [now repeat split | congruence].
Qed.

(** On a new session the backup model is gemini-1.5-pro-002: choosing it
    as the main model is refused. *)
Lemma same_model_rejected_witness :
  set_main_model_geminipro newSession = (newSession, [Answer msgSameModel])
  /\ set_backup_model_geminiexp newSession = (newSession, [Answer msgSameModel]).
Proof.
  split.
  - apply (same_model_rejected (SetMain (js "gemini-1.5-pro-002")) newSession).
    reflexivity.
  - apply (same_model_rejected (SetBackup (js "gemini-exp-1206")) newSession).
    reflexivity.
Defined.

(** A choice that differs from the other model is stored. *)
Lemma other_model_accepted (cb : ModelCallback) (session : Session) :
  match cb with
  | SetMain m => m <> backupModel session
  | SetBackup m => m <> mainModel session
  end ->
  match cb with
  | SetMain m =>
      mainModel (fst (runModelCallback cb session)) = m
      /\ backupModel (fst (runModelCallback cb session)) = backupModel session
  | SetBackup m =>
      backupModel (fst (runModelCallback cb session)) = m
      /\ mainModel (fst (runModelCallback cb session)) = mainModel session
  end.
Proof.
  destruct cb as [m | m]; simpl; intro H.
  - unfold set_main_model, str_eqb.
    destruct (str_eq_dec m (backupModel session)); [contradiction | now split].
  - unfold set_backup_model, str_eqb.
    destruct (str_eq_dec m (mainModel session)); [contradiction | now split].
Qed.

Section Deletion.

Variable A : Type.

(** [splice(-n)] for a positive [n] keeps all but the last [n]. *)
Lemma splice_negative (l : list A) (n : Z) :
  (0 < n)%Z ->
  splice l (- n) = firstn (List.length l - Z.to_nat n) l.
Proof.
  intro Hn. unfold splice.
  destruct (Z.ltb_spec (- n) 0); [|lia].
  f_equal. lia.
Qed.

End Deletion.

(** C9. For every session and every text read as a positive integer N,
    the deletion leaves of [history] all but its last N entries: when N is
    at most the length, the history was what is left followed by exactly N
    removed entries; when N exceeds the length, nothing is left.
    [memories] is the same in both cases. *)
Theorem delete_last_n :
  forall (text : JsString) (session : Session) (n : Z),
    parseInt10 (trim text) = Some n ->
    (0 < n)%Z ->
    let session' := fst (deleteLastMessages text session) in
    history session'
    = firstn (List.length (history session) - Z.to_nat n) (history session)
    /\ ((n <= Z.of_nat (List.length (history session)))%Z ->
        exists removed,
          history session = history session' ++ removed
          /\ Z.of_nat (List.length removed) = n)
    /\ ((Z.of_nat (List.length (history session)) < n)%Z ->
        history session' = [])
    /\ memories session' = memories session.
Proof.
  intros text session n Hparse Hn session'.
  assert (Hh : history session'
               = firstn (List.length (history session) - Z.to_nat n)
                   (history session)).
  { subst session'. unfold deleteLastMessages. rewrite Hparse.
    destruct (Z.leb_spec n 0); [lia|].
    destruct (history session) as [|t h] eqn:E; simpl.
    - rewrite E. now rewrite ?firstn_nil.
    - now rewrite splice_negative. }
  split; [exact Hh|]. split; [|split].
  - intro Hle. exists (skipn (List.length (history session) - Z.to_nat n)
                         (history session)).
    rewrite Hh. split; [now rewrite firstn_skipn|].
    rewrite length_skipn. lia.
  - intro Hgt. rewrite Hh.
    replace (List.length (history session) - Z.to_nat n) with 0 by lia.
    reflexivity.
  - subst session'. unfold deleteLastMessages. rewrite Hparse.
    destruct (Z.leb_spec n 0); [lia|].
    destruct (history session); reflexivity.
Qed.

(** Two of four turns deleted; then nine asked for where four are left. *)
Lemma delete_last_n_witness :
  history (fst (deleteLastMessages (js " 2 ") awaitingSession))
  = [ turn "@ann" "Привет" "01.01.2024, 10:00:00";
      turn "Гермиона" "Здравствуй" "01.01.2024, 10:00:05" ]
  /\ history (fst (deleteLastMessages (js "9") awaitingSession)) = []
  /\ memories (fst (deleteLastMessages (js "9") awaitingSession)) = memoriesOneDay.
Proof.
  destruct (@delete_last_n (js " 2 ") awaitingSession 2%Z) as (H2 & _);
    [reflexivity | lia |].
  destruct (@delete_last_n (js "9") awaitingSession 9%Z) as (_ & _ & H9 & M9);
    [reflexivity | lia |].
  split; [exact H2|]. split; [apply H9; simpl; lia | exact M9].
Defined.

Section Apology.

Lemma trimStart_blank (s : JsString) :
  trimStart s = [] <-> isBlank s = true.
Proof.
  unfold isBlank. induction s as [|c s IH]; simpl.
  - tauto.
  - destruct (isWhiteSpace c); simpl; [exact IH|].
    split; discriminate.
Qed.

(** What [trimStart] leaves starts with a character that is not white
    space. *)
Lemma trimStart_head (s : JsString) :
  match trimStart s with
  | [] => True
  | c :: _ => isWhiteSpace c = false
  end.
Proof.
  induction s as [|c s IH]; simpl; [exact I|].
  destruct (isWhiteSpace c) eqn:E; [exact IH | exact E].
Qed.

Lemma isBlank_rev (s : JsString) : isBlank (rev s) = isBlank s.
Proof.
  unfold isBlank. induction s as [|c s IH]; simpl; [reflexivity|].
  rewrite forallb_app, IH. simpl. rewrite andb_true_r. apply andb_comm.
Qed.

(** [s.trim() === ''] exactly when [s] is empty or all white space. *)
Lemma trim_blank (s : JsString) : trim s = [] <-> isBlank s = true.
Proof.
  unfold trim, trimEnd. split.
  - intro H.
    assert (H1 : trimStart (rev (trimStart s)) = []).
    { destruct (trimStart (rev (trimStart s))) as [|c l]; [reflexivity|].
      simpl in H. destruct (rev l); discriminate. }
    apply trimStart_blank in H1. rewrite isBlank_rev in H1.
    pose proof (trimStart_head s) as Hh.
    destruct (trimStart s) as [|c r] eqn:E.
    + now apply trimStart_blank.
    + unfold isBlank in H1. simpl in H1. rewrite Hh in H1. discriminate.
  - intro H. apply trimStart_blank in H. now rewrite H.
Qed.

Variable apology : JsString.

Lemma orApology_blank (botReply : JsString) :
  isBlank botReply = true -> orApology apology botReply = apology.
Proof.
  intro H. unfold orApology. destruct botReply as [|c r]; [reflexivity|].
  apply trim_blank in H. rewrite H. reflexivity.
Qed.

Lemma orApology_kept (botReply : JsString) :
  isBlank botReply = false -> orApology apology botReply = botReply.
Proof.
  intro H. unfold orApology. destruct botReply as [|c r]; [discriminate|].
  unfold str_eqb. destruct (str_eq_dec (trim (c :: r)) []) as [E|E];
    [|reflexivity].
  apply trim_blank in E. congruence.
Qed.

Lemma orApology_not_blank (botReply : JsString) :
  isBlank apology = false -> isBlank (orApology apology botReply) = false.
Proof.
  intro Ha. destruct (isBlank botReply) eqn:E.
  - now rewrite orApology_blank.
  - now rewrite orApology_kept.
Qed.

End Apology.


(** What [finish] appends and sends. *)
Lemma finish_exchange env session userName userContent messageDate botReply
    dflt w ex session' out w' :
  finish env session userName userContent messageDate botReply dflt w
  = (Some ex, session', out, w') ->
  content (botTurn ex) = botReply
  /\ role (botTurn ex) = assistantName
  /\ history (appended ex) = history session ++ [userTurn ex; botTurn ex]
  /\ exists rest, out = SendLong botReply :: rest.
Proof.
  unfold finish. destruct (newDate env w) as [now w1].
  destruct (maybeSummarize env _ w1) as [s2 w2].
  intro H. injection H as <- _ <- _. cbn [content role botTurn userTurn appended].
  split; [reflexivity|]. split; [reflexivity|]. split.
  - cbn [appendTurns history]. unfold push. now rewrite <- app_assoc.
  - destruct (sendLongMessageError env (ticks w2) botReply);
      eexists; reflexivity.
Qed.

(** A handler unfolded in the goal: either [botReplyOf] returned and the
    handler went on with [finish], or it threw and nothing was appended. *)
Ltac through_botReplyOf :=
  match goal with
  | |- context [newDate ?env ?w] =>
      let now := fresh "now" in
      let w0 := fresh "w" in
      destruct (newDate env w) as [now w0]
  end;
  match goal with
  | |- context [botReplyOf ?env ?banner ?apology ?d] =>
      let r := fresh "r" in
      let e := fresh "e" in
      let E := fresh "E" in
      let H := fresh "H" in
      destruct (botReplyOf env banner apology d) as [r|e] eqn:E;
        [ intro H; exists d, r; split;
          [exact E | exact (finish_exchange _ _ _ _ _ _ _ _ H)]
        | discriminate ]
  end.

(** Every handler that appends went through [botReplyOf] with its own
    apology. *)
Lemma handleMessage_exchange env userName msg sent session w ex session' out w' :
  handleMessage env userName msg sent session w = (Some ex, session', out, w') ->
  exists dispatched botReply,
    botReplyOf env (hasBanner msg) (apologyOf msg) dispatched = Returned botReply
    /\ content (botTurn ex) = botReply
    /\ role (botTurn ex) = assistantName
    /\ history (appended ex) = history session ++ [userTurn ex; botTurn ex]
    /\ exists rest, out = SendLong botReply :: rest.
Proof.
  destruct msg as [text | caption mimeType fileUri | mimeType fileUri | text];
    simpl.
  - unfold replyToText. through_botReplyOf.
  - unfold replyToPhoto. through_botReplyOf.
  - unfold replyToAudio. through_botReplyOf.
  - unfold replyToGroup. through_botReplyOf.
Qed.

(** Every handler in one formula: the dispatch of its first half, then
    either the steps of [finish] or the reply of its [catch]. *)
Lemma handleMessage_spec env userName msg sent session w :
  handleMessage env userName msg sent session w
  = match botReplyOf env (hasBanner msg) (apologyOf msg)
            (dispatchOf env userName msg sent session w) with
    | Returned botReply =>
        finish env session userName (userContentOf msg)
          (toLocaleString env sent) botReply (defaultOf msg)
          (snd (newDate env w))
    | Thrown error =>
        (None, session, [Reply (errorMessage (defaultOf msg) error)],
         snd (newDate env w))
    end.
Proof.
  destruct msg;
    unfold handleMessage, replyToText, replyToPhoto, replyToAudio,
      replyToGroup, dispatchOf, hasBanner, apologyOf, userContentOf,
      defaultOf, newDate;
    cbn [fst snd]; reflexivity.
Qed.

(* ================================================================== *)
(** * Properties of objects used as maps *)
(* ================================================================== *)

Section ObjFacts.

Variable V : Type.
Implicit Types (o : Obj.t V) (k : JsString) (v : V).

Lemma get_set_same o k v : Obj.get (Obj.set o k v) k = Some v.
Proof.
  induction o as [|[k' v'] o IH]; simpl.
  - destruct (str_eq_dec k k); congruence.
  - destruct (str_eq_dec k k') as [E|E]; simpl.
    + rewrite E. destruct (str_eq_dec k' k'); congruence.
    + destruct (str_eq_dec k k'); [contradiction | exact IH].
Qed.

Lemma get_set_other o k v k' :
  k' <> k -> Obj.get (Obj.set o k v) k' = Obj.get o k'.
Proof.
  intro Hne. induction o as [|[k0 v0] o IH]; simpl.
  - destruct (str_eq_dec k' k); [contradiction | reflexivity].
  - destruct (str_eq_dec k k0) as [E|E]; simpl.
    + subst k0. destruct (str_eq_dec k' k); [contradiction | reflexivity].
    + destruct (str_eq_dec k' k0); [reflexivity | exact IH].
Qed.

Lemma get_In_keys o k : Obj.get o k <> None <-> In k (Obj.keys o).
Proof.
  induction o as [|[k' v'] o IH]; simpl.
  - split; [congruence | contradiction].
  - destruct (str_eq_dec k k') as [E|E].
    + split; [intros _; left; congruence | discriminate].
    + rewrite IH. split; [now right | intros [H|H]; [congruence | exact H]].
Qed.

Lemma get_None_keys o k : Obj.get o k = None <-> ~ In k (Obj.keys o).
Proof.
  rewrite <- get_In_keys. destruct (Obj.get o k); split; intro H;
    first [congruence | intro H'; now apply H' | exfalso; apply H; discriminate].
Qed.

(** A write on a property that exists keeps the keys and their order. *)
Lemma keys_set_present o k v :
  In k (Obj.keys o) -> Obj.keys (Obj.set o k v) = Obj.keys o.
Proof.
  induction o as [|[k' v'] o IH]; simpl; [contradiction|].
  intro H. destruct (str_eq_dec k k') as [E|E]; simpl; [reflexivity|].
  f_equal. apply IH. destruct H; congruence.
Qed.

(** A write on a property that is missing adds its key last. *)
Lemma keys_set_absent o k v :
  ~ In k (Obj.keys o) -> Obj.keys (Obj.set o k v) = Obj.keys o ++ [k].
Proof.
  induction o as [|[k' v'] o IH]; simpl; [reflexivity|].
  intro H. destruct (str_eq_dec k k') as [E|E]; simpl.
  - exfalso. apply H. left. congruence.
  - f_equal. apply IH. tauto.
Qed.

Lemma keys_set_In o k v k' :
  In k' (Obj.keys (Obj.set o k v)) <-> k' = k \/ In k' (Obj.keys o).
Proof.
  destruct (in_dec str_eq_dec k (Obj.keys o)) as [H|H].
  - rewrite keys_set_present by assumption.
    split; [now right | intros [->|]; assumption].
  - rewrite keys_set_absent, in_app_iff by assumption. simpl.
    split; [intros [|[|[]]]; auto | intros [|]; auto].
Qed.

Lemma NoDup_keys_set o k v :
  NoDup (Obj.keys o) -> NoDup (Obj.keys (Obj.set o k v)).
Proof.
  intro Hnd. destruct (in_dec str_eq_dec k (Obj.keys o)) as [H|H].
  - now rewrite keys_set_present.
  - rewrite keys_set_absent by assumption.
    apply NoDup_app; [assumption | repeat constructor; simpl; tauto |].
    intros x Hx [<-|[]]. contradiction.
Qed.

(** With keys that are pairwise distinct, a key that is present names
    exactly one entry, a key that is absent none. *)
Lemma count_absent o k : ~ In k (Obj.keys o) -> Obj.count o k = 0.
Proof.
  unfold Obj.count. induction o as [|[k' v'] o IH]; simpl; [reflexivity|].
  intro H. unfold str_eqb at 1. simpl.
  destruct (str_eq_dec k' k); [exfalso; apply H; now left|].
  apply IH. tauto.
Qed.

Lemma count_present o k :
  NoDup (Obj.keys o) -> In k (Obj.keys o) -> Obj.count o k = 1.
Proof.
  unfold Obj.count. induction o as [|[k' v'] o IH]; simpl; [contradiction|].
  intros Hnd H. inversion Hnd as [|x l Hnotin Hnd']; subst.
  unfold str_eqb at 1. simpl. destruct (str_eq_dec k' k) as [E|E].
  - subst k'. simpl. f_equal. now apply count_absent.
  - apply IH; [assumption|]. destruct H; [contradiction | assumption].
Qed.

End ObjFacts.

(* ================================================================== *)
(** * Properties of the grouping by day *)
(* ================================================================== *)

Section Grouping.

Lemma str_eqb_eq (a b : JsString) : str_eqb a b = true <-> a = b.
Proof.
  unfold str_eqb. destruct (str_eq_dec a b); split; congruence.
Qed.

Lemma str_eqb_refl (a : JsString) : str_eqb a a = true.
Proof. now apply str_eqb_eq. Qed.

Lemma str_eqb_neq (a b : JsString) : str_eqb a b = false <-> a <> b.
Proof.
  unfold str_eqb. destruct (str_eq_dec a b); split; congruence.
Qed.

(** What one step of the grouping does to the group of day [d]. *)
Lemma groupStep_get (g : Obj.t (list Turn)) (msg : Turn) (d : JsString) :
  Obj.get (groupStep g msg) d
  = if onDay d msg
    then Some (match Obj.get g d with
               | Some group => group ++ [msg]
               | None => [msg]
               end)
    else Obj.get g d.
Proof.
  unfold groupStep, onDay, push.
  destruct (str_eqb (dayOf msg) d) eqn:E.
  - apply str_eqb_eq in E. subst d.
    destruct (Obj.get g (dayOf msg)) as [group|] eqn:G.
    + rewrite G. now rewrite get_set_same.
    + rewrite get_set_same. now rewrite get_set_same.
  - apply str_eqb_neq in E.
    destruct (Obj.get g (dayOf msg)) as [group|] eqn:G.
    + rewrite G. rewrite get_set_other by congruence. reflexivity.
    + rewrite get_set_same. rewrite !get_set_other by congruence.
      reflexivity.
Qed.

Lemma groupStep_NoDup (g : Obj.t (list Turn)) (msg : Turn) :
  NoDup (Obj.keys g) -> NoDup (Obj.keys (groupStep g msg)).
Proof.
  intro H. unfold groupStep.
  destruct (Obj.get g (dayOf msg)) as [group|] eqn:G.
  - rewrite G. now apply NoDup_keys_set.
  - rewrite get_set_same. now apply NoDup_keys_set, NoDup_keys_set.
Qed.

(** The loop of the grouping, from any object reached. *)
Lemma group_fold_get (messages : list Turn) :
  forall (g : Obj.t (list Turn)) (d : JsString),
    Obj.get (fold_left groupStep messages g) d
    = match Obj.get g d with
      | Some group => Some (group ++ filter (onDay d) messages)
      | None =>
          match filter (onDay d) messages with
          | [] => None
          | l => Some l
          end
      end.
Proof.
  induction messages as [|msg messages IH]; intros g d; simpl.
  - destruct (Obj.get g d); [now rewrite app_nil_r | reflexivity].
  - rewrite IH, groupStep_get.
    destruct (onDay d msg).
    + destruct (Obj.get g d) as [group|]; [now rewrite <- app_assoc|].
      reflexivity.
    + reflexivity.
Qed.

Lemma group_fold_NoDup (messages : list Turn) :
  forall g : Obj.t (list Turn),
    NoDup (Obj.keys g) -> NoDup (Obj.keys (fold_left groupStep messages g)).
Proof.
  induction messages as [|msg messages IH]; intros g H; simpl;
    [assumption|].
  now apply IH, groupStep_NoDup.
Qed.

(** The group of a day holds the messages of that day, in their order;
    a day without message has no group. *)
Lemma groupMessagesByDay_get (messages : list Turn) (d : JsString) :
  Obj.get (groupMessagesByDay messages) d
  = match filter (onDay d) messages with
    | [] => None
    | l => Some l
    end.
Proof. unfold groupMessagesByDay. now rewrite group_fold_get. Qed.

Lemma groupMessagesByDay_NoDup (messages : list Turn) :
  NoDup (Obj.keys (groupMessagesByDay messages)).
Proof. apply group_fold_NoDup. constructor. Qed.

Lemma filter_onDay_nil (messages : list Turn) (d : JsString) :
  filter (onDay d) messages = [] <-> forall t, In t messages -> dayOf t <> d.
Proof.
  split.
  - intros H t Ht E.
    assert (Hin : In t (filter (onDay d) messages)).
    { apply filter_In. split; [assumption|]. now apply str_eqb_eq. }
    rewrite H in Hin. contradiction.
  - intro H. destruct (filter (onDay d) messages) as [|t l] eqn:E;
      [reflexivity|].
    assert (Hin : In t (filter (onDay d) messages)) by (rewrite E; now left).
    apply filter_In in Hin. destruct Hin as [Hin Hd].
    apply str_eqb_eq in Hd. exfalso. exact (H t Hin Hd).
Qed.

(** The groups are the days of the messages. *)
Lemma groupMessagesByDay_keys (messages : list Turn) (d : JsString) :
  In d (Obj.keys (groupMessagesByDay messages))
  <-> exists t, In t messages /\ dayOf t = d.
Proof.
  rewrite <- get_In_keys, groupMessagesByDay_get. split.
  - intro H. destruct (filter (onDay d) messages) as [|t l] eqn:E;
      [congruence|].
    assert (Hin : In t (filter (onDay d) messages)) by (rewrite E; now left).
    apply filter_In in Hin. destruct Hin as [Hin Hd].
    exists t. split; [assumption | now apply str_eqb_eq].
  - intros (t & Hin & Hd).
    destruct (filter (onDay d) messages) as [|t' l] eqn:E; [|discriminate].
    exfalso. exact (proj1 (filter_onDay_nil messages d) E t Hin Hd).
Qed.

End Grouping.

(* ================================================================== *)
(** * Properties of the memory consolidator *)
(* ================================================================== *)

Section Loop.

Variables (S A : Type) (body : A -> M S unit).

Lemma forEach_cons (x : A) (l : list A) (s : S) :
  forEach body (x :: l) s
  = match body x s with
    | (Returned _, s1) => forEach body l s1
    | (Thrown e, s1) => (Thrown e, s1)
    end.
Proof. reflexivity. Qed.

Lemma forEach_split (l1 l2 : list A) (s : S) :
  forEach body (l1 ++ l2) s
  = match forEach body l1 s with
    | (Returned _, s1) => forEach body l2 s1
    | (Thrown e, s1) => (Thrown e, s1)
    end.
Proof.
  revert s. induction l1 as [|x l1 IH]; intro s; [reflexivity|].
  rewrite <- app_comm_cons, !forEach_cons.
  destruct (body x s) as [[u|e] s1]; [apply IH | reflexivity].
Qed.

(** What every turn of the loop keeps, however it ends, the loop
    keeps. *)
Lemma forEach_invariant (P : S -> Prop) :
  (forall x s c s', body x s = (c, s') -> P s -> P s') ->
  forall l s c s', forEach body l s = (c, s') -> P s -> P s'.
Proof.
  intro Hstep. induction l as [|x l IH]; intros s c s' H Hs.
  - cbn [forEach] in H. unfold ret in H. now injection H as _ <-.
  - rewrite forEach_cons in H.
    destruct (body x s) as [[u|e] s1] eqn:E.
    + apply (IH _ _ _ H). exact (Hstep _ _ _ _ E Hs).
    + injection H as _ <-. exact (Hstep _ _ _ _ E Hs).
Qed.

End Loop.

Section Consolidator.

Variable env : Env.
Variable today : JsString.

(** The default budget of one attempt: one call, its completion. *)
Lemma single_attempt (model : Model) (contents : Contents) (delay : Z)
    (served : nat) :
  generateResponseWithRetry model contents 1 delay served
  = {| completion :=
         match model served contents with
         | Returned r => Returned (Some r)
         | Thrown e => Thrown e
         end;
       calls := 1; waits := [] |}.
Proof.
  unfold generateResponseWithRetry. simpl.
  destruct (model served contents); [reflexivity|].
  now rewrite andb_false_r.
Qed.

(** A day that needs no summary is passed over. *)
Lemma summarizeDay_skip (date : JsString) (messages : list Turn) (st : SumState) :
  needsSummary (mem st) date today = false ->
  summarizeDay env today (date, messages) st = (Returned tt, st).
Proof.
  intro H. unfold summarizeDay, bind, gets. rewrite H. reflexivity.
Qed.

(** A day that needs a summary costs one call of the summarization
    model; the memory is written when the call and [text()] succeed, and
    left alone when one of them throws. *)
Lemma summarizeDay_run (date : JsString) (messages : list Turn) (st : SumState) :
  needsSummary (mem st) date today = true ->
  let contents := summaryContents (mem st) date messages in
  let w1 := logged (world st) contents in
  summarizeDay env today (date, messages) st
  = match
      match summarizationModel env (List.length (summaryCalls (world st))) contents with
      | Returned r => responseOf date (Some r)
      | Thrown e => Thrown e
      end
    with
    | Returned summary =>
        (Returned tt,
         {| mem := Obj.set (mem st) date
                     {| text := sanitizeHtml env summary;
                        mdate := toLocaleString env (clock env (ticks w1)) |};
            world := {| ticks := S (ticks w1); summaryCalls := summaryCalls w1 |} |})
    | Thrown e => (Thrown e, {| mem := mem st; world := w1 |})
    end.
Proof.
  intros H contents w1.
  unfold summarizeDay, bind, gets, lift, callSummarizationModel, storeMemory.
  rewrite H, single_attempt. fold contents. simpl.
  destruct (summarizationModel env _ contents) as [r|e]; [|reflexivity].
  destruct (responseOf date (Some r)); reflexivity.
Qed.

Lemma needsSummary_false (memories : Obj.t Memory) (date : JsString) :
  needsSummary memories date today = false ->
  In date (Obj.keys memories).
Proof.
  unfold needsSummary. intro H. apply get_In_keys.
  destruct (Obj.get memories date); [discriminate | discriminate].
Qed.

(** One day summarized or passed over: the day has an entry, the other
    entries are as they were. *)
Lemma summarizeDay_returned (date : JsString) (messages : list Turn)
    (st st' : SumState) (u : unit) :
  summarizeDay env today (date, messages) st = (Returned u, st') ->
  In date (Obj.keys (mem st'))
  /\ (forall k, k <> date -> Obj.get (mem st') k = Obj.get (mem st) k)
  /\ (forall k, In k (Obj.keys (mem st')) <-> k = date \/ In k (Obj.keys (mem st)))
  /\ (NoDup (Obj.keys (mem st)) -> NoDup (Obj.keys (mem st'))).
Proof.
  destruct (needsSummary (mem st) date today) eqn:N.
  - rewrite summarizeDay_run by assumption. simpl.
    destruct (match summarizationModel env _ _ with
              | Returned r => responseOf date (Some r)
              | Thrown e => Thrown e
              end) as [summary|e]; [|discriminate].
    intro H. injection H as _ <-. simpl.
    split; [apply keys_set_In; now left|].
    split; [intros k Hk; now apply get_set_other|].
    split; [intro k; apply keys_set_In | apply NoDup_keys_set].
  - rewrite summarizeDay_skip by assumption.
    intro H. injection H as _ <-.
    pose proof (needsSummary_false _ _ N) as Hin.
    split; [assumption|]. split; [reflexivity|].
    split; [|trivial].
    intro k. split; [now right | intros [-> | Hk]; assumption].
Qed.

(** One day whose summarization throws: nothing is written, one call is
    logged. *)
Lemma summarizeDay_thrown (date : JsString) (messages : list Turn)
    (st st' : SumState) (e : Error) :
  summarizeDay env today (date, messages) st = (Thrown e, st') ->
  st' = {| mem := mem st;
           world := logged (world st) (summaryContents (mem st) date messages) |}.
Proof.
  destruct (needsSummary (mem st) date today) eqn:N.
  - rewrite summarizeDay_run by assumption. simpl.
    destruct (match summarizationModel env _ _ with
              | Returned r => responseOf date (Some r)
              | Thrown e => Thrown e
              end) as [summary|e']; [discriminate|].
    intro H. now injection H as _ <-.
  - rewrite summarizeDay_skip by assumption. discriminate.
Qed.

(** The loop over a list of groups made of two parts. *)
Lemma forEach_app (groups1 groups2 : list (JsString * list Turn)) (st : SumState) :
  forEach (summarizeDay env today) (groups1 ++ groups2) st
  = match forEach (summarizeDay env today) groups1 st with
    | (Returned _, st1) => forEach (summarizeDay env today) groups2 st1
    | (Thrown e, st1) => (Thrown e, st1)
    end.
Proof. apply forEach_split. Qed.

(** A loop that ends normally: every group has its entry, the entries of
    the other days are as they were. *)
Lemma forEach_returned (groups : list (JsString * list Turn)) :
  forall (st st' : SumState) (u : unit),
    forEach (summarizeDay env today) groups st = (Returned u, st') ->
    (forall d, In d (map fst groups) -> In d (Obj.keys (mem st')))
    /\ (forall k, ~ In k (map fst groups) ->
                  Obj.get (mem st') k = Obj.get (mem st) k)
    /\ (forall k, In k (Obj.keys (mem st'))
                  <-> In k (map fst groups) \/ In k (Obj.keys (mem st)))
    /\ (NoDup (Obj.keys (mem st)) -> NoDup (Obj.keys (mem st'))).
Proof.
  induction groups as [|[date messages] groups IH]; intros st st' u.
  - cbn [forEach map]. unfold ret. intro H. injection H as _ <-.
    split; [contradiction|]. split; [reflexivity|].
    split; [intro k; simpl; tauto | trivial].
  - rewrite forEach_cons. cbn [map fst].
    destruct (summarizeDay env today (date, messages) st) as [[u1|e] st1] eqn:E;
      [|discriminate].
    intro H. apply IH in H. destruct H as (H1 & H2 & H3 & H4).
    apply summarizeDay_returned in E. destruct E as (E1 & E2 & E3 & E4).
    split; [|split; [|split]].
    + intros d [<- | Hd]; [|now apply H1].
      apply H3. right. assumption.
    + intros k Hk. simpl in Hk. rewrite H2 by tauto. apply E2. intro; subst; tauto.
    + intro k. rewrite H3, E3. simpl. intuition congruence.
    + intro Hnd. now apply H4, E4.
Qed.

(** A loop stopped by an exception: what comes after the day that throws
    plays no part. *)
Lemma forEach_thrown (before after : list (JsString * list Turn))
    (date : JsString) (messages : list Turn) (st st1 st2 : SumState)
    (u : unit) (e : Error) :
  forEach (summarizeDay env today) before st = (Returned u, st1) ->
  summarizeDay env today (date, messages) st1 = (Thrown e, st2) ->
  forEach (summarizeDay env today) (before ++ (date, messages) :: after) st
  = (Thrown e,
     {| mem := mem st1;
        world := logged (world st1) (summaryContents (mem st1) date messages) |}).
Proof.
  intros Hb Hd. rewrite forEach_app, Hb, forEach_cons, Hd.
  now rewrite (summarizeDay_thrown _ _ _ Hd).
Qed.

End Consolidator.

(** Case analysis on the loop of an unfolded [generateSummary] in [H]. *)
Ltac loop_cases H u e st E :=
  match type of H with
  | context [forEach ?b ?l ?s] =>
      destruct (forEach b l s) as [[u|e] st] eqn:E
  end.

(** The first console line is printed on an empty history only, and then
    nothing is touched. *)
Lemma generateSummary_empty_log env session w session' w' :
  generateSummary env session w = (session', LogEmptyHistory, w') ->
  session' = session /\ history session = [] /\ w' = w.
Proof.
  intro H. unfold generateSummary in H.
  destruct (history session) as [|t h] eqn:Hh.
  - injection H as <- <-. now repeat split.
  - unfold newDate in H. loop_cases H u e st E; discriminate.
Qed.

(** What [generateSummary] leaves when its pass completes: today's turns as
    history, the memories the loop ends with. *)
Lemma generateSummary_success env session w session' w' :
  generateSummary env session w = (session', LogSuccess, w') ->
  let today := toLocaleDateString_ruRU (clock env (ticks w)) in
  history session' = filter (onDay today) (history session)
  /\ exists st u,
       forEach (summarizeDay env today)
         (Obj.entries (groupMessagesByDay (history session)))
         {| mem := memories session;
            world := {| ticks := S (ticks w); summaryCalls := summaryCalls w |} |}
       = (Returned u, st)
       /\ memories session' = mem st.
Proof.
  intros H today. unfold generateSummary in H.
  destruct (history session) as [|t h] eqn:Hh; [discriminate|].
  unfold newDate in H. fold today in H.
  loop_cases H u e st E; [|discriminate].
  injection H as <- _. cbn [history memories setHistoryMemories]. split.
  - rewrite groupMessagesByDay_get.
    destruct (filter (onDay today) (t :: h)); reflexivity.
  - exists st, u. split; reflexivity.
Qed.

(** An empty history, or a pass stopped by an exception, leaves the
    history as it is. *)
Lemma generateSummary_history_kept env session w session' log w' :
  generateSummary env session w = (session', log, w') ->
  log <> LogSuccess ->
  history session' = history session.
Proof.
  intros H Hlog. unfold generateSummary in H.
  destruct (history session) as [|t h] eqn:Hh.
  - injection H as <- _ _. assumption.
  - unfold newDate in H.
    loop_cases H u e st E.
    + injection H as _ <- _. congruence.
    + injection H as <- _ _. reflexivity.
Qed.

Section OneDay.

Variable env : Env.

Lemma generateSummary_empty session w :
  history session = [] ->
  generateSummary env session w = (session, LogEmptyHistory, w).
Proof. intro H. unfold generateSummary. now rewrite H. Qed.

(** Messages that are all of one day make one group. *)
Lemma group_fold_one_day (d : JsString) (messages : list Turn) :
  (forall t, In t messages -> dayOf t = d) ->
  forall group,
    fold_left groupStep messages [(d, group)] = [(d, group ++ messages)].
Proof.
  induction messages as [|msg messages IH]; intros Hd group; simpl.
  - now rewrite app_nil_r.
  - assert (E : groupStep [(d, group)] msg = [(d, group ++ [msg])]).
    { unfold groupStep, push. rewrite (Hd msg) by now left. simpl.
      destruct (str_eq_dec d d); [|congruence]. simpl.
      destruct (str_eq_dec d d); [reflexivity | congruence]. }
    rewrite E, IH by (intros t Ht; apply Hd; now right).
    now rewrite <- app_assoc.
Qed.

Lemma groupMessagesByDay_one_day (d : JsString) (msg : Turn)
    (messages : list Turn) :
  (forall t, In t (msg :: messages) -> dayOf t = d) ->
  groupMessagesByDay (msg :: messages) = [(d, msg :: messages)].
Proof.
  intro Hd. unfold groupMessagesByDay. simpl.
  assert (E : groupStep [] msg = [(d, [msg])]).
  { unfold groupStep, push. rewrite (Hd msg) by now left. simpl.
    destruct (str_eq_dec d d); [reflexivity | congruence]. }
  rewrite E, group_fold_one_day by (intros t Ht; apply Hd; now right).
  reflexivity.
Qed.

(** Whether it stores, passes over or throws, the body of the loop
    leaves the entries of the other days alone, and leaves the keys
    alone when the day has its entry already. *)
Lemma summarizeDay_other_days today date messages st c st' :
  summarizeDay env today (date, messages) st = (c, st') ->
  (forall k, k <> date -> Obj.get (mem st') k = Obj.get (mem st) k)
  /\ (In date (Obj.keys (mem st)) -> Obj.keys (mem st') = Obj.keys (mem st)).
Proof.
  destruct c as [u|e]; intro H.
  - destruct (needsSummary (mem st) date today) eqn:N.
    + rewrite summarizeDay_run in H by assumption. simpl in H.
      destruct (match summarizationModel env _ _ with
                | Returned r => responseOf date (Some r)
                | Thrown e => Thrown e
                end) as [summary|e]; [|discriminate].
      injection H as _ <-. simpl. split.
      * intros k Hk. now apply get_set_other.
      * apply keys_set_present.
    + rewrite summarizeDay_skip in H by assumption.
      injection H as _ <-. now split.
  - apply summarizeDay_thrown in H. subst st'. now split.
Qed.

(** An entry that is populated and is not today's is never written. *)
Lemma summarizeDay_keeps_populated today date messages st c st' d m :
  summarizeDay env today (date, messages) st = (c, st') ->
  d <> today ->
  trim (text m) <> [] ->
  Obj.get (mem st) d = Some m ->
  Obj.get (mem st') d = Some m.
Proof.
  intros H Hd Hm Hg. destruct (str_eq_dec date d) as [->|Hne].
  - assert (N : needsSummary (mem st) d today = false).
    { unfold needsSummary. rewrite Hg.
      destruct (trim (text m)); [congruence|]. simpl.
      now apply str_eqb_neq. }
    rewrite summarizeDay_skip in H by assumption.
    now injection H as _ <-.
  - apply summarizeDay_other_days in H. destruct H as [H _].
    rewrite H by congruence. assumption.
Qed.

Lemma generateSummary_keeps_populated session w session' log w' d m :
  generateSummary env session w = (session', log, w') ->
  d <> toLocaleDateString_ruRU (clock env (ticks w)) ->
  Obj.get (memories session) d = Some m ->
  trim (text m) <> [] ->
  Obj.get (memories session') d = Some m.
Proof.
  intros H Hd Hg Hm. unfold generateSummary in H.
  destruct (history session) as [|t h] eqn:Hh.
  - now injection H as <- _ _.
  - unfold newDate in H.
    set (today := toLocaleDateString_ruRU (clock env (ticks w))) in *.
    assert (Hstep : forall (g : JsString * list Turn) s0 (c : Completion unit) s0',
               summarizeDay env today g s0 = (c, s0') ->
               Obj.get (mem s0) d = Some m -> Obj.get (mem s0') d = Some m).
    { intros [date messages] s0 c s0' Hs Hp.
      exact (summarizeDay_keeps_populated _ _ _ Hs Hd Hm Hp). }
    loop_cases H u e st E;
      pose proof (@forEach_invariant SumState _ _
                    (fun st => Obj.get (mem st) d = Some m)
                    Hstep _ _ _ _ E Hg) as Hst.
    + now injection H as <- _ _.
    + now injection H as <- _ _.
Qed.

(** A run on a history that is all of one day. *)
Lemma generateSummary_one_day (d : JsString) session w session' log w' :
  (forall t, In t (history session) -> dayOf t = d) ->
  generateSummary env session w = (session', log, w') ->
  (forall k, k <> d -> Obj.get (memories session') k = Obj.get (memories session) k)
  /\ (In d (Obj.keys (memories session)) ->
      Obj.keys (memories session') = Obj.keys (memories session))
  /\ (history session = [] -> memories session' = memories session).
Proof.
  intros Hd H.
  destruct (history session) as [|msg messages] eqn:Hh.
  - rewrite generateSummary_empty in H by assumption.
    injection H as <- _ _. now repeat split.
  - unfold generateSummary in H. rewrite Hh in H.
    rewrite (groupMessagesByDay_one_day Hd) in H.
    unfold newDate, Obj.entries in H. rewrite forEach_cons in H.
    match type of H with
    | context [summarizeDay env ?today ?g ?st] =>
        destruct (summarizeDay env today g st) as [[u|e] st1] eqn:E;
          apply summarizeDay_other_days in E; destruct E as [E1 E2]
    end.
    + cbn [forEach] in H. unfold ret in H. injection H as <- _ _.
      cbn [memories setHistoryMemories]. split; [exact E1|].
      split; [exact E2 | discriminate].
    + injection H as <- _ _.
      cbn [memories setHistoryMemories]. split; [exact E1|].
      split; [exact E2 | discriminate].
Qed.

(** A loop stopped by an exception stopped at one of its groups. *)
Lemma forEach_thrown_at today (groups : list (JsString * list Turn)) :
  forall st st' e,
    forEach (summarizeDay env today) groups st = (Thrown e, st') ->
    exists before date messages after st1,
      groups = before ++ (date, messages) :: after
      /\ forEach (summarizeDay env today) before st = (Returned tt, st1)
      /\ summarizeDay env today (date, messages) st1 = (Thrown e, st').
Proof.
  induction groups as [|[date messages] groups IH]; intros st st' e.
  - cbn [forEach]. unfold ret. discriminate.
  - rewrite forEach_cons.
    destruct (summarizeDay env today (date, messages) st) as [[u|e1] st1] eqn:E.
    + intro H. apply IH in H.
      destruct H as (before & date' & messages' & after & st2 & Hg & Hb & Hs).
      exists ((date, messages) :: before), date', messages', after, st2.
      split; [now rewrite Hg|]. split; [|assumption].
      rewrite forEach_cons, E. assumption.
    + intro H. injection H as <- <-.
      exists [], date, messages, groups, st. now repeat split.
Qed.

End OneDay.

(** C1. For every session on which [generateSummary] ends without a caught
    exception (its keys of [memories] pairwise distinct, as the properties
    of an object are): every turn left in [history] is dated on the current
    day, the day read by the function; every day that has a turn in the
    history before the call, so every such day before today, has exactly
    one entry in [memories]; and for a day without any turn in that
    history no entry is made: it has no entry unless one was there before
    the call, which is then kept as it was. *)
Theorem consolidation_invariant :
  forall (env : Env) (session : Session) (w : World)
         (session' : Session) (log : SummaryLog) (w' : World),
    generateSummary env session w = (session', log, w') ->
    (forall e, log <> LogError e) ->
    NoDup (Obj.keys (memories session)) ->
    let today := toLocaleDateString_ruRU (clock env (ticks w)) in
    (forall t, In t (history session') -> dayOf t = today)
    /\ (forall t, In t (history session) ->
                  Obj.count (memories session') (dayOf t) = 1)
    /\ (forall d, (forall t, In t (history session) -> dayOf t <> d) ->
                  (Obj.get (memories session) d = None ->
                   Obj.count (memories session') d = 0)
                  /\ Obj.get (memories session') d = Obj.get (memories session) d
                  /\ Obj.count (memories session') d = Obj.count (memories session) d).
Proof.
  intros env session w session' log w' H Hlog Hnd today.
  destruct log as [| |e]; [| |exfalso; now apply (Hlog e)].
  - (* the history was empty *)
    apply generateSummary_empty_log in H. destruct H as (-> & Hh & _).
    rewrite Hh.
    split; [contradiction|]. split; [contradiction|].
    intros d _. split; [|now split].
    intro Hg. apply count_absent. now apply get_None_keys.
  - (* the pass completed *)
    destruct (generateSummary_success _ _ _ H) as (Hh & st & u & Hloop & Hm).
    fold today in Hh, Hloop.
    pose proof Hloop as HL. apply forEach_returned in HL.
    destruct HL as (L1 & L2 & L3 & L4).
    cbn [mem] in L2, L3, L4.
    split; [|split].
    + intros t Ht. rewrite Hh in Ht. apply filter_In in Ht.
      destruct Ht as [_ Ht]. now apply str_eqb_eq.
    + intros t Ht. rewrite Hm. apply count_present; [now apply L4|].
      apply L1. apply (groupMessagesByDay_keys (history session) (dayOf t)).
      now exists t.
    + intros d Hd.
      assert (Hnot : ~ In d (map fst (Obj.entries (groupMessagesByDay (history session))))).
      { intro Hin. apply (groupMessagesByDay_keys (history session) d) in Hin.
        destruct Hin as (t & Ht & E). exact (Hd t Ht E). }
      rewrite Hm. split; [|split; [now apply L2|]].
      * intro Hg. apply get_None_keys in Hg.
        apply count_absent. rewrite L3. tauto.
      * destruct (in_dec str_eq_dec d (Obj.keys (memories session))) as [Hin|Hout].
        -- rewrite !count_present; auto. apply L3. now right.
        -- rewrite !count_absent; auto. rewrite L3. tauto.
Qed.

(** After a pass on the two-day history, with a memory of 31 December:
    the turns left are of 2 January, 1 January has its one entry, the
    entry of 31 December is the one that was there. *)
Lemma consolidation_invariant_witness :
  dayOf (turn "@ann" "Как дела?" "02.01.2024, 09:30:00") = js "02.01.2024"
  /\ Obj.count (memories (fst (fst (generateSummary envSteady sessionTwoDays world0))))
       (js "01.01.2024") = 1
  /\ Obj.get (memories (fst (fst (generateSummary envSteady sessionTwoDays world0))))
       (js "31.12.2023")
     = Obj.get memoriesOneDay (js "31.12.2023").
Proof.
  destruct (@consolidation_invariant envSteady sessionTwoDays world0
              (fst (fst (generateSummary envSteady sessionTwoDays world0)))
              LogSuccess
              (snd (generateSummary envSteady sessionTwoDays world0)))
    as (H1 & H2 & H3).
  - vm_compute. reflexivity.
  - discriminate.
  - vm_compute. repeat constructor; simpl; intuition discriminate.
  - split; [|split].
    + apply H1. vm_compute. left. reflexivity.
    + apply (H2 (turn "@ann" "Привет" "01.01.2024, 10:00:00")). now left.
    + apply (H3 (js "31.12.2023")).
      intros t Ht. vm_compute in Ht. intuition (subst; discriminate).
Defined.

(** C6, as the code has it. When a run of [generateSummary] is followed
    by a second run, no turn being appended in between: the second run
    leaves as it was every entry that is populated (its text not blank)
    and is not of the day the second run reads as today, for such entries
    are skipped; and when the first run ended without a caught exception,
    the second run leaves the keys of [memories] and every entry of a day
    other than the current day of the first run as they were, and leaves
    [memories] as a whole as it was when the history had no turn of that
    day.  The entry of the current day is not covered: the second run
    writes it again. *)
Theorem second_run_keeps_other_days :
  forall (env : Env) (session : Session) (w : World)
         (s1 : Session) (log1 : SummaryLog) (w1 : World)
         (s2 : Session) (log2 : SummaryLog) (w2 : World),
    generateSummary env session w = (s1, log1, w1) ->
    generateSummary env s1 w1 = (s2, log2, w2) ->
    (forall d m,
        d <> toLocaleDateString_ruRU (clock env (ticks w1)) ->
        Obj.get (memories s1) d = Some m ->
        trim (text m) <> [] ->
        Obj.get (memories s2) d = Some m)
    /\
    ((forall e, log1 <> LogError e) ->
     let today := toLocaleDateString_ruRU (clock env (ticks w)) in
     (forall d, d <> today -> Obj.get (memories s2) d = Obj.get (memories s1) d)
     /\ Obj.keys (memories s2) = Obj.keys (memories s1)
     /\ ((forall t, In t (history session) -> dayOf t <> today) ->
         memories s2 = memories s1)).
Proof.
  intros env session w s1 log1 w1 s2 log2 w2 H1 H2.
  split.
  { intros d m Hd Hg Hm.
    exact (generateSummary_keeps_populated _ _ _ H2 Hd Hg Hm). }
  intros Hlog today.
  destruct log1 as [| |e]; [| |exfalso; now apply (Hlog e)].
  - (* the first run found an empty history: so does the second *)
    apply generateSummary_empty_log in H1. destruct H1 as (-> & Hempty & _).
    rewrite generateSummary_empty in H2 by assumption.
    injection H2 as <- _ _. now repeat split.
  - (* the first run completed its pass *)
    destruct (generateSummary_success _ _ _ H1) as (Hh & st & u & Hloop & Hm).
    fold today in Hh, Hloop.
    assert (Hday : forall t, In t (history s1) -> dayOf t = today).
    { intros t Ht. rewrite Hh in Ht. apply filter_In in Ht.
      destruct Ht as [_ Ht]. now apply str_eqb_eq. }
    destruct (generateSummary_one_day _ _ _ Hday H2) as (K1 & K2 & K3).
    split; [exact K1|]. split.
    + destruct (history s1) as [|t h] eqn:E.
      * now rewrite K3.
      * apply K2. rewrite Hm.
        pose proof Hloop as HL. apply forEach_returned in HL.
        destruct HL as (L1 & _). apply L1.
        apply (groupMessagesByDay_keys (history session) today).
        assert (Hin : In t (filter (onDay today) (history session)))
          by (rewrite <- Hh; now left).
        apply filter_In in Hin. destruct Hin as [Hin Hd].
        exists t. split; [assumption | now apply str_eqb_eq].
    + intro Hnone. apply K3. rewrite Hh.
      now apply filter_onDay_nil.
Qed.

(** Two runs in a row on the two-day history: the entry of 1 January
    written by the first run is the one found after the second. *)
Lemma second_run_keeps_other_days_witness :
  Obj.get (memories (fst (fst (generateSummary envRewording afterFirstRun worldAfterFirstRun))))
    (js "01.01.2024")
  = Some {| text := js "Ann asked how things are.";
            mdate := js "02.01.2024, 12:00:00" |}
  /\ Obj.get (memories (fst (fst (generateSummary envRewording afterFirstRun worldAfterFirstRun))))
       (js "01.01.2024")
     = Obj.get (memories afterFirstRun) (js "01.01.2024").
Proof.
  destruct (@second_run_keeps_other_days envRewording sessionNoMemories world0
              afterFirstRun LogSuccess worldAfterFirstRun
              (fst (fst (generateSummary envRewording afterFirstRun worldAfterFirstRun)))
              LogSuccess
              (snd (generateSummary envRewording afterFirstRun worldAfterFirstRun)))
    as (HA & HB).
  - vm_compute. reflexivity.
  - vm_compute. reflexivity.
  - split.
    + apply HA; vm_compute; first [reflexivity | discriminate].
    + destruct HB as (H & _); [discriminate|].
      apply H. vm_compute. discriminate.
Defined.

(** C6, as the claim states it, fails: with turns dated today in the
    history, the second run asks for today's summary again and stores what
    it gets, here a summary worded differently. *)
Lemma second_run_rewrites_today :
  memories
    (fst (fst (generateSummary envRewording
                 (fst (fst (generateSummary envRewording sessionTodayOnly world0)))
                 (snd (generateSummary envRewording sessionTodayOnly world0)))))
  <> memories (fst (fst (generateSummary envRewording sessionTodayOnly world0))).
Proof. vm_compute. discriminate. Qed.

(** C7, as the code has it.  When the summarization of one day throws,
    the days before having been gone through, [generateSummary] catches
    the exception, returns with it logged, and has ended its pass on that
    day: the history is left as it was, the memories are those written for
    the days before, and the last call logged is the one that failed; no
    call is made for the days after and nothing is written for them.  So
    it is in particular when that day needs a summary and the
    summarization model rejects the call.  Every pass that logs an error
    is such a pass, and its outcome is the same whatever the days after
    are. *)
Theorem failed_day_ends_pass :
  forall (env : Env) (session : Session) (w : World),
    let today := toLocaleDateString_ruRU (clock env (ticks w)) in
    let st0 := {| mem := memories session;
                  world := {| ticks := S (ticks w); summaryCalls := summaryCalls w |} |} in
    (forall before date messages after st1 st2 e,
        Obj.entries (groupMessagesByDay (history session))
        = before ++ (date, messages) :: after ->
        forEach (summarizeDay env today) before st0 = (Returned tt, st1) ->
        summarizeDay env today (date, messages) st1 = (Thrown e, st2) ->
        generateSummary env session w
        = (setHistoryMemories session (history session) (mem st1),
           LogError e,
           logged (world st1) (summaryContents (mem st1) date messages)))
    /\ (forall before date messages after st1 e,
           Obj.entries (groupMessagesByDay (history session))
           = before ++ (date, messages) :: after ->
           forEach (summarizeDay env today) before st0 = (Returned tt, st1) ->
           needsSummary (mem st1) date today = true ->
           summarizationModel env (List.length (summaryCalls (world st1)))
             (summaryContents (mem st1) date messages) = Thrown e ->
           generateSummary env session w
           = (setHistoryMemories session (history session) (mem st1),
              LogError e,
              logged (world st1) (summaryContents (mem st1) date messages)))
    /\ (forall session' e w',
           generateSummary env session w = (session', LogError e, w') ->
           history session' = history session
           /\ exists before date messages after st1,
                Obj.entries (groupMessagesByDay (history session))
                = before ++ (date, messages) :: after
                /\ forEach (summarizeDay env today) before st0 = (Returned tt, st1)
                /\ memories session' = mem st1
                /\ w' = logged (world st1) (summaryContents (mem st1) date messages)
                /\ forall others,
                     forEach (summarizeDay env today)
                       (before ++ (date, messages) :: others) st0
                     = (Thrown e, {| mem := memories session'; world := w' |})).
Proof.
  intros env session w today st0.
  assert (Hfwd : forall before date messages after st1 st2 e,
             Obj.entries (groupMessagesByDay (history session))
             = before ++ (date, messages) :: after ->
             forEach (summarizeDay env today) before st0 = (Returned tt, st1) ->
             summarizeDay env today (date, messages) st1 = (Thrown e, st2) ->
             generateSummary env session w
             = (setHistoryMemories session (history session) (mem st1),
                LogError e,
                logged (world st1) (summaryContents (mem st1) date messages))).
  { intros before date messages after st1 st2 e Hg Hb Hs.
    unfold generateSummary.
    destruct (history session) as [|t h] eqn:Hh;
      [destruct before; discriminate|].
    unfold newDate. fold today. fold st0.
    rewrite Hg, (@forEach_thrown env today before after date messages st0 st1 st2
               tt e Hb Hs).
    reflexivity. }
  split; [exact Hfwd|]. split.
  - intros before date messages after st1 e Hg Hb Hn Hm.
    eapply Hfwd; [exact Hg | exact Hb |].
    rewrite summarizeDay_run by exact Hn. cbv zeta. rewrite Hm. reflexivity.
  - intros session' e w' H.
    split; [apply (generateSummary_history_kept _ _ _ H); discriminate|].
    unfold generateSummary in H.
    destruct (history session) as [|t h] eqn:Hh; [discriminate|].
    unfold newDate in H. fold today in H. fold st0 in H.
    loop_cases H u e' st E; [discriminate|].
    injection H as <- <- <-. cbn [memories setHistoryMemories].
    apply forEach_thrown_at in E.
    destruct E as (before & date & messages & after & st1 & Hg & Hb & Hs).
    pose proof Hs as Hst. apply summarizeDay_thrown in Hst. subst st.
    exists before, date, messages, after, st1. cbn [mem world].
    repeat split; try assumption.
    intro others. eapply forEach_thrown; [exact Hb | exact Hs].
Qed.

(** The summarization of 1 January, the first day, is rejected: the pass
    ends there with the error logged, the four turns kept, no memory
    written, and that one call made. *)
Lemma failed_day_ends_pass_witness :
  generateSummary envFirstFails sessionNoMemories world0
  = (sessionNoMemories, LogError badRequest,
     {| ticks := 1;
        summaryCalls :=
          [summaryContents [] (js "01.01.2024") (firstn 2 historyTwoDays)] |}).
Proof.
  destruct (failed_day_ends_pass envFirstFails sessionNoMemories world0)
    as (_ & H & _).
  rewrite (H [] (js "01.01.2024") (firstn 2 historyTwoDays)
             [(js "02.01.2024", skipn 2 historyTwoDays)]
             {| mem := []; world := {| ticks := 1; summaryCalls := [] |} |}
             badRequest);
    vm_compute; reflexivity.
Defined.

(** C7, as the claim states it, fails: the summarization of 1 January is
    rejected, and the group of 2 January, which has no memory and so needs
    one, is not attempted, although the model would have answered: the
    only call logged is that of 1 January and nothing is stored. *)
Lemma later_day_not_attempted :
  snd (fst (generateSummary envFirstFails sessionNoMemories world0))
  = LogError badRequest
  /\ Obj.keys (groupMessagesByDay (history sessionNoMemories))
     = [js "01.01.2024"; js "02.01.2024"]
  /\ summaryCalls (snd (generateSummary envFirstFails sessionNoMemories world0))
     = [summaryContents [] (js "01.01.2024") (firstn 2 historyTwoDays)]
  /\ memories (fst (fst (generateSummary envFirstFails sessionNoMemories world0)))
     = []
  /\ needsSummary [] (js "02.01.2024") (js "02.01.2024") = true
  /\ summarizationModel envFirstFails 1
       (summaryContents [] (js "02.01.2024") (skipn 2 historyTwoDays))
     = Returned (answer "Summary").
Proof. vm_compute. repeat split; reflexivity. Qed.

(* ================================================================== *)
(** * Decimal texts *)
(* ================================================================== *)

Section Decimal.

Lemma readDigits_app (ds rest : JsString) :
  forallb isDigit ds = true ->
  forall a seen,
    readDigits (ds ++ rest) a seen
    = readDigits rest (readAll ds a)
        (match ds with [] => seen | _ => true end).
Proof.
  induction ds as [|c ds IH]; intros Hd a seen; [reflexivity|].
  simpl in Hd. apply andb_prop in Hd. destruct Hd as [Hc Hd].
  simpl. rewrite Hc, IH by assumption. now destruct ds.
Qed.

Lemma digit_not_space (c : N) : isDigit c = true -> isWhiteSpace c = false.
Proof.
  unfold isDigit, isWhiteSpace. intro H.
  apply andb_prop in H. destruct H as [H1 H2].
  apply N.leb_le in H1. apply N.leb_le in H2.
  repeat match goal with
         | |- context [(?a <=? ?b)%N] => destruct (N.leb_spec a b)
         | |- context [(?a =? ?b)%N] => destruct (N.eqb_spec a b)
         end; simpl; try reflexivity; lia.
Qed.

(** The digits written for [n]: digits only, at least one, read back as
    [n]. *)
Lemma digit_code (m : N) : (m < 10)%N -> isDigit (48 + m) = true.
Proof.
  intro H. unfold isDigit. apply andb_true_intro.
  split; apply N.leb_le; lia.
Qed.

(** A number below ten is written with one digit. *)
Lemma one_digit (n : N) (acc : JsString) :
  (n < 10)%N ->
  exists ds,
    (48 + n)%N :: acc = ds ++ acc
    /\ forallb isDigit ds = true
    /\ ds <> []
    /\ forall a, readAll ds a
                 = (a * 10 ^ Z.of_nat (List.length ds) + Z.of_N n)%Z.
Proof.
  intro Hn. exists [(48 + n)%N]. split; [reflexivity|].
  split; [cbn [forallb]; now rewrite digit_code|].
  split; [discriminate|].
  intro a. unfold readAll, digitVal. cbn [fold_left List.length].
  change (Z.of_nat 1) with 1%Z. rewrite Z.pow_1_r. lia.
Qed.

Lemma digitsFuel_spec (fuel : nat) :
  forall (n : N) (acc : JsString),
    (n < 2 ^ N.of_nat (S fuel))%N ->
    exists ds,
      digitsFuel (S fuel) n acc = ds ++ acc
      /\ forallb isDigit ds = true
      /\ ds <> []
      /\ forall a, readAll ds a
                   = (a * 10 ^ Z.of_nat (List.length ds) + Z.of_N n)%Z.
Proof.
  induction fuel as [|fuel IH]; intros n acc Hn.
  - assert (Hsmall : (n < 10)%N) by (simpl in Hn; lia).
    cbn [digitsFuel].
    rewrite (N.div_small n 10 Hsmall), (N.mod_small n 10 Hsmall).
    cbn [N.eqb]. now apply one_digit.
  - remember (S fuel) as k eqn:Hk. cbn [digitsFuel].
    pose proof (N.div_mod n 10 ltac:(discriminate)) as Hdm.
    assert (Hmod : (n mod 10 < 10)%N) by (apply N.mod_lt; discriminate).
    remember (n / 10)%N as q eqn:Hq. remember (n mod 10)%N as m eqn:Hm.
    destruct (N.eqb_spec q 0) as [Hz|Hnz].
    + replace n with m by lia. now apply one_digit.
    + destruct (IH q ((48 + m)%N :: acc)) as (ds & Hds & Hall & Hne & Hval).
      { rewrite Nat2N.inj_succ, N.pow_succ_r' in Hn.
        remember (2 ^ N.of_nat k)%N as bound. clear - Hn Hdm. lia. }
      exists (ds ++ [(48 + m)%N]).
      split; [rewrite Hds; now rewrite <- app_assoc|].
      split; [rewrite forallb_app, Hall; cbn [forallb andb];
              now rewrite digit_code|].
      split; [now destruct ds|].
      intro a. unfold readAll in *. rewrite fold_left_app, Hval.
      cbn [fold_left]. rewrite length_app. cbn [List.length].
      unfold digitVal.
      replace (Z.of_nat (List.length ds + 1))
        with (Z.succ (Z.of_nat (List.length ds))) by lia.
      rewrite Z.pow_succ_r by lia.
      remember (10 ^ Z.of_nat (List.length ds))%Z as p.
      clear - Hdm. nia.
Qed.

Lemma digits_spec (n : N) :
  exists ds,
    digits n = ds
    /\ forallb isDigit ds = true
    /\ ds <> []
    /\ readAll ds 0 = Z.of_N n.
Proof.
  unfold digits.
  destruct (@digitsFuel_spec (N.to_nat (N.log2 n)) n [])
    as (ds & Hds & Hall & Hne & Hval).
  - rewrite Nat2N.inj_succ, N2Nat.id.
    destruct n as [|p]; [reflexivity|].
    apply N.log2_spec. lia.
  - exists ds. rewrite Hds, app_nil_r. repeat split; try assumption.
    rewrite Hval. lia.
Qed.

(** A text made of digits only has nothing to trim. *)
Lemma trim_digits (ds : JsString) :
  forallb isDigit ds = true -> trim ds = ds.
Proof.
  intro H. unfold trim, trimEnd.
  assert (Hstart : forall s, forallb isDigit s = true -> trimStart s = s).
  { intros [|c s] Hs; [reflexivity|]. simpl in Hs.
    apply andb_prop in Hs. destruct Hs as [Hc _].
    simpl. now rewrite (digit_not_space _ Hc). }
  rewrite (Hstart ds H), Hstart, rev_involutive; [reflexivity|].
  rewrite forallb_forall in *. intros c Hc. apply H. now apply in_rev.
Qed.

(** [parseInt] reads back the decimal writing of a number. *)
Lemma parseInt10_digits (n : N) :
  parseInt10 (trim (digits n)) = Some (Z.of_N n).
Proof.
  destruct (digits_spec n) as (ds & -> & Hall & Hne & Hval).
  rewrite trim_digits by assumption.
  unfold parseInt10.
  assert (Hstart : trimStart ds = ds).
  { destruct ds as [|c s]; [reflexivity|]. simpl in Hall.
    apply andb_prop in Hall. destruct Hall as [Hc _].
    simpl. now rewrite (digit_not_space _ Hc). }
  rewrite Hstart.
  destruct ds as [|c s]; [congruence|].
  assert (Hc : isDigit c = true).
  { simpl in Hall. now apply andb_prop in Hall as [Hc _]. }
  assert (Hsign : c <> 45%N /\ c <> 43%N).
  { unfold isDigit in Hc. apply andb_prop in Hc. destruct Hc as [H1 _].
    apply N.leb_le in H1. lia. }
  destruct Hsign as [H45 H43].
  assert (Hread : readDigits (c :: s) 0 false = (Z.of_N n, true)).
  { rewrite <- (app_nil_r (c :: s)), readDigits_app by assumption.
    cbn [readDigits]. now rewrite Hval. }
  destruct c as [|p]; [now rewrite Hread|].
  do 6 (destruct p as [p|p|]; try (now rewrite Hread));
    congruence.
Qed.

End Decimal.

(** C9 on the decimal writing of any positive N: the last N entries go,
  or all of them when there are fewer. *)
Lemma delete_last_decimal (session : Session) (n : positive) :
let session' := fst (deleteLastMessages (digits (Npos n)) session) in
history session'
= firstn (List.length (history session) - Pos.to_nat n) (history session)
/\ memories session' = memories session.
Proof.
intro session'. subst session'. unfold deleteLastMessages.
rewrite parseInt10_digits. change (Z.of_N (N.pos n)) with (Z.pos n).
destruct (Z.leb_spec (Z.pos n) 0); [lia|].
destruct (history session) as [|t h] eqn:E.
- cbn [fst setAwaiting history memories]. rewrite E.
  split; [now destruct (List.length (@nil Turn) - Pos.to_nat n)|reflexivity].
- cbn [fst setAwaiting setHistory setHistoryMemories history memories].
  rewrite splice_negative by lia. now rewrite Z2Nat.inj_pos.
Qed.

(* ================================================================== *)
(** * The assistant turn *)
(* ================================================================== *)


(** The counter after [maybeSummarize]. *)
Lemma maybeSummarize_counter env session w :
  messageCountSinceSummary (fst (maybeSummarize env session w))
  = (if (30 <=? messageCountSinceSummary session)%Z then 0
     else messageCountSinceSummary session)%Z.
Proof.
  unfold maybeSummarize.
  destruct (30 <=? messageCountSinceSummary session)%Z; [|reflexivity].
  now destruct (generateSummary env session w) as [[s' lg] w'].
Qed.

(** The world after [maybeSummarize] below thirty turns. *)
Lemma maybeSummarize_below env session w :
  (messageCountSinceSummary session < 30)%Z ->
  maybeSummarize env session w = (session, w).
Proof.
  intro H. unfold maybeSummarize.
  now destruct (Z.leb_spec 30 (messageCountSinceSummary session)); [lia|].
Qed.

(** [finish] in one formula. *)
Lemma finish_result env session userName userContent messageDate botReply
    dflt w :
  let u := {| role := userName; content := userContent; date := messageDate |} in
  let b := {| role := assistantName; content := botReply;
              date := toLocaleString env (clock env (ticks w)) |} in
  let w1 := {| ticks := S (ticks w); summaryCalls := summaryCalls w |} in
  let after := maybeSummarize env (appendTurns session u b) w1 in
  finish env session userName userContent messageDate botReply dflt w
  = (Some {| userTurn := u; botTurn := b; appended := appendTurns session u b |},
     fst after,
     match sendLongMessageError env (ticks (snd after)) botReply with
     | None => [SendLong botReply]
     | Some error => [SendLong botReply; Reply (errorMessage dflt error)]
     end,
     snd after).
Proof.
  intros u b w1 after. unfold finish, newDate. fold u b w1. fold after.
  now destruct after.
Qed.



(* ================================================================== *)
(** * More on the dispatch engine *)
(* ================================================================== *)

(** The waits of a linear backoff: [delay], [delay + 1000], ... *)
Lemma backoff_shift (delay : Z) (n : nat) :
  delay :: map (fun i => (delay + 1000 + 1000 * Z.of_nat i)%Z) (seq 0 n)
  = map (fun i => (delay + 1000 * Z.of_nat i)%Z) (seq 0 (S n)).
Proof.
  cbn [seq map]. f_equal; [f_equal; lia|].
  rewrite <- seq_shift, map_map. apply map_ext. intro i. lia.
Qed.

Section RetryShape.

Variable model : Model.
Variable contents : Contents.
Variable retries : nat.

(** Whatever the model does, the loop makes at least one call and no more
    than it has turns left, and it waits between two calls only, each wait
    one second longer than the one before. *)
Lemma retryLoop_shape :
  forall remaining attempt delay served,
    attempt + remaining = retries ->
    let run := retryLoop model contents retries (S remaining) attempt delay served in
    1 <= calls run <= S remaining
    /\ waits run
       = map (fun i => (delay + 1000 * Z.of_nat i)%Z) (seq 0 (calls run - 1)).
Proof.
  induction remaining as [|k IH]; intros attempt delay served Hinv run; subst run.
  - cbn [retryLoop]. destruct (model served contents) as [r|e];
      [cbn; split; [lia | reflexivity]|].
    replace attempt with retries by lia.
    rewrite Nat.ltb_irrefl, andb_false_r. cbn. split; [lia | reflexivity].
  - remember (S k) as k1 eqn:Hk. cbn [retryLoop].
    destruct (model served contents) as [r|e];
      [cbn; split; [lia | reflexivity]|].
    destruct (isTransient e && (attempt <? retries)) eqn:E;
      [|cbn; split; [lia | reflexivity]].
    subst k1. cbn [calls waits].
    destruct (IH (S attempt) (delay + 1000)%Z (S served)) as [Hc Hw]; [lia|].
    split; [lia|]. rewrite Hw.
    replace (S (calls (retryLoop model contents retries (S k) (S attempt)
                         (delay + 1000) (S served))) - 1)
      with (S (calls (retryLoop model contents retries (S k) (S attempt)
                        (delay + 1000) (S served)) - 1)) by lia.
    apply backoff_shift.
Qed.

(** After [j] transient failures with attempts left, the loop goes on as
    if it started at the next call, [j] waits later. *)
Lemma retryLoop_skip :
  forall j remaining attempt delay served,
    attempt + j <= retries ->
    (forall k, k < j ->
               exists e, model (served + k) contents = Thrown e
                         /\ isTransient e = true) ->
    retryLoop model contents retries (j + S remaining) attempt delay served
    = let rest := retryLoop model contents retries (S remaining) (attempt + j)
                    (delay + 1000 * Z.of_nat j) (served + j) in
      {| completion := completion rest;
         calls := j + calls rest;
         waits := map (fun i => (delay + 1000 * Z.of_nat i)%Z) (seq 0 j)
                  ++ waits rest |}.
Proof.
  induction j as [|j IH]; intros remaining attempt delay served Hle Hfail.
  - cbn [plus seq map app]. rewrite !Nat.add_0_r.
    replace (delay + 1000 * Z.of_nat 0)%Z with delay by lia.
    now destruct (retryLoop model contents retries (S remaining) attempt delay served).
  - destruct (Hfail 0) as (e & He & Ht); [lia|]. rewrite Nat.add_0_r in He.
    replace (S j + S remaining) with (S (j + S remaining)) by lia.
    rewrite retryLoop_transient with (e := e) by first [assumption | lia].
    cbv zeta. rewrite IH.
    + cbv zeta. cbn [completion calls waits].
      replace (S attempt + j) with (attempt + S j) by lia.
      replace (S served + j) with (served + S j) by lia.
      replace (delay + 1000 + 1000 * Z.of_nat j)%Z
        with (delay + 1000 * Z.of_nat (S j))%Z by lia.
      f_equal. rewrite app_comm_cons. f_equal. apply backoff_shift.
    + lia.
    + intros k Hk. destruct (Hfail (S k)) as (e' & He' & Ht'); [lia|].
      exists e'. split; [|assumption].
      now replace (S served + k) with (served + S k) by lia.
Qed.

End RetryShape.

(** X1. With a budget of at least one attempt, [generateResponseWithRetry]
    makes between one call and [retries] calls, never returns [undefined],
    and waits only between two calls: [initialDelay], then one second more
    each time. *)
Theorem retry_bounds :
  forall (model : Model) (contents : Contents) (retries : nat)
         (initialDelay : Z) (served : nat),
    0 < retries ->
    let run := generateResponseWithRetry model contents retries initialDelay served in
    1 <= calls run <= retries
    /\ completion run <> Returned None
    /\ waits run
       = map (fun i => (initialDelay + 1000 * Z.of_nat i)%Z)
           (seq 0 (calls run - 1)).
Proof.
  intros model contents retries initialDelay served Hpos run. subst run.
  unfold generateResponseWithRetry.
  destruct retries as [|k]; [lia|].
  destruct (@retryLoop_shape model contents (S k) k 1 initialDelay served)
    as [Hc Hw]; [lia|].
  split; [exact Hc|]. split; [|exact Hw].
  apply retryLoop_defined. lia.
Qed.

Lemma retry_bounds_witness :
  calls (generateResponseWithRetry flakyModel [Text (js "Hi")] 5 1000 0) = 3
  /\ waits (generateResponseWithRetry flakyModel [Text (js "Hi")] 5 1000 0)
     = [1000; 2000]%Z.
Proof.
  destruct (@retry_bounds flakyModel [Text (js "Hi")] 5 1000%Z 0) as (_ & _ & H);
    [lia|].
  split; [reflexivity | exact H].
Defined.

(** X2. A budget used up: when the first [retries - 1] calls all fail with
    status 503 or 429, the function makes exactly [retries] calls and ends
    as the last call does, with its error if it throws, whatever that error
    is, and with its result if it answers. *)
Theorem retry_last_attempt_decides :
  forall (model : Model) (contents : Contents) (retries : nat)
         (initialDelay : Z) (served : nat),
    0 < retries ->
    (forall k, k < retries - 1 ->
               exists e, model (served + k) contents = Thrown e
                         /\ isTransient e = true) ->
    generateResponseWithRetry model contents retries initialDelay served
    = {| completion :=
           match model (served + (retries - 1)) contents with
           | Returned r => Returned (Some r)
           | Thrown e => Thrown e
           end;
         calls := retries;
         waits := map (fun i => (initialDelay + 1000 * Z.of_nat i)%Z)
                    (seq 0 (retries - 1)) |}.
Proof.
  intros model contents retries initialDelay served Hpos Hfail.
  unfold generateResponseWithRetry.
  replace retries with ((retries - 1) + 1) at 2 by lia.
  rewrite retryLoop_skip by first [assumption | lia]. cbv zeta.
  replace (1 + (retries - 1)) with retries by lia.
  cbn [retryLoop].
  destruct (model (served + (retries - 1)) contents) as [r|e].
  - cbn [completion calls waits]. rewrite app_nil_r.
    f_equal. lia.
  - rewrite Nat.ltb_irrefl, andb_false_r. cbn [completion calls waits].
    rewrite app_nil_r. f_equal. lia.
Qed.

Lemma retry_last_attempt_decides_witness :
  generateResponseWithRetry downModel [Text (js "Hi")] 3 1000 0
  = {| completion := Thrown unavailable; calls := 3; waits := [1000; 2000]%Z |}.
Proof.
  apply (@retry_last_attempt_decides downModel [Text (js "Hi")] 3 1000%Z 0).
  - lia.
  - intros k _. exists unavailable. split; reflexivity.
Defined.

(** X3. The first answer wins: when the calls before the [j]-th all fail
    with status 503 or 429 and [j] is within the budget, the function ends
    as the [j]-th call does if that call answers, after [j + 1] calls. *)
Theorem retry_first_answer :
  forall (model : Model) (contents : Contents) (retries : nat)
         (initialDelay : Z) (served j : nat) (r : GenResult),
    j < retries ->
    (forall k, k < j ->
               exists e, model (served + k) contents = Thrown e
                         /\ isTransient e = true) ->
    model (served + j) contents = Returned r ->
    generateResponseWithRetry model contents retries initialDelay served
    = {| completion := Returned (Some r);
         calls := S j;
         waits := map (fun i => (initialDelay + 1000 * Z.of_nat i)%Z) (seq 0 j) |}.
Proof.
  intros model contents retries initialDelay served j r Hj Hfail Hr.
  unfold generateResponseWithRetry.
  replace retries with (j + S (retries - S j)) at 2 by lia.
  rewrite retryLoop_skip by first [assumption | lia]. cbv zeta.
  rewrite retryLoop_success with (r := r) by assumption.
  cbn [completion calls waits]. rewrite app_nil_r. f_equal. lia.
Qed.

Lemma retry_first_answer_witness :
  generateResponseWithRetry flakyModel [Text (js "Hi")] 4 500 0
  = {| completion := Returned (Some (answer "Hello")); calls := 3;
       waits := [500; 1500]%Z |}.
Proof.
  apply (@retry_first_answer flakyModel [Text (js "Hi")] 4 500%Z 0 2 (answer "Hello")).
  - lia.
  - intros [|[|k]] Hk.
    + exists unavailable. split; reflexivity.
    + exists rateLimited. split; reflexivity.
    + lia.
  - reflexivity.
Defined.

(** X4. What the user reads after a failed dispatch.  An error of status
    503 reaches the handler as "the service is unavailable", one of status
    429 as "too many requests".  An error that carries the block reason
    PROHIBITED_CONTENT (and neither status) is rewritten by
    [generateGeminiResponse] into a message that the handler does not
    recognise: the user reads the default message of the handler, not the
    one about prohibited content. *)
Theorem error_reply_classes :
  forall (dflt : JsString) (error : Error),
    (status error = Some 503%Z ->
     errorMessage dflt (rethrow error) = js "Извини, сервис временно недоступен.")
    /\ (status error = Some 429%Z ->
        errorMessage dflt (rethrow error)
        = js "Извини, слишком много запросов. Попробуй позже.")
    /\ (status error <> Some 503%Z -> status error <> Some 429%Z ->
        blockReason error = Some (js "PROHIBITED_CONTENT") ->
        errorMessage dflt (rethrow error) = dflt).
Proof.
  intros dflt error. split; [|split].
  - intro H. unfold rethrow. rewrite H. reflexivity.
  - intro H. unfold rethrow. rewrite H. reflexivity.
  - intros H1 H2 Hb. unfold rethrow. rewrite Hb.
    destruct (status error) as [s|].
    + destruct (Z.eqb_spec s 503); [subst; congruence|].
      destruct (Z.eqb_spec s 429); [subst; congruence|].
      reflexivity.
    + reflexivity.
Qed.

Lemma error_reply_classes_witness :
  errorMessage (js "Произошла ошибка. Попробуй чуть позже.") (rethrow unavailable)
  = js "Извини, сервис временно недоступен."
  /\ errorMessage (js "Произошла ошибка. Попробуй чуть позже.") (rethrow rateLimited)
     = js "Извини, слишком много запросов. Попробуй позже."
  /\ errorMessage (js "Произошла ошибка. Попробуй чуть позже.") (rethrow blocked)
     = js "Произошла ошибка. Попробуй чуть позже.".
Proof.
  destruct (error_reply_classes (js "Произошла ошибка. Попробуй чуть позже.") unavailable)
    as (H1 & _ & _).
  destruct (error_reply_classes (js "Произошла ошибка. Попробуй чуть позже.") rateLimited)
    as (_ & H2 & _).
  destruct (error_reply_classes (js "Произошла ошибка. Попробуй чуть позже.") blocked)
    as (_ & _ & H3).
  split; [apply H1; reflexivity|].
  split; [apply H2; reflexivity|].
  apply H3; first [discriminate | reflexivity].
Defined.

(** The three-attempt loop of the interactive path never returns
    [undefined] and makes one to three calls. *)
Lemma retry_bounds_aux (model : Model) (contents : Contents) (served : nat) :
  completion (generateResponseWithRetry model contents 3 1000 served)
  <> Returned None
  /\ 1 <= calls (generateResponseWithRetry model contents 3 1000 served) <= 3.
Proof.
  unfold generateResponseWithRetry.
  destruct (@retryLoop_shape model contents 3 2 1 1000%Z served) as [Hc _];
    [lia|].
  split; [apply retryLoop_defined; lia | exact Hc].
Qed.

(** [generateGeminiResponse] keeps the calls and the completion kind of
    its three-attempt loop. *)
Lemma generateGeminiResponse_calls (model : Model) (contents : Contents)
    (served : nat) :
  calls (generateGeminiResponse model contents served)
  = calls (generateResponseWithRetry model contents 3 1000 served)
  /\ completion (generateGeminiResponse model contents served) <> Returned None.
Proof.
  unfold generateGeminiResponse.
  destruct (@retry_bounds_aux model contents served) as [Hdef _].
  destruct (completion (generateResponseWithRetry model contents 3 1000 served))
    as [result|error] eqn:E.
  - split; [reflexivity | now rewrite E].
  - split; [reflexivity | discriminate].
Qed.

(** X5. The fallback spends at most three calls on each model and never
    returns [undefined].  When the main model ends with an answer, the
    backup is not called at all and the answer is returned as the main
    model gave it; the backup is called only after the main model threw,
    and an answer of the backup is the only result that carries
    [usedBackupModel]. *)
Theorem backup_call_budget :
  forall (env : Env) (session : Session) (contents : Contents),
    let run := generateResponseWithBackup env session contents in
    let mainRun := generateGeminiResponse (mainOf env session) contents 0 in
    1 <= mainCalls run <= 3
    /\ backupCalls run <= 3
    /\ outcome run <> Returned None
    /\ (forall result,
           completion mainRun = Returned result ->
           outcome run = Returned result /\ backupCalls run = 0)
    /\ (0 < backupCalls run -> exists error, completion mainRun = Thrown error).
Proof.
  intros env session contents run mainRun. subst run mainRun.
  unfold generateResponseWithBackup.
  destruct (generateGeminiResponse_calls (mainOf env session) contents 0)
    as [Hmc Hmd].
  destruct (generateGeminiResponse_calls (backupOf env session) contents 0)
    as [Hbc Hbd].
  destruct (@retry_bounds_aux (mainOf env session) contents 0) as [_ Hm].
  destruct (@retry_bounds_aux (backupOf env session) contents 0) as [_ Hb].
  destruct (completion (generateGeminiResponse (mainOf env session) contents 0))
    as [result|error] eqn:E; cbn [outcome mainCalls backupCalls].
  - split; [lia|]. split; [lia|]. split; [exact Hmd|].
    split; [intros r Hr; injection Hr as <-; now split | lia].
  - split; [lia|]. split; [lia|]. split.
    + destruct (completion (generateGeminiResponse (backupOf env session) contents 0))
        as [[r|]|e]; discriminate.
    + split; [discriminate|]. intros _. now exists error.
Qed.

(** The main model rejects the request and the backup answers at once;
    then a main model that answers. *)
Lemma backup_call_budget_witness :
  (exists error,
      completion (generateGeminiResponse (mainOf envBackupAnswers newSession)
                    [Text (js "Hi")] 0) = Thrown error)
  /\ backupCalls (generateResponseWithBackup envSteady newSession [Text (js "Hi")]) = 0.
Proof.
  destruct (backup_call_budget envBackupAnswers newSession [Text (js "Hi")])
    as (_ & _ & _ & _ & H1).
  destruct (backup_call_budget envSteady newSession [Text (js "Hi")])
    as (_ & _ & _ & H2 & _).
  split.
  - apply H1. vm_compute. lia.
  - apply (H2 (Some (answer "Hi"))). reflexivity.
Defined.

(* ================================================================== *)
(** * More on the grouping and on the consolidator *)
(* ================================================================== *)

Section Flatten.

(** The messages of all the groups, group after group. *)
Lemma flat_set_present (o : Obj.t (list Turn)) (k : JsString)
    (group : list Turn) (msg : Turn) :
  Obj.get o k = Some group ->
  Permutation (List.concat (map snd (Obj.set o k (group ++ [msg]))))
    (msg :: List.concat (map snd o)).
Proof.
  induction o as [|[k' g'] o IH]; cbn [Obj.get Obj.set]; [discriminate|].
  destruct (str_eq_dec k k') as [E|E]; intro H.
  - injection H as ->. cbn [map snd List.concat].
    rewrite <- app_assoc. apply Permutation_sym.
    apply (Permutation_middle group (List.concat (map snd o)) msg).
  - cbn [map snd List.concat]. specialize (IH H).
    apply Permutation_trans with (g' ++ msg :: List.concat (map snd o)).
    + now apply Permutation_app_head.
    + apply Permutation_sym, Permutation_middle.
Qed.

Lemma flat_set_absent (o : Obj.t (list Turn)) (k : JsString) (group : list Turn) :
  Obj.get o k = None ->
  List.concat (map snd (Obj.set o k group)) = List.concat (map snd o) ++ group.
Proof.
  induction o as [|[k' g'] o IH]; cbn [Obj.get Obj.set].
  - intros _. cbn. now rewrite app_nil_r.
  - destruct (str_eq_dec k k') as [E|E]; [discriminate|].
    intro H. cbn [map snd List.concat]. rewrite (IH H). now rewrite app_assoc.
Qed.

Lemma flat_groupStep (g : Obj.t (list Turn)) (msg : Turn) :
  Permutation (List.concat (map snd (groupStep g msg))) (msg :: List.concat (map snd g)).
Proof.
  unfold groupStep, push.
  destruct (Obj.get g (dayOf msg)) as [group|] eqn:G.
  - rewrite G. now apply flat_set_present.
  - rewrite get_set_same.
    apply Permutation_trans
      with (msg :: List.concat (map snd (Obj.set g (dayOf msg) []))).
    + apply (@flat_set_present _ (dayOf msg) [] msg). apply get_set_same.
    + rewrite flat_set_absent by assumption. now rewrite app_nil_r.
Qed.

Lemma flat_group_fold (messages : list Turn) :
  forall g : Obj.t (list Turn),
    Permutation (List.concat (map snd (fold_left groupStep messages g)))
      (List.concat (map snd g) ++ messages).
Proof.
  induction messages as [|msg messages IH]; intro g; cbn [fold_left].
  - now rewrite app_nil_r.
  - apply Permutation_trans with (List.concat (map snd (groupStep g msg)) ++ messages);
      [apply IH|].
    apply Permutation_trans with ((msg :: List.concat (map snd g)) ++ messages).
    + apply Permutation_app_tail, flat_groupStep.
    + cbn [app]. apply Permutation_middle.
Qed.

End Flatten.

(** X6. [groupMessagesByDay] sorts the messages by day and loses none:
    the group of a day holds the messages of that day in the order they
    had, a day without message has no group, no group is empty, no day
    has two groups, and the groups together are the messages given, each
    once. *)
Theorem groups_by_day :
  forall (messages : list Turn),
    let grouped := groupMessagesByDay messages in
    (forall d,
        Obj.get grouped d
        = match filter (onDay d) messages with
          | [] => None
          | l => Some l
          end)
    /\ (forall d group,
           Obj.get grouped d = Some group ->
           group <> [] /\ forall t, In t group -> dayOf t = d)
    /\ NoDup (Obj.keys grouped)
    /\ Permutation (List.concat (map snd (Obj.entries grouped))) messages.
Proof.
  intros messages grouped. subst grouped.
  split; [apply groupMessagesByDay_get|].
  split; [|split; [apply groupMessagesByDay_NoDup|]].
  - intros d group H. rewrite groupMessagesByDay_get in H.
    destruct (filter (onDay d) messages) as [|t l] eqn:E; [discriminate|].
    injection H as <-. split; [discriminate|].
    intros t' Ht'. rewrite <- E in Ht'. apply filter_In in Ht'.
    now apply str_eqb_eq.
  - unfold groupMessagesByDay, Obj.entries.
    apply (flat_group_fold messages []).
Qed.

Section Pass.

Variable env : Env.
Variable today : JsString.

(** Whatever it does, one turn of the loop keeps the entries there are,
    logs one call at most, and reads the clock or not. *)
Lemma summarizeDay_grows (group : JsString * list Turn) (st st' : SumState)
    (c : Completion unit) :
  summarizeDay env today group st = (c, st') ->
  (forall k, In k (Obj.keys (mem st)) -> In k (Obj.keys (mem st')))
  /\ exists new,
       summaryCalls (world st') = summaryCalls (world st) ++ new
       /\ List.length new <= 1.
Proof.
  destruct group as [date messages].
  destruct (needsSummary (mem st) date today) eqn:N.
  - rewrite summarizeDay_run by assumption. cbv zeta.
    destruct (match summarizationModel env _ _ with
              | Returned r => responseOf date (Some r)
              | Thrown e => Thrown e
              end) as [summary|e]; intro H; injection H as _ <-; cbn [mem world].
    + split; [intros k Hk; apply keys_set_In; now right|].
      eexists. split; [reflexivity | cbn; lia].
    + split; [trivial|]. eexists. split; [reflexivity | cbn; lia].
  - rewrite summarizeDay_skip by assumption.
    intro H. injection H as _ <-. split; [trivial|].
    exists []. split; [now rewrite app_nil_r | cbn; lia].
Qed.

Lemma forEach_grows (groups : list (JsString * list Turn)) :
  forall (st st' : SumState) (c : Completion unit),
    forEach (summarizeDay env today) groups st = (c, st') ->
    (forall k, In k (Obj.keys (mem st)) -> In k (Obj.keys (mem st')))
    /\ exists new,
         summaryCalls (world st') = summaryCalls (world st) ++ new
         /\ List.length new <= List.length groups.
Proof.
  induction groups as [|g groups IH]; intros st st' c H.
  - cbn [forEach] in H. unfold ret in H. injection H as _ <-.
    split; [trivial|]. exists []. split; [now rewrite app_nil_r | cbn; lia].
  - rewrite forEach_cons in H.
    destruct (summarizeDay env today g st) as [[u|e] st1] eqn:E;
      apply summarizeDay_grows in E; destruct E as (K1 & new1 & C1 & L1).
    + apply IH in H. destruct H as (K2 & new2 & C2 & L2).
      split; [intros k Hk; now apply K2, K1|].
      exists (new1 ++ new2). split.
      * rewrite C2, C1. now rewrite app_assoc.
      * rewrite length_app. cbn [List.length]. lia.
    + injection H as _ <-. split; [exact K1|].
      exists new1. split; [exact C1 | cbn [List.length]; lia].
Qed.

(** Days that need no summary are all passed over. *)
Lemma forEach_nothing_to_do (groups : list (JsString * list Turn)) :
  forall st : SumState,
    (forall d, In d (map fst groups) -> needsSummary (mem st) d today = false) ->
    forEach (summarizeDay env today) groups st = (Returned tt, st).
Proof.
  induction groups as [|[date messages] groups IH]; intros st H;
    [reflexivity|].
  rewrite forEach_cons, summarizeDay_skip by (apply H; now left).
  apply IH. intros d Hd. apply H. now right.
Qed.

End Pass.

(** X7. Whether it completes or is stopped by an exception, a run of
    [generateSummary] keeps every day that has an entry in [memories],
    leaves in [history] only turns that were there, leaves the settings
    and the counter alone, and asks the summarization model at most once
    per day of the history, the calls made before staying in the log. *)
Theorem consolidation_footprint :
  forall (env : Env) (session : Session) (w : World)
         (session' : Session) (log : SummaryLog) (w' : World),
    generateSummary env session w = (session', log, w') ->
    (forall k, In k (Obj.keys (memories session)) ->
               In k (Obj.keys (memories session')))
    /\ (forall t, In t (history session') -> In t (history session))
    /\ (exists new,
           summaryCalls w' = summaryCalls w ++ new
           /\ List.length new
              <= List.length (Obj.keys (groupMessagesByDay (history session))))
    /\ setHistoryMemories session' (history session) (memories session) = session.
Proof.
  intros env session w session' log w' H. unfold generateSummary in H.
  destruct (history session) as [|t h] eqn:Hh.
  - injection H as <- _ <-. rewrite Hh.
    split; [trivial|]. split; [trivial|]. split.
    + exists []. split; [now rewrite app_nil_r | cbn; lia].
    + rewrite <- Hh. now destruct session.
  - unfold newDate in H. loop_cases H u e st E;
      apply forEach_grows in E; destruct E as (K & new & C & L);
      cbn [mem world summaryCalls] in K, C;
      injection H as <- _ <-; cbn [history memories setHistoryMemories].
    + split; [exact K|]. split.
      * intros t' Ht'. rewrite groupMessagesByDay_get in Ht'.
        destruct (filter (onDay _) (t :: h)) as [|a l] eqn:F;
          [contradiction|].
        rewrite <- F in Ht'. now apply filter_In in Ht'.
      * split.
        -- exists new. split; [exact C|].
           unfold Obj.keys. rewrite length_map. exact L.
        -- rewrite <- Hh. now destruct session.
    + split; [exact K|]. split; [trivial|]. split.
      * exists new. split; [exact C|].
        unfold Obj.keys. rewrite length_map. exact L.
      * rewrite <- Hh. now destruct session.
Qed.

(** X8. Nothing to summarize: when every day of the history has a
    populated memory and is not today, a run completes without any call to
    the model, leaves [memories] as it was, and empties [history]: the old
    turns are dropped all the same. *)
Theorem consolidation_nothing_to_do :
  forall (env : Env) (session : Session) (w : World),
    history session <> [] ->
    (forall t, In t (history session) ->
               needsSummary (memories session) (dayOf t)
                 (toLocaleDateString_ruRU (clock env (ticks w))) = false) ->
    generateSummary env session w
    = (setHistoryMemories session [] (memories session), LogSuccess,
       {| ticks := S (ticks w); summaryCalls := summaryCalls w |}).
Proof.
  intros env session w Hne Hdone. unfold generateSummary.
  destruct (history session) as [|t h] eqn:Hh; [congruence|].
  unfold newDate. rewrite forEach_nothing_to_do.
  - cbn [mem world]. rewrite groupMessagesByDay_get.
    assert (F : filter (onDay (toLocaleDateString_ruRU (clock env (ticks w)))) (t :: h) = []).
    { apply filter_onDay_nil. intros t' Ht' E.
      specialize (Hdone t' Ht'). unfold needsSummary in Hdone.
      destruct (Obj.get (memories session) (dayOf t')); [|discriminate].
      apply orb_false_elim in Hdone. destruct Hdone as [_ Hd].
      apply str_eqb_neq in Hd. contradiction. }
    now rewrite F.
  - cbn [mem]. intros d Hd.
    apply (groupMessagesByDay_keys (t :: h) d) in Hd.
    destruct Hd as (t' & Ht' & <-). now apply Hdone.
Qed.

Lemma consolidation_nothing_to_do_witness :
  generateSummary envFirstFails sessionSummarized world0
  = (setHistoryMemories sessionSummarized [] (memories sessionSummarized),
     LogSuccess, {| ticks := 1; summaryCalls := [] |}).
Proof.
  apply (consolidation_nothing_to_do envFirstFails sessionSummarized world0).
  - discriminate.
  - intros t Ht. vm_compute in Ht.
    destruct Ht as [<-|[<-|[]]]; reflexivity.
Defined.

Lemma groups_by_day_witness :
  firstn 2 historyTwoDays <> []
  /\ Obj.keys (groupMessagesByDay historyTwoDays)
     = [js "01.01.2024"; js "02.01.2024"].
Proof.
  destruct (groups_by_day historyTwoDays) as (_ & H & _).
  split; [|reflexivity].
  apply (H (js "01.01.2024") (firstn 2 historyTwoDays)). reflexivity.
Defined.

(** A pass stopped at its first day: the log has the one call more, the
    history is the one given. *)
Lemma consolidation_footprint_witness :
  setHistoryMemories
    (fst (fst (generateSummary envFirstFails sessionNoMemories world0)))
    (history sessionNoMemories) (memories sessionNoMemories)
  = sessionNoMemories.
Proof.
  destruct (@consolidation_footprint envFirstFails sessionNoMemories world0
              (fst (fst (generateSummary envFirstFails sessionNoMemories world0)))
              (LogError badRequest)
              (snd (generateSummary envFirstFails sessionNoMemories world0)))
    as (_ & _ & _ & H).
  - vm_compute. reflexivity.
  - exact H.
Defined.

(* ================================================================== *)
(** * More on the handlers *)
(* ================================================================== *)

Lemma filter_split_length (A : Type) (f : A -> bool) (l : list A) :
  List.length (filter (fun x => negb (f x)) l) + List.length (filter f l)
  = List.length l.
Proof.
  induction l as [|x l IH]; [reflexivity|].
  cbn [filter]. destruct (f x); cbn [negb List.length]; lia.
Qed.

Lemma filter_none (A : Type) (f : A -> bool) (l : list A) :
  (forall x, In x l -> f x = false) -> filter f l = [].
Proof.
  induction l as [|x l IH]; intro H; [reflexivity|].
  cbn [filter]. rewrite (H x) by now left.
  apply IH. intros y Hy. apply H. now right.
Qed.

(** What [delete_today_messages] leaves in [history]. *)
Lemma delete_today_history (env : Env) (session : Session) (w : World) :
  history (fst (fst (delete_today_messages env session w)))
  = filter (fun t => negb (onDay (toLocaleDateString_ruRU (clock env (ticks w))) t))
      (history session).
Proof.
  unfold delete_today_messages.
  destruct (history session) as [|t h] eqn:E; [cbn; now rewrite E|].
  reflexivity.
Qed.

(** X9. The deletion of today's messages removes the turns dated today and
    only them: what is left is the turns of the other days in the order
    they had, none of today; [memories] is untouched; and the turns it
    removes are the ones a completed consolidation would have kept. *)
Theorem delete_today_effect :
  forall (env : Env) (session : Session) (w : World),
    let session' := fst (fst (delete_today_messages env session w)) in
    let today := toLocaleDateString_ruRU (clock env (ticks w)) in
    history session' = filter (fun t => negb (onDay today t)) (history session)
    /\ (forall t, In t (history session') <->
                  In t (history session) /\ dayOf t <> today)
    /\ List.length (history session')
       + List.length (filter (onDay today) (history session))
       = List.length (history session)
    /\ memories session' = memories session.
Proof.
  intros env session w session' today.
  assert (Hh : history session'
               = filter (fun t => negb (onDay today t)) (history session))
    by apply delete_today_history.
  split; [exact Hh|]. split; [|split].
  - intro t. rewrite Hh, filter_In. unfold onDay.
    split; intros [H1 H2]; split; try assumption.
    + apply str_eqb_neq. now destruct (str_eqb (dayOf t) today).
    + apply str_eqb_neq in H2. now rewrite H2.
  - rewrite Hh. apply filter_split_length.
  - subst session'. unfold delete_today_messages.
    destruct (history session); reflexivity.
Qed.

(** X10. Consolidation and deletion of today's messages are complementary:
    on one and the same day, deleting today's messages after a completed
    consolidation leaves an empty history, and so does a consolidation that
    ends without a caught exception after today's messages were deleted. *)
Theorem delete_today_and_consolidation :
  forall (env : Env) (session : Session) (w : World),
    (forall s1 w1,
        generateSummary env session w = (s1, LogSuccess, w1) ->
        toLocaleDateString_ruRU (clock env (ticks w1))
        = toLocaleDateString_ruRU (clock env (ticks w)) ->
        history (fst (fst (delete_today_messages env s1 w1))) = [])
    /\
    (forall s2 log w2,
        generateSummary env
          (fst (fst (delete_today_messages env session w)))
          (snd (delete_today_messages env session w))
        = (s2, log, w2) ->
        (forall e, log <> LogError e) ->
        toLocaleDateString_ruRU
          (clock env (ticks (snd (delete_today_messages env session w))))
        = toLocaleDateString_ruRU (clock env (ticks w)) ->
        history s2 = []).
Proof.
  intros env session w. split.
  - intros s1 w1 H Hday.
    pose proof (delete_today_history env s1 w1) as Hd.
    rewrite Hd, Hday.
    destruct (generateSummary_success _ _ _ H) as (Hh & _).
    rewrite Hh. apply filter_none.
    intros t Ht. apply filter_In in Ht. destruct Ht as [_ Ht].
    now rewrite Ht.
  - intros s2 log w2 H Hlog Hday.
    pose proof (delete_today_history env session w) as Hd.
    destruct log as [| |e]; [| |exfalso; now apply (Hlog e)].
    + now apply generateSummary_empty_log in H as (-> & Hh & _).
    + destruct (generateSummary_success _ _ _ H) as (Hh & _).
      rewrite Hh, Hday, Hd. apply filter_none.
      intros t Ht. apply filter_In in Ht. destruct Ht as [_ Ht].
      now destruct (onDay _ t).
Qed.

Lemma delete_today_and_consolidation_witness :
  history
    (fst (fst (delete_today_messages envSteady
                 (fst (fst (generateSummary envSteady sessionTwoDays world0)))
                 (snd (generateSummary envSteady sessionTwoDays world0)))))
  = [].
Proof.
  destruct (delete_today_and_consolidation envSteady sessionTwoDays world0)
    as (H & _).
  apply H; vm_compute; reflexivity.
Defined.

(** Every handler that appends ends with [finish]; every one that does not
    has replied with one error message and left the session alone. *)
Ltac through_finish :=
  match goal with
  | |- context [newDate ?env ?w] =>
      let now := fresh "now" in
      let w0 := fresh "w" in
      destruct (newDate env w) as [now w0] eqn:?
  end;
  match goal with
  | |- context [botReplyOf ?env ?banner ?apology ?d] =>
      destruct (botReplyOf env banner apology d)
  end.

Lemma handleMessage_cases env userName msg sent session w :
  (exists userContent messageDate botReply dflt,
      handleMessage env userName msg sent session w
      = finish env session userName userContent messageDate botReply dflt
          (snd (newDate env w)))
  \/ (exists text,
         handleMessage env userName msg sent session w
         = (None, session, [Reply text], snd (newDate env w))).
Proof.
  destruct msg as [text | caption mimeType fileUri | mimeType fileUri | text];
    cbn [handleMessage].
  - unfold replyToText. through_finish;
      [left; eexists _, _, _, _; reflexivity | right; eexists; reflexivity].
  - unfold replyToPhoto. through_finish;
      [left; eexists _, _, _, _; reflexivity | right; eexists; reflexivity].
  - unfold replyToAudio. through_finish;
      [left; eexists _, _, _, _; reflexivity | right; eexists; reflexivity].
  - unfold replyToGroup. through_finish;
      [left; eexists _, _, _, _; reflexivity | right; eexists; reflexivity].
Qed.

(** [generateSummary] leaves the counter alone. *)
Lemma generateSummary_counter env session w :
  messageCountSinceSummary (fst (fst (generateSummary env session w)))
  = messageCountSinceSummary session.
Proof.
  unfold generateSummary. destruct (history session); [reflexivity|].
  unfold newDate.
  match goal with
  | |- context [forEach ?b ?l ?s] => destruct (forEach b l s) as [[u|e] st]
  end; reflexivity.
Qed.

(** X11. The [catch] of a message handler is entered in two ways.  When
    the dispatch gives no reply, nothing has been done yet: the session is
    the one found, the only thing sent is the error message, and the
    summarization model is not called.  When the reply is there and the
    platform rejects it, the error message follows the reply, but the
    session is not the one found: the turns are appended and the counter
    has moved, as for a reply that is delivered.  What the platform does
    with the reply changes neither the session left nor the world. *)
Theorem handler_catch_paths :
  forall (env : Env) (userName : JsString) (msg : Incoming) (sent : Date)
         (session : Session) (w : World),
    let result := handleMessage env userName msg sent session w in
    let session' := snd (fst (fst result)) in
    let reply :=
      botReplyOf env (hasBanner msg) (apologyOf msg)
        (dispatchOf env userName msg sent session w) in
    let c := messageCountSinceSummary session in
    (forall error,
        reply = Thrown error ->
        result = (None, session, [Reply (errorMessage (defaultOf msg) error)],
                  snd (newDate env w))
        /\ summaryCalls (snd result) = summaryCalls w)
    /\ (forall botReply error,
           reply = Returned botReply ->
           sendLongMessageError env (ticks (snd result)) botReply = Some error ->
           snd (fst result)
           = [SendLong botReply; Reply (errorMessage (defaultOf msg) error)]
           /\ session' <> session
           /\ messageCountSinceSummary session'
              = (if (30 <=? c + 2)%Z then 0 else c + 2)%Z
           /\ ((c + 2 < 30)%Z ->
               exists u b,
                 content b = botReply
                 /\ history session' = history session ++ [u; b]))
    /\ (forall platform,
           let other :=
             handleMessage (withPlatform env platform) userName msg sent
               session w in
           fst (fst (fst other)) = fst (fst (fst result))
           /\ snd (fst (fst other)) = session'
           /\ snd other = snd result)
    /\ (forall s out w',
           result = (None, s, out, w') ->
           s = session
           /\ (exists text, out = [Reply text])
           /\ summaryCalls w' = summaryCalls w).
Proof.
  intros env userName msg sent session w result session' reply c.
  assert (Hplatform : forall platform,
             let other :=
               handleMessage (withPlatform env platform) userName msg sent
                 session w in
             fst (fst (fst other)) = fst (fst (fst result))
             /\ snd (fst (fst other)) = session'
             /\ snd other = snd result).
  { intros platform other. subst other session' result.
    rewrite !handleMessage_spec.
    change (dispatchOf (withPlatform env platform) userName msg sent session w)
      with (dispatchOf env userName msg sent session w).
    change (botReplyOf (withPlatform env platform))
      with (botReplyOf env).
    destruct (botReplyOf env (hasBanner msg) (apologyOf msg)
                (dispatchOf env userName msg sent session w))
      as [botReply|error]; [|now repeat split].
    rewrite !finish_result. cbn [fst snd].
    change (toLocaleString (withPlatform env platform))
      with (toLocaleString env).
    change (clock (withPlatform env platform)) with (clock env).
    change (maybeSummarize (withPlatform env platform))
      with (maybeSummarize env).
    now repeat split. }
  assert (Hspec : result
                  = match reply with
                    | Returned botReply =>
                        finish env session userName (userContentOf msg)
                          (toLocaleString env sent) botReply (defaultOf msg)
                          (snd (newDate env w))
                    | Thrown error =>
                        (None, session,
                         [Reply (errorMessage (defaultOf msg) error)],
                         snd (newDate env w))
                    end)
    by apply handleMessage_spec.
  clearbody reply result.
  assert (Hcount : forall botReply,
             reply = Returned botReply ->
             messageCountSinceSummary session'
             = (if (30 <=? c + 2)%Z then 0 else c + 2)%Z).
  { intros botReply Hr. subst session'.
    rewrite Hspec, Hr, finish_result.
    cbn [fst snd]. now rewrite maybeSummarize_counter. }
  split; [|split; [|split; [exact Hplatform|]]].
  - intros error Hr. rewrite Hspec, Hr. split; reflexivity.
  - intros botReply error Hr Hs.
    pose proof (Hcount botReply Hr) as Hc.
    split; [|split; [|split; [exact Hc|]]].
    + rewrite Hspec, Hr, finish_result in Hs |- *. cbn [fst snd] in Hs |- *.
      now rewrite Hs.
    + intro E. rewrite E in Hc. fold c in Hc.
      destruct (Z.leb_spec 30 (c + 2)); lia.
    + intro Hlt. subst session'.
      rewrite Hspec, Hr, finish_result.
      cbn [fst snd]. rewrite maybeSummarize_below
        by (cbn [appendTurns messageCountSinceSummary]; exact Hlt).
      eexists _, {| role := assistantName; content := botReply;
                    date := toLocaleString env
                              (clock env (ticks (snd (newDate env w)))) |}.
      split; [reflexivity|].
      cbn [fst appendTurns history]. unfold push.
      rewrite <- app_assoc. reflexivity.
  - intros s out w' H. rewrite Hspec in H.
    destruct reply as [botReply|error].
    + rewrite finish_result in H. discriminate.
    + injection H as <- <- <-. split; [reflexivity|].
      split; [eexists; reflexivity | reflexivity].
Qed.

(** The models answer and the platform rejects the reply: the user reads
    the default error message, and the two turns are in the history. *)
Lemma handler_catch_paths_witness :
  snd (fst (handleMessage envSendFails (js "@ann") (TextMessage (js "Hello"))
              jan2 newSession world0))
  = [ SendLong (js "Hi");
      Reply (errorMessage (defaultOf (TextMessage (js "Hello"))) parseError) ].
Proof.
  destruct (handler_catch_paths envSendFails (js "@ann")
              (TextMessage (js "Hello")) jan2 newSession world0)
    as (_ & H & _).
  destruct (H (js "Hi") parseError) as (Ho & _);
    [vm_compute; reflexivity | vm_compute; reflexivity | exact Ho].
Defined.

(** X12. The counter of a session counts the turns appended since the last
    consolidation and is back at zero as soon as it reaches thirty: after a
    message that got its reply, it is two more than before, or zero when
    that makes thirty or more, whether the consolidation then started
    completed or not.  Below thirty no consolidation runs: the session is
    the one with the two turns appended, with the memories it had. *)
Theorem counter_cycle :
  forall (env : Env) (userName : JsString) (msg : Incoming) (sent : Date)
         (session session' : Session) (w w' : World) (out : list Out)
         (ex : Exchange),
    handleMessage env userName msg sent session w = (Some ex, session', out, w') ->
    let c := messageCountSinceSummary session in
    messageCountSinceSummary session' = (if (30 <=? c + 2)%Z then 0 else c + 2)%Z
    /\ ((c + 2 < 30)%Z ->
        session' = appended ex
        /\ history session' = history session ++ [userTurn ex; botTurn ex]
        /\ memories session' = memories session
        /\ summaryCalls w' = summaryCalls w)
    /\ ((0 <= c < 30)%Z -> (0 <= messageCountSinceSummary session' < 30)%Z).
Proof.
  intros env userName msg sent session session' w w' out ex H c.
  destruct (handleMessage_cases env userName msg sent session w)
    as [(uc & md & br & df & E) | (text & E)]; rewrite E in H; [|discriminate].
  clear E. unfold finish in H.
  destruct (newDate env (snd (newDate env w))) as [now w1] eqn:N.
  unfold maybeSummarize in H.
  cbn [appendTurns messageCountSinceSummary] in H. fold c in H.
  destruct (30 <=? c + 2)%Z eqn:L.
  - match type of H with
    | context [generateSummary ?e ?s ?x] =>
        pose proof (generateSummary_counter e s x) as Hc;
          destruct (generateSummary e s x) as [[s2 lg] w2]
    end.
    injection H as _ <- _ _. cbn [setCount messageCountSinceSummary].
    split; [reflexivity|]. split; [|lia].
    apply Z.leb_le in L. lia.
  - injection H as <- <- _ <-.
    cbn [appended history memories messageCountSinceSummary appendTurns].
    apply Z.leb_gt in L. subst c.
    split; [reflexivity|]. split; [|lia].
    intros _. split; [reflexivity|]. split.
    + unfold push. now rewrite <- app_assoc.
    + split; [reflexivity|].
      unfold newDate in N. injection N as _ <-. reflexivity.
Qed.

Lemma counter_cycle_witness :
  messageCountSinceSummary
    (snd (fst (fst (handleMessage envSteady (js "@ann") (TextMessage (js "Hello"))
                      jan2 newSession world0))))
  = 2%Z.
Proof.
  destruct (@counter_cycle envSteady (js "@ann") (TextMessage (js "Hello")) jan2
              newSession
              (snd (fst (fst (handleMessage envSteady (js "@ann")
                                (TextMessage (js "Hello")) jan2 newSession world0))))
              world0
              (snd (handleMessage envSteady (js "@ann") (TextMessage (js "Hello"))
                      jan2 newSession world0))
              [SendLong (js "Hi")]
              {| userTurn := turn "@ann" "Hello" "02.01.2024, 12:00:00";
                 botTurn := turn "Гермиона" "Hi" "02.01.2024, 12:00:00";
                 appended :=
                   appendTurns newSession
                     (turn "@ann" "Hello" "02.01.2024, 12:00:00")
                     (turn "Гермиона" "Hi" "02.01.2024, 12:00:00") |})
    as (H & _).
  - vm_compute. reflexivity.
  - exact H.
Defined.

(** X13. The request for a deletion count is used up by the next text
    message, whatever it says: no model is called and nothing is appended,
    the flag is down afterwards, [memories] is untouched and the history
    left is a prefix of the one found; a text that is no positive number
    (not a number at all, zero, negative) deletes nothing. *)
Theorem deletion_count_consumed :
  forall (env : Env) (userName text : JsString) (sent : Date)
         (session : Session) (w : World),
    awaitingMessageDeletionCount session = true ->
    let result := onMessageText env userName text sent session w in
    let session' := snd (fst (fst result)) in
    fst (fst (fst result)) = None
    /\ snd result = w
    /\ awaitingMessageDeletionCount session' = false
    /\ memories session' = memories session
    /\ (exists n, history session' = firstn n (history session))
    /\ (match parseInt10 (trim text) with
        | Some n => (n <= 0)%Z
        | None => True
        end -> history session' = history session).
Proof.
  intros env userName text sent session w Ha result session'.
  subst session' result. unfold onMessageText. rewrite Ha.
  unfold deleteLastMessages.
  assert (Hall : exists n, history session = firstn n (history session))
    by (exists (List.length (history session)); now rewrite firstn_all).
  destruct (parseInt10 (trim text)) as [n|].
  - destruct (Z.leb_spec n 0) as [Hn|Hn].
    + cbn. do 4 (split; [reflexivity|]). split; [exact Hall | reflexivity].
    + destruct (history session) as [|t h] eqn:E; cbn.
      * rewrite E. do 4 (split; [reflexivity|]).
        split; [now exists 0 | reflexivity].
      * do 4 (split; [reflexivity|]). split; [|lia].
        unfold splice. eexists. reflexivity.
  - cbn. do 4 (split; [reflexivity|]). split; [exact Hall | reflexivity].
Qed.

Lemma deletion_count_consumed_witness :
  history (snd (fst (fst (onMessageText envSteady (js "@ann") (js "many") jan2
                            awaitingSession world0))))
  = history awaitingSession.
Proof.
  destruct (@deletion_count_consumed envSteady (js "@ann") (js "many") jan2
              awaitingSession world0) as (_ & _ & _ & _ & _ & H).
  - reflexivity.
  - apply H. vm_compute. exact I.
Defined.

(** One model callback touches the model it sets and nothing else. *)
Lemma runModelCallback_frame (cb : ModelCallback) (session : Session) :
  let session' := fst (runModelCallback cb session) in
  history session' = history session
  /\ memories session' = memories session
  /\ messageCountSinceSummary session' = messageCountSinceSummary session
  /\ maxOutputTokens session' = maxOutputTokens session
  /\ temperature session' = temperature session
  /\ awaitingMessageDeletionCount session' = awaitingMessageDeletionCount session.
Proof.
  destruct cb as [m|m]; cbn [runModelCallback].
  - unfold set_main_model. destruct (str_eqb m (backupModel session));
      now repeat split.
  - unfold set_backup_model. destruct (str_eqb m (mainModel session));
      now repeat split.
Qed.

Lemma runModelCallback_distinct (cb : ModelCallback) (session : Session) :
  mainModel session <> backupModel session ->
  mainModel (fst (runModelCallback cb session))
  <> backupModel (fst (runModelCallback cb session)).
Proof.
  intro H. destruct cb as [m|m]; cbn [runModelCallback].
  - unfold set_main_model, str_eqb.
    destruct (str_eq_dec m (backupModel session)); [assumption|].
    assumption.
  - unfold set_backup_model, str_eqb.
    destruct (str_eq_dec m (mainModel session)); [assumption|].
    cbn. congruence.
Qed.

(** X14. The choice of models keeps the two models different: from a
    session whose main and backup models differ, no sequence of model
    callbacks, accepted or refused, reaches a session where they are the
    same; and such a sequence changes nothing but the two model names:
    history, memories, counter, the two settings and the flag of the
    deletion dialogue are the ones found. *)
Theorem model_choices_keep_distinct :
  forall (cbs : list ModelCallback) (session : Session),
    mainModel session <> backupModel session ->
    let session' :=
      fold_left (fun s cb => fst (runModelCallback cb s)) cbs session in
    mainModel session' <> backupModel session'
    /\ history session' = history session
    /\ memories session' = memories session
    /\ messageCountSinceSummary session' = messageCountSinceSummary session
    /\ maxOutputTokens session' = maxOutputTokens session
    /\ temperature session' = temperature session
    /\ awaitingMessageDeletionCount session'
       = awaitingMessageDeletionCount session.
Proof.
  induction cbs as [|cb cbs IH]; intros session H; cbn [fold_left].
  - now repeat split.
  - destruct (runModelCallback_frame cb session)
      as (F1 & F2 & F3 & F4 & F5 & F6).
    destruct (IH (fst (runModelCallback cb session))
                (runModelCallback_distinct cb session H))
      as (I0 & I1 & I2 & I3 & I4 & I5 & I6).
    split; [exact I0|].
    repeat split; congruence.
Qed.

Lemma model_choices_keep_distinct_witness :
  mainModel
    (fold_left (fun s cb => fst (runModelCallback cb s)) modelCallbacks newSession)
  <> backupModel
       (fold_left (fun s cb => fst (runModelCallback cb s)) modelCallbacks newSession).
Proof.
  apply (model_choices_keep_distinct modelCallbacks newSession).
  vm_compute. discriminate.
Defined.



(* ================================================================== *)
(** * Long messages, media types, speaker labels, stored sessions *)
(* ================================================================== *)

Section Chunks.

Variable n : nat.
Hypothesis n_positive : 0 < n.

(** With fuel enough, the pieces put end to end are the text, each piece
    has between one and [n] code units, and there are as many pieces as
    the length needs. *)
Lemma chunksFuel_spec (fuel : nat) :
  forall s : JsString,
    List.length s <= fuel ->
    List.concat (chunksFuel fuel n s) = s
    /\ Forall (fun p => 1 <= List.length p <= n) (chunksFuel fuel n s)
    /\ List.length s <= List.length (chunksFuel fuel n s) * n
    /\ List.length (chunksFuel fuel n s) * n < List.length s + n.
Proof.
  induction fuel as [|fuel IH]; intros s Hlen.
  - destruct s; [|cbn in Hlen; lia]. cbn. repeat split; [constructor | lia | lia].
  - destruct s as [|c s]; [cbn; repeat split; [constructor | lia | lia]|].
    cbn [chunksFuel]. remember (c :: s) as t eqn:Ht.
    assert (Hpos : 0 < List.length t) by (subst t; cbn; lia).
    destruct (IH (skipn n t)) as (C & F & L1 & L2).
    { rewrite length_skipn. lia. }
    rewrite length_skipn in L1, L2.
    split; [cbn [List.concat]; rewrite C; apply firstn_skipn|].
    split.
    + constructor; [|exact F]. rewrite length_firstn. lia.
    + cbn [List.length].
      remember (List.length (chunksFuel fuel n (skipn n t))) as k.
      remember (List.length t) as len.
      destruct (Nat.le_gt_cases n len) as [Hn|Hn].
      * replace (len - n + n) with len in L2 by lia. split; lia.
      * replace (len - n) with 0 in L1, L2 by lia.
        assert (k = 0) by nia. subst k. split; lia.
Qed.

End Chunks.

(** X16. [sendLongMessage] sends the whole text and nothing else: its
    replies put end to end are the sanitized text with its line feeds
    collapsed; there is at least one reply, none is longer than 4000 code
    units, and a reply is empty only when the whole text is; a text of
    more than 4000 code units goes out in as few replies as its length
    allows. *)
Theorem sendLongMessage_parts :
  forall (env : Env) (text : JsString),
    let parts := sendLongMessage env text in
    let sent := longMessageText env text in
    List.concat parts = sent
    /\ parts <> []
    /\ Forall (fun p => List.length p <= MAX_LENGTH) parts
    /\ (forall p, In p parts -> p = [] -> sent = [])
    /\ List.length sent <= List.length parts * MAX_LENGTH
    /\ (MAX_LENGTH < List.length sent ->
        List.length parts * MAX_LENGTH < List.length sent + MAX_LENGTH).
Proof.
  intros env text parts sent. subst parts. unfold sendLongMessage. fold sent.
  destruct (Nat.leb_spec (List.length sent) MAX_LENGTH) as [Hle|Hgt].
  - cbn [List.concat List.length]. rewrite app_nil_r.
    split; [reflexivity|]. split; [discriminate|].
    split; [constructor; [exact Hle | constructor]|].
    split; [intros p [<-|[]] E; exact E|].
    split; lia.
  - destruct (@chunksFuel_spec MAX_LENGTH ltac:(unfold MAX_LENGTH; lia)
                (List.length sent) sent (le_n _)) as (C & F & L1 & L2).
    fold (chunks MAX_LENGTH sent) in C, F, L1, L2.
    split; [exact C|]. split.
    + intro E. rewrite E in L1. cbn in L1. lia.
    + split; [eapply Forall_impl; [|exact F]; cbn; intros; lia|].
      split; [|split; [exact L1 | intros _; exact L2]].
      intros p Hp E. rewrite Forall_forall in F. specialize (F p Hp).
      subst p. cbn in F. lia.
Qed.

(** A text of two full pieces and one character more. *)
Lemma sendLongMessage_parts_witness :
  List.length (sendLongMessage envSteady
                 (repeat 97%N (MAX_LENGTH + MAX_LENGTH + 1))) * MAX_LENGTH
  < List.length (longMessageText envSteady
                   (repeat 97%N (MAX_LENGTH + MAX_LENGTH + 1))) + MAX_LENGTH.
Proof.
  destruct (sendLongMessage_parts envSteady
              (repeat 97%N (MAX_LENGTH + MAX_LENGTH + 1)))
    as (_ & _ & _ & _ & _ & H).
  apply H. apply Nat.ltb_lt. vm_compute. reflexivity.
Defined.

Section Collapse.

(** The result starts as the text does, and holds no two line feeds in a
    row. *)
Lemma collapseNewlines_head (s : JsString) :
  includes twoFeeds (collapseNewlines s) = false
  /\ match s with
     | [] => collapseNewlines s = []
     | c :: _ => exists t, collapseNewlines s = c :: t
     end.
Proof.
  induction s as [|c rest IH]; [now split|].
  destruct IH as [Hno Hhead].
  cbn [collapseNewlines].
  destruct rest as [|c' r].
  - split; [|now exists []].
    cbn. now rewrite !andb_false_r.
  - destruct Hhead as [t Ht].
    destruct ((c =? 10)%N && (c' =? 10)%N) eqn:E.
    + split; [exact Hno|].
      apply andb_prop in E. destruct E as [E1 E2].
      apply N.eqb_eq in E1, E2. subst c c'. now exists t.
    + split; [|eexists; reflexivity].
      rewrite Ht in *. cbn [includes startsWith twoFeeds] in *.
      rewrite andb_true_r.
      replace ((10 =? c)%N && (10 =? c')%N) with false
        by (rewrite (N.eqb_sym 10 c), (N.eqb_sym 10 c'); now rewrite E).
      exact Hno.
Qed.

(** A text without two line feeds in a row is left as it is. *)
Lemma collapseNewlines_id (s : JsString) :
  includes twoFeeds s = false -> collapseNewlines s = s.
Proof.
  induction s as [|c rest IH]; [reflexivity|].
  intro H. cbn [includes] in H. apply orb_false_elim in H.
  destruct H as [Hs Hi]. cbn [collapseNewlines].
  destruct rest as [|c' r]; [reflexivity|].
  cbn [startsWith twoFeeds] in Hs. rewrite andb_true_r in Hs.
  rewrite (N.eqb_sym 10 c), (N.eqb_sym 10 c') in Hs. rewrite Hs.
  f_equal. now apply IH.
Qed.

Lemma collapseNewlines_others (s : JsString) :
  filter (fun c => negb (c =? 10)%N) (collapseNewlines s)
  = filter (fun c => negb (c =? 10)%N) s
  /\ List.length (collapseNewlines s) <= List.length s.
Proof.
  induction s as [|c rest IH]; [now split|].
  destruct IH as [IH1 IH2]. cbn [collapseNewlines].
  destruct rest as [|c' r]; [now split|].
  destruct ((c =? 10)%N && (c' =? 10)%N) eqn:E.
  - apply andb_prop in E. destruct E as [E1 _].
    split; [|cbn [List.length] in *; lia].
    rewrite IH1. cbn [filter]. now rewrite E1.
  - split; [|cbn [List.length] in *; lia].
    cbn [filter]. rewrite IH1. reflexivity.
Qed.

End Collapse.

(** X17. The collapse of line feeds in [sendLongMessage] leaves no two
    line feeds in a row, keeps every other character in its place and
    order, never makes the text longer, leaves alone a text that has no
    two line feeds in a row, and so changes nothing when applied twice. *)
Theorem collapseNewlines_spec :
  forall s : JsString,
    includes twoFeeds (collapseNewlines s) = false
    /\ filter (fun c => negb (c =? 10)%N) (collapseNewlines s)
       = filter (fun c => negb (c =? 10)%N) s
    /\ List.length (collapseNewlines s) <= List.length s
    /\ (includes twoFeeds s = false -> collapseNewlines s = s)
    /\ collapseNewlines (collapseNewlines s) = collapseNewlines s.
Proof.
  intro s.
  destruct (collapseNewlines_head s) as [Hno _].
  destruct (collapseNewlines_others s) as [Hf Hl].
  split; [exact Hno|]. split; [exact Hf|]. split; [exact Hl|].
  split; [apply collapseNewlines_id|].
  now apply collapseNewlines_id.
Qed.

Lemma collapseNewlines_spec_witness :
  collapseNewlines (js "a" ++ nl ++ js "b") = js "a" ++ nl ++ js "b".
Proof.
  destruct (collapseNewlines_spec (js "a" ++ nl ++ js "b")) as (_ & _ & _ & H & _).
  apply H. reflexivity.
Defined.

(** X18. The photo handler never refuses a file for its type: whatever the
    extension, the MIME type it picks is one of the supported ones, so its
    reply about an unsupported type is never sent. *)
Theorem photo_type_supported :
  forall fileExtension : JsString,
    includesStr supportedImageTypes (photoMimeType fileExtension) = true
    /\ (photoMimeType fileExtension = js "image/jpeg"
        \/ fileExtension = js ".png" \/ fileExtension = js ".webp"
        \/ fileExtension = js ".heic" \/ fileExtension = js ".heif").
Proof.
  intro ext. unfold photoMimeType.
  destruct (str_eqb ext (js ".png")) eqn:E1;
    [apply str_eqb_eq in E1; split; [reflexivity | tauto]|].
  destruct (str_eqb ext (js ".webp")) eqn:E2;
    [apply str_eqb_eq in E2; split; [reflexivity | tauto]|].
  destruct (str_eqb ext (js ".heic")) eqn:E3;
    [apply str_eqb_eq in E3; split; [reflexivity | tauto]|].
  destruct (str_eqb ext (js ".heif")) eqn:E4;
    [apply str_eqb_eq in E4; split; [reflexivity | tauto]|].
  split; [reflexivity | now left].
Qed.

(** X19. The voice and audio handler accepts a file only with a file id
    and a supported type: a voice message with a file id always passes, as
    [audio/ogg]; an audio without a MIME type passes as [audio/mpeg]; and
    whatever passes has a file id that is not empty and a type of the
    supported list. *)
Theorem audio_file_accepted :
  forall a : AudioIn,
    (forall c id, a = Voice (c :: id) ->
                  audioFile a = inl (c :: id, js "audio/ogg"))
    /\ (forall c id mime, a = Audio (c :: id) mime -> truthy mime = false ->
                          audioFile a = inl (c :: id, js "audio/mpeg"))
    /\ (forall fileId mimeType,
           audioFile a = inl (fileId, mimeType) ->
           fileId <> []
           /\ includesStr supportedAudioTypes mimeType = true
           /\ fileId = match a with Voice i => i | Audio i _ => i end).
Proof.
  intro a. split; [|split].
  - intros c id ->. reflexivity.
  - intros c id mime -> H. unfold audioFile. rewrite H. reflexivity.
  - intros fileId mimeType H. unfold audioFile in H.
    destruct a as [i | i m].
    + destruct i as [|c i]; [discriminate|].
      destruct (includesStr supportedAudioTypes (js "audio/ogg")) eqn:E;
        [|discriminate].
      injection H as <- <-. split; [discriminate|]. now split.
    + destruct i as [|c i]; [discriminate|].
      destruct (includesStr supportedAudioTypes
                  (if truthy m then strOf m else js "audio/mpeg")) eqn:E;
        [|discriminate].
      injection H as <- <-. split; [discriminate|]. now split.
Qed.

Lemma audio_file_accepted_witness :
  audioFile (Voice (js "AwACAgIAAxkBAAIB")) = inl (js "AwACAgIAAxkBAAIB", js "audio/ogg")
  /\ audioFile (Audio (js "CQACAgIAAxkBAAIC") None)
     = inl (js "CQACAgIAAxkBAAIC", js "audio/mpeg")
  /\ js "CQACAgIAAxkBAAIC" <> [].
Proof.
  destruct (audio_file_accepted (Voice (js "AwACAgIAAxkBAAIB"))) as (H1 & _ & _).
  destruct (audio_file_accepted (Audio (js "CQACAgIAAxkBAAIC") None))
    as (_ & H2 & H3).
  split; [now apply (H1 65%N (js "wACAgIAAxkBAAIB"))|].
  split; [now apply (H2 67%N (js "QACAgIAAxkBAAIC") None)|].
  apply (H3 (js "CQACAgIAAxkBAAIC") (js "audio/mpeg")). reflexivity.
Defined.

(** X20. [getUserName] never gives an empty label: it is the user name
    after an at sign when there is one, else the first and last names that
    are there, joined by a space, else a fixed label. *)
Theorem getUserName_not_empty :
  forall from : From,
    getUserName from <> []
    /\ (forall c u, username from = Some (c :: u) ->
                    getUserName from = js "@" ++ c :: u)
    /\ (truthy (username from) = false ->
        forall c f d l,
          first_name from = Some (c :: f) -> last_name from = Some (d :: l) ->
          getUserName from = (c :: f) ++ js " " ++ (d :: l))
    /\ (truthy (username from) = false -> truthy (first_name from) = false ->
        truthy (last_name from) = false ->
        getUserName from = js "Неизвестный пользователь").
Proof.
  intro from. split; [|split; [|split]].
  - unfold getUserName.
    destruct (username from) as [[|c u]|]; cbn [truthy]; try discriminate;
      destruct (first_name from) as [[|c1 f]|]; cbn [truthy orb filter];
        destruct (last_name from) as [[|c2 l]|]; cbn [truthy orb filter map strOf join];
          discriminate.
  - intros c u H. unfold getUserName. rewrite H. reflexivity.
  - intros Hu c f d l Hf Hl. unfold getUserName. rewrite Hu, Hf, Hl. reflexivity.
  - intros Hu Hf Hl. unfold getUserName. now rewrite Hu, Hf, Hl.
Qed.

Lemma getUserName_not_empty_witness :
  getUserName {| username := None; first_name := Some (js "Ann");
                 last_name := Some (js "Lee") |}
  = js "Ann Lee".
Proof.
  destruct (getUserName_not_empty
              {| username := None; first_name := Some (js "Ann");
                 last_name := Some (js "Lee") |}) as (_ & _ & H & _).
  apply (H eq_refl 65%N (js "nn") 76%N (js "ee")); reflexivity.
Defined.

(* ================================================================== *)
(** * Stored sessions, the two tests of "today" *)
(* ================================================================== *)

Lemma orTokens_twice (x : Z) : orTokens (orTokens x) = orTokens x.
Proof. unfold orTokens. destruct (Z.eqb_spec x 0); [reflexivity|].
  destruct (Z.eqb_spec x 0); [contradiction | reflexivity]. Qed.

Lemma orTemperature_twice (x : Q) : orTemperature (orTemperature x) = orTemperature x.
Proof.
  unfold orTemperature. destruct (Qeq_bool x 0) eqn:E; [reflexivity|].
  now rewrite E.
Qed.

Lemma orStr_twice (s dflt : JsString) : orStr (orStr s dflt) dflt = orStr s dflt.
Proof. destruct s; [now destruct dflt | reflexivity]. Qed.

(** X21. Loading a stored session fills its missing settings once and for
    all: loading twice is loading once, the settings loaded are all set
    (no zero number, no empty name), and loading changes nothing for the
    dispatch, which completes a session with the same defaults: the two
    model objects and the whole run of [generateResponseWithBackup] are
    the same for the session as stored and as loaded. *)
Theorem loadDefaults_settles :
  forall (env : Env) (session : Session) (contents : Contents),
    loadDefaults (loadDefaults session) = loadDefaults session
    /\ maxOutputTokens (loadDefaults session) <> 0%Z
    /\ Qeq_bool (temperature (loadDefaults session)) 0 = false
    /\ mainModel (loadDefaults session) <> []
    /\ backupModel (loadDefaults session) <> []
    /\ mainOf env (loadDefaults session) = mainOf env session
    /\ backupOf env (loadDefaults session) = backupOf env session
    /\ generateResponseWithBackup env (loadDefaults session) contents
       = generateResponseWithBackup env session contents.
Proof.
  intros env session contents.
  assert (Hm : mainOf env (loadDefaults session) = mainOf env session).
  { unfold mainOf, loadDefaults. cbn [setSettings mainModel maxOutputTokens temperature].
    now rewrite orTokens_twice, orTemperature_twice, orStr_twice. }
  assert (Hb : backupOf env (loadDefaults session) = backupOf env session).
  { unfold backupOf, loadDefaults. cbn [setSettings backupModel maxOutputTokens temperature].
    now rewrite orTokens_twice, orTemperature_twice, orStr_twice. }
  split.
  - unfold loadDefaults. cbn [setSettings history memories messageCountSinceSummary
                                maxOutputTokens temperature mainModel backupModel
                                awaitingMessageDeletionCount].
    now rewrite orTokens_twice, orTemperature_twice, !orStr_twice.
  - split.
    { cbn. unfold orTokens. now destruct (Z.eqb_spec (maxOutputTokens session) 0). }
    split.
    { cbn. unfold orTemperature.
      now destruct (Qeq_bool (temperature session) 0) eqn:E. }
    split; [cbn; now destruct (mainModel session)|].
    split; [cbn; now destruct (backupModel session)|].
    split; [exact Hm|]. split; [exact Hb|].
    unfold generateResponseWithBackup. now rewrite Hm, Hb.
Qed.

(** X22. Loading does not check that the two models differ.  Two names
    that are stored and differ are kept, and differ; but a stored session
    whose main model is gemini-1.5-pro-002 and whose backup is missing, or
    whose backup is gemini-exp-1206 and whose main model is missing, is
    loaded with the same model as main and as backup. *)
Theorem loadDefaults_models :
  forall session : Session,
    (mainModel session <> [] -> backupModel session <> [] ->
     mainModel session <> backupModel session ->
     mainModel (loadDefaults session) = mainModel session
     /\ backupModel (loadDefaults session) = backupModel session
     /\ mainModel (loadDefaults session) <> backupModel (loadDefaults session))
    /\ (mainModel session = js "gemini-1.5-pro-002" -> backupModel session = [] ->
        mainModel (loadDefaults session) = backupModel (loadDefaults session))
    /\ (mainModel session = [] -> backupModel session = js "gemini-exp-1206" ->
        mainModel (loadDefaults session) = backupModel (loadDefaults session)).
Proof.
  intro session. split; [|split].
  - intros Hm Hb Hd. cbn.
    destruct (mainModel session) as [|c m]; [congruence|].
    destruct (backupModel session) as [|d b]; [congruence|].
    cbn. now repeat split.
  - intros Hm Hb. cbn. rewrite Hm, Hb. reflexivity.
  - intros Hm Hb. cbn. rewrite Hm, Hb. reflexivity.
Qed.

Lemma loadDefaults_models_witness :
  mainModel (loadDefaults (setSettings newSession 700 (15 # 10)
                              (js "gemini-1.5-pro-002") []))
  = backupModel (loadDefaults (setSettings newSession 700 (15 # 10)
                                 (js "gemini-1.5-pro-002") [])).
Proof.
  destruct (loadDefaults_models
              (setSettings newSession 700 (15 # 10) (js "gemini-1.5-pro-002") []))
    as (_ & H & _).
  apply H; reflexivity.
Defined.

Section RuDate.

Lemma split_without_sep (sep : N) (s : JsString) :
  (forall c, In c s -> c <> sep) -> split sep s = [s].
Proof.
  induction s as [|c s IH]; intro H; [reflexivity|].
  cbn [split]. destruct (N.eqb_spec c sep) as [E|E];
    [exfalso; apply (H c); [now left | exact E]|].
  rewrite IH by (intros x Hx; apply H; now right). reflexivity.
Qed.

Lemma split_app_sep (sep : N) (a b : JsString) :
  (forall c, In c a -> c <> sep) ->
  split sep (a ++ sep :: b) = a :: split sep b.
Proof.
  induction a as [|c a IH]; intro H.
  - cbn [app split]. now rewrite N.eqb_refl.
  - cbn [app split]. destruct (N.eqb_spec c sep) as [E|E];
      [exfalso; apply (H c); [now left | exact E]|].
    rewrite IH by (intros x Hx; apply H; now right). reflexivity.
Qed.

Lemma digit_in (ds : JsString) (c : N) :
  forallb isDigit ds = true -> In c ds -> (48 <= c <= 57)%N.
Proof.
  intros H Hc. rewrite forallb_forall in H. specialize (H c Hc).
  unfold isDigit in H. apply andb_prop in H. destruct H as [H1 H2].
  apply N.leb_le in H1, H2. lia.
Qed.

(** [Number] reads back a run of digits. *)
Lemma Number_digits (ds : JsString) :
  forallb isDigit ds = true -> ds <> [] -> Number ds = Some (readAll ds 0).
Proof.
  intros Hall Hne. unfold Number. rewrite trim_digits by assumption.
  destruct ds as [|c s]; [congruence|].
  assert (Hc : (48 <= c <= 57)%N) by (apply (@digit_in _ _ Hall); now left).
  assert (Hread : fst (readDigits (c :: s) 0 false) = readAll (c :: s) 0).
  { rewrite <- (app_nil_r (c :: s)) at 1. now rewrite readDigits_app. }
  destruct c as [|p]; [lia|].
  do 6 (destruct p as [p|p|]; try (rewrite Hall, Hread; reflexivity));
    lia.
Qed.

(** The two digits of a day or a month: digits, read back as the number. *)
Lemma pad2_spec (n : N) :
  forallb isDigit (pad2 n) = true /\ pad2 n <> []
  /\ readAll (pad2 n) 0 = Z.of_N n.
Proof.
  destruct (digits_spec n) as (ds & E & Hall & Hne & Hval).
  unfold pad2. rewrite E. destruct (n <? 10)%N.
  - split; [cbn [forallb]; now rewrite Hall|]. split; [discriminate|].
    unfold readAll in *. cbn [fold_left]. exact Hval.
  - now repeat split.
Qed.

(** The parts of a date written by the [ru-RU] formatter. *)
Lemma ruRU_parts (d : Date) :
  split 46 (toLocaleDateString_ruRU d)
  = [ pad2 (Z.to_N (getDate d)); pad2 (Z.to_N (getMonth d + 1));
      digits (Z.to_N (getFullYear d)) ].
Proof.
  unfold toLocaleDateString_ruRU. change (js ".") with [46%N].
  destruct (pad2_spec (Z.to_N (getDate d))) as (Hd & _ & _).
  destruct (pad2_spec (Z.to_N (getMonth d + 1))) as (Hm & _ & _).
  destruct (digits_spec (Z.to_N (getFullYear d))) as (ds & E & Hy & _ & _).
  assert (Hsep : forall s c, forallb isDigit s = true -> In c s -> c <> 46%N).
  { intros s c Hs Hc. pose proof (@digit_in _ _ Hs Hc). lia. }
  cbn [app]. rewrite split_app_sep by (intros c Hc; now apply (Hsep _ c Hd)).
  rewrite split_app_sep by (intros c Hc; now apply (Hsep _ c Hm)).
  rewrite split_without_sep; [reflexivity|].
  rewrite E. intros c Hc. now apply (Hsep _ c Hy).
Qed.

(** A date of the [ru-RU] formatter holds no comma. *)
Lemma ruRU_no_comma (d : Date) (c : N) :
  In c (toLocaleDateString_ruRU d) -> c <> 44%N.
Proof.
  unfold toLocaleDateString_ruRU. change (js ".") with [46%N].
  destruct (pad2_spec (Z.to_N (getDate d))) as (Hd & _ & _).
  destruct (pad2_spec (Z.to_N (getMonth d + 1))) as (Hm & _ & _).
  destruct (digits_spec (Z.to_N (getFullYear d))) as (ds & E & Hy & _ & _).
  rewrite E. rewrite !in_app_iff. cbn [In].
  intros [H|[[H|[]]|[H|[[H|[]]|H]]]]; try lia.
  - pose proof (@digit_in _ _ Hd H). lia.
  - pose proof (@digit_in _ _ Hm H). lia.
  - pose proof (@digit_in _ _ Hy H). lia.
Qed.

(** A turn whose day key is the [ru-RU] date of [now] is a turn of today
    for [isMessageFromToday]. *)
Lemma ruRU_day_today (now : Date) (t : Turn) :
  (0 <= getDate now)%Z -> (0 <= getMonth now + 1)%Z -> (0 <= getFullYear now)%Z ->
  dayOf t = toLocaleDateString_ruRU now ->
  isMessageFromToday now (date t) = true.
Proof.
  intros Hd Hm Hy Ht. unfold isMessageFromToday. unfold dayOf in Ht. rewrite Ht.
  rewrite ruRU_parts. cbn [map nth_error].
  destruct (pad2_spec (Z.to_N (getDate now))) as (D1 & D2 & D3).
  destruct (pad2_spec (Z.to_N (getMonth now + 1))) as (M1 & M2 & M3).
  destruct (digits_spec (Z.to_N (getFullYear now))) as (ds & E & Y1 & Y2 & Y3).
  rewrite !Number_digits by (rewrite ?E; assumption).
  rewrite D3, M3, E, Y3. cbn [numEq].
  rewrite !Z2N.id by assumption. now rewrite !Z.eqb_refl.
Qed.

End RuDate.

(** X23. The two tests of "today" agree on the timestamps of the [ru-RU]
    locale: a turn whose day key is today's date as [generateSummary] and
    [delete_today_messages] write it (day.month.year on 2, 2 and more
    digits) is a turn of today for [isMessageFromToday], which
    [buildContents] filters with; and a timestamp that starts with that
    date followed by a comma has that day key. *)
Theorem ru_day_is_today :
  forall (now : Date),
    (0 <= getDate now)%Z -> (0 <= getMonth now + 1)%Z -> (0 <= getFullYear now)%Z ->
    (forall t, dayOf t = toLocaleDateString_ruRU now ->
               isMessageFromToday now (date t) = true)
    /\ (forall t rest,
           date t = toLocaleDateString_ruRU now ++ 44%N :: rest ->
           dayOf t = toLocaleDateString_ruRU now).
Proof.
  intros now Hd Hm Hy. split.
  - intros t Ht. now apply ruRU_day_today.
  - intros t rest Ht. unfold dayOf. rewrite Ht.
    rewrite split_app_sep by apply ruRU_no_comma. reflexivity.
Qed.

Lemma ru_day_is_today_witness :
  isMessageFromToday jan2 (js "02.01.2024, 09:30:00") = true.
Proof.
  destruct (ru_day_is_today jan2) as (H & _); try (cbn; lia).
  apply (H (turn "@ann" "Как дела?" "02.01.2024, 09:30:00")). reflexivity.
Defined.

Lemma filter_all (A : Type) (f : A -> bool) (l : list A) :
  (forall x, In x l -> f x = true) -> filter f l = l.
Proof.
  induction l as [|x l IH]; intro H; [reflexivity|].
  cbn [filter]. rewrite (H x) by now left.
  f_equal. apply IH. intros y Hy. apply H. now right.
Qed.

(** X24. After a completed consolidation the composer sees the whole
    history: on the day of the consolidation, none of the turns it left is
    filtered out by [buildContents], so the prompt holds the last twenty
    of them, or all of them when they are fewer. *)
Theorem composer_after_consolidation :
  forall (env : Env) (session session' : Session) (w w' : World) (now : Date)
         (userName userMessage messageDate : JsString),
    generateSummary env session w = (session', LogSuccess, w') ->
    (0 <= getDate now)%Z -> (0 <= getMonth now + 1)%Z -> (0 <= getFullYear now)%Z ->
    toLocaleDateString_ruRU now = toLocaleDateString_ruRU (clock env (ticks w)) ->
    buildContents now (history session') (memories session')
      userName userMessage messageDate
    = map memoryPart (Obj.entries (memories session'))
      ++ map turnPart (sliceLast 20 (history session'))
      ++ [newTurnPart userName messageDate userMessage; cuePart].
Proof.
  intros env session session' w w' now userName userMessage messageDate
         H Hd Hm Hy Hday.
  rewrite buildContents_eq. rewrite filter_all; [reflexivity|].
  intros t Ht.
  apply ruRU_day_today; try assumption.
  destruct (generateSummary_success _ _ _ H) as (Hh & _).
  rewrite Hh in Ht. apply filter_In in Ht. destruct Ht as [_ Ht].
  rewrite Hday. now apply str_eqb_eq.
Qed.

Lemma composer_after_consolidation_witness :
  buildContents jan2_evening
    (history (fst (fst (generateSummary envSteady sessionTwoDays world0))))
    (memories (fst (fst (generateSummary envSteady sessionTwoDays world0))))
    (js "@ann") (js "Привет") (js "02.01.2024, 21:00:00")
  = map memoryPart
      (Obj.entries (memories (fst (fst (generateSummary envSteady sessionTwoDays world0)))))
    ++ map turnPart
         (sliceLast 20
            (history (fst (fst (generateSummary envSteady sessionTwoDays world0)))))
    ++ [newTurnPart (js "@ann") (js "02.01.2024, 21:00:00") (js "Привет"); cuePart].
Proof.
  apply (@composer_after_consolidation envSteady sessionTwoDays
           (fst (fst (generateSummary envSteady sessionTwoDays world0)))
           world0
           (snd (generateSummary envSteady sessionTwoDays world0))
           jan2_evening).
  - vm_compute. reflexivity.
  - vm_compute. discriminate.
  - vm_compute. discriminate.
  - vm_compute. discriminate.
  - vm_compute. reflexivity.
Defined.

(* ================================================================== *)
(** * The request of the DeepSeek adapter *)
(* ================================================================== *)

Section Deepseek.

Lemma deepseek_fold (contents : Contents) (acc : JsString) :
  fold_left
    (fun userContent item =>
       match item with
       | Text (c :: t) => userContent ++ (c :: t) ++ nl
       | _ => userContent
       end) contents acc
  = acc ++ List.concat
             (map (fun item =>
                     match item with
                     | Text (c :: t) => (c :: t) ++ nl
                     | _ => []
                     end) contents).
Proof.
  revert acc. induction contents as [|item contents IH]; intro acc.
  - cbn. now rewrite app_nil_r.
  - cbn [fold_left map List.concat]. rewrite IH.
    destruct item as [[|c t]|m u];
      now rewrite ?app_nil_l, <- ?app_assoc.
Qed.

(** White space in front of a text is dropped up to its first character
    that is none. *)
Lemma trimStart_keeps (x s : JsString) (c : N) :
  isWhiteSpace c = false ->
  exists x', trimStart (x ++ c :: s) = x' ++ c :: s.
Proof.
  intro Hc. induction x as [|a x IH].
  - exists []. cbn. now rewrite Hc.
  - cbn [app trimStart]. destruct (isWhiteSpace a).
    + exact IH.
    + now exists (a :: x).
Qed.

(** A line feed at the end is trimmed, a character that is no white space
    is where the trimming stops. *)
Lemma trimEnd_feed (x : JsString) (d : N) :
  isWhiteSpace d = false ->
  trimEnd ((x ++ [d]) ++ nl) = x ++ [d].
Proof.
  intro Hd. unfold trimEnd, nl. rewrite !rev_app_distr. cbn [rev app trimStart].
  change (isWhiteSpace 10) with true. cbn iota. rewrite Hd.
  change (d :: rev x) with ([d] ++ rev x).
  now rewrite rev_app_distr, rev_involutive.
Qed.

Lemma trim_keeps_last (x body : JsString) (c d : N) :
  isWhiteSpace c = false -> isWhiteSpace d = false ->
  exists before,
    trim (x ++ (c :: body ++ [d]) ++ nl) = before ++ c :: body ++ [d].
Proof.
  intros Hc Hd. unfold trim.
  destruct (@trimStart_keeps x ((body ++ [d]) ++ nl) c Hc) as (x' & E).
  exists x'. cbn [app]. rewrite E.
  replace (x' ++ c :: (body ++ [d]) ++ nl)
    with (((x' ++ c :: body) ++ [d]) ++ nl)
    by (now rewrite <- !app_assoc).
  rewrite trimEnd_feed by assumption.
  now rewrite <- app_assoc.
Qed.

End Deepseek.

(** X25. What DeepSeek is asked.  For a prompt composed by
    [buildContents], the user content sent by the adapter of
    [createDeepseekModel] ends with the cue "Гермиона:", no line feed
    after it; and for any contents, a file part adds nothing to the
    request, nor does a part with an empty text. *)
Theorem deepseek_request :
  forall (now : Date) (history : list Turn) (memories : Obj.t Memory)
         (userName userMessage messageDate : JsString),
    (exists before,
        deepseekUserContent
          (buildContents now history memories userName userMessage messageDate)
        = before ++ js "Гермиона:")
    /\ (forall (contents rest : Contents) (mimeType fileUri : JsString),
           deepseekUserContent (contents ++ FileData mimeType fileUri :: rest)
           = deepseekUserContent (contents ++ rest)
           /\ deepseekUserContent (contents ++ Text [] :: rest)
              = deepseekUserContent (contents ++ rest)).
Proof.
  intros now history memories userName userMessage messageDate. split.
  - rewrite buildContents_eq. unfold deepseekUserContent.
    rewrite deepseek_fold, !map_app, !concat_app. cbn [app map List.concat].
    unfold cuePart.
    assert (Hcue : js "Гермиона:"
                   = 1043%N :: [1077; 1088; 1084; 1080; 1086; 1085; 1072]%N ++ [58%N])
      by (vm_compute; reflexivity).
    rewrite Hcue, app_nil_r, !app_assoc.
    apply trim_keeps_last; reflexivity.
  - intros contents rest mimeType fileUri. unfold deepseekUserContent.
    rewrite !deepseek_fold, !map_app, !concat_app. cbn [map List.concat app].
    now split.
Qed.

(* ================================================================== *)
(** * Clearing *)
(* ================================================================== *)

(** X26. After [confirm_clear_memories] nothing of the past reaches a
    model or the user: whatever the clock, the next prompt composed holds
    the new turn and the cue only; [about_user] answers that there is no
    memory; [refresh_memories] finds nothing to summarize and calls no
    model; the counter is at zero; the settings and the two model names
    are the ones the session had. *)
Theorem clear_forgets_everything :
  forall (env : Env) (session : Session) (w : World) (now : Date)
         (userName userMessage messageDate : JsString),
    let session' := fst (confirm_clear_memories session) in
    buildContents now (history session') (memories session')
      userName userMessage messageDate
    = [newTurnPart userName messageDate userMessage; cuePart]
    /\ about_user session' = [Answer (js "У меня нет воспоминаний о тебе.")]
    /\ refresh_memories env session' w
       = (session', LogEmptyHistory,
          [Answer (js "У тебя нет истории для обобщения.")], w)
    /\ generateSummary env session' w = (session', LogEmptyHistory, w)
    /\ messageCountSinceSummary session' = 0%Z
    /\ setCount (setHistoryMemories session' (history session) (memories session))
         (messageCountSinceSummary session)
       = session.
Proof.
  intros env session w now userName userMessage messageDate session'.
  subst session'. unfold confirm_clear_memories. cbn [fst].
  repeat split; try reflexivity.
  now destruct session.
Qed.

